(** * llms-text-maker: the extraction pipeline, embedded and verified

    A shallow embedding of the data-extraction pipeline of the repository
    (the extractor module, the constants it reads, the quality scorer of the
    extract route and the admission gate of the generate route) and of the
    code around it (the three route handlers from the request body on, the
    cleaning of generated text, the generator, and the text and meta tags of
    a scraped page), followed by the theorems that settle the
    specification's claims against that code and by further properties of
    the code.

    Conventions of the embedding.
    - A JavaScript string is a [string] over Rocq's 8-bit [ascii]; the
      letters A-Z / a-z are the only characters that have a case, and the
      white space characters are TAB, LF, VT, FF, CR and SPACE.  Characters
      outside 7-bit ASCII are carried along unchanged.  On ASCII text these
      conventions are those of JavaScript; a property whose statement
      depends on the white space, the case or the line terminators of other
      text is stated for ASCII text ([isAscii]), and the lengths that the
      route handlers compare ([content.length], [text.trim().length], the
      size of a [Blob]) are parameters of the handlers.
    - A JavaScript value is a [JsVal]; a number is carried as the text that
      JavaScript prints for it, so [0] and [-0] are the same number.
    - A call that raises a [TypeError] in JavaScript returns [Throw] in the
      [Throws] monad; nothing in the modelled code catches inside the
      pipeline, so the first [Throw] is the outcome of the whole call. *)

From Stdlib Require Import String Ascii List Bool Arith ZArith QArith Lia.
From Stdlib Require Import DecimalString.
Import ListNotations.
Open Scope string_scope.
Open Scope list_scope.
Set Warnings "-register-all".

(* ================================================================== *)
(** ** JavaScript strings *)

Module JsString.

(** Code of a character, as a natural number. *)
Definition code (a : ascii) : nat := nat_of_ascii a.

Definition in_range (lo hi a : ascii) : bool :=
  ((code lo <=? code a) && (code a <=? code hi))%nat.

Definition is_upper (a : ascii) : bool := in_range "A" "Z" a.
Definition is_lower (a : ascii) : bool := in_range "a" "z" a.

Definition lower_char (a : ascii) : ascii :=
  if is_upper a then ascii_of_nat (code a + 32)%nat else a.
Definition upper_char (a : ascii) : ascii :=
  if is_lower a then ascii_of_nat (code a - 32)%nat else a.

(** [String.prototype.toLowerCase]. *)
Fixpoint toLowerCase (s : string) : string :=
  match s with
  | EmptyString => EmptyString
  | String a s' => String (lower_char a) (toLowerCase s')
  end.

(** [prefix p s]: [s] starts with [p]. *)
Fixpoint starts_with (p s : string) : bool :=
  match p, s with
  | EmptyString, _ => true
  | String a p', String b s' => Ascii.eqb a b && starts_with p' s'
  | String _ _, EmptyString => false
  end.

(** [String.prototype.includes]: [sub] occurs somewhere in [s]. *)
Fixpoint includes (s sub : string) : bool :=
  starts_with sub s ||
  match s with
  | EmptyString => false
  | String _ s' => includes s' sub
  end.

(** White space in the sense of [\s] and of [trim]. *)
Definition is_space (a : ascii) : bool :=
  let n := code a in
  ((n =? 32) || ((9 <=? n) && (n <=? 13)))%nat.

Fixpoint trimStart (s : string) : string :=
  match s with
  | String a s' => if is_space a then trimStart s' else s
  | EmptyString => EmptyString
  end.

(** Strips trailing white space: a character is kept when something that
    is not white space follows it or it is not white space itself. *)
Fixpoint trimEnd (s : string) : string :=
  match s with
  | EmptyString => EmptyString
  | String a s' =>
      match trimEnd s' with
      | EmptyString => if is_space a then EmptyString else String a EmptyString
      | t => String a t
      end
  end.

(** [String.prototype.trim]. *)
Definition trim (s : string) : string := trimEnd (trimStart s).

(** [s.split(/[...]/)] for a separator that is one character of a class:
    the pieces between the separators, empty pieces included. *)
Fixpoint split_on (sep : ascii -> bool) (s : string) : list string :=
  match s with
  | EmptyString => [EmptyString]
  | String a s' =>
      if sep a then EmptyString :: split_on sep s'
      else match split_on sep s' with
           | piece :: rest => String a piece :: rest
           | [] => [String a EmptyString]
           end
  end.

(** The one-character strings of [s], as the spread [[...s]] yields. *)
Fixpoint chars (s : string) : list string :=
  match s with
  | EmptyString => []
  | String a s' => String a EmptyString :: chars s'
  end.

End JsString.
Import JsString.

(* ================================================================== *)
(** ** Regular expressions

    The fragment of JavaScript regular expressions that the program uses,
    with the backtracking semantics of the language: alternatives are tried
    left to right, quantifiers are greedy and give characters back one at a
    time, a search tries the start positions from the left. *)

Module Regex.

(** Character classes. *)
Inductive cclass : Type :=
| COneOf (members : string)        (* the listed characters *)
| CRange (lo hi : ascii)           (* lo-hi *)
| CSpace                           (* \s *)
| CDot                             (* . : anything but a line terminator *)
| CUnion (c1 c2 : cclass)
| CNot (c : cclass).               (* [^...] *)

Fixpoint one_of (ci : bool) (members : string) (a : ascii) : bool :=
  match members with
  | EmptyString => false
  | String m rest =>
      Ascii.eqb m a
      || (ci && Ascii.eqb (upper_char m) (upper_char a))
      || one_of ci rest a
  end.

(** Membership; [ci] is the [i] flag: two characters agree when their
    upper-case forms do. *)
Fixpoint in_class (ci : bool) (c : cclass) (a : ascii) : bool :=
  match c with
  | COneOf members => one_of ci members a
  | CRange lo hi =>
      in_range lo hi a
      || (ci && (in_range lo hi (upper_char a) || in_range lo hi (lower_char a)))
  | CSpace => is_space a
  | CDot => negb ((code a =? 10)%nat || (code a =? 13)%nat)
  | CUnion c1 c2 => in_class ci c1 a || in_class ci c2 a
  | CNot c' => negb (in_class ci c' a)
  end.

Inductive regex : Type :=
| Lit (s : string)                 (* the characters of s, in sequence *)
| Cls (c : cclass)                 (* one character of the class *)
| Seq (r1 r2 : regex)
| Alt (r1 r2 : regex)              (* r1|r2 *)
| Opt (r : regex)                  (* r? *)
| Rep (c : cclass) (min : nat)     (* c{min,} : c* is min 0, c+ is min 1 *)
| Group (n : nat) (r : regex)      (* the n-th capturing group *)
| Eos.                             (* $ without the m flag *)

(** Concatenation of a sequence of sub-patterns. *)
Definition Cat (rs : list regex) : regex := fold_right Seq (Lit EmptyString) rs.

(** c{n} *)
Fixpoint Times (c : cclass) (n : nat) : regex :=
  match n with
  | O => Lit EmptyString
  | S n' => Seq (Cls c) (Times c n')
  end.

Definition captures := list (nat * string).

(** The part of [s] in front of its suffix [rest]. *)
Definition consumed (s rest : string) : string :=
  substring 0 (String.length s - String.length rest) s.

Fixpoint lit (ci : bool) (p s : string) : option string :=
  match p, s with
  | EmptyString, _ => Some s
  | String a p', String b s' =>
      if Ascii.eqb a b || (ci && Ascii.eqb (upper_char a) (upper_char b))
      then lit ci p' s' else None
  | String _ _, EmptyString => None
  end.

Section Matcher.
Context {R : Type}.

(** Greedy repetition of a class: take the character when it is in the
    class, and fall back to stopping here when the rest fails. *)
Fixpoint rep (ci : bool) (c : cclass) (min : nat) (s : string)
         (k : string -> option R) : option R :=
  let stop := if (min =? 0)%nat then k s else None in
  match s with
  | String a s' =>
      if in_class ci c a then
        match rep ci c (Nat.pred min) s' k with
        | Some r => Some r
        | None => stop
        end
      else stop
  | EmptyString => stop
  end.

(** [mtch ci r s caps k]: match [r] at the front of [s], then hand the
    rest of the input and the captures to the continuation [k]; a
    continuation that fails makes the matcher backtrack. *)
Fixpoint mtch (ci : bool) (r : regex) (s : string) (caps : captures)
         (k : string -> captures -> option R) : option R :=
  match r with
  | Lit p =>
      match lit ci p s with
      | Some s' => k s' caps
      | None => None
      end
  | Cls c =>
      match s with
      | String a s' => if in_class ci c a then k s' caps else None
      | EmptyString => None
      end
  | Seq r1 r2 => mtch ci r1 s caps (fun s' caps' => mtch ci r2 s' caps' k)
  | Alt r1 r2 =>
      match mtch ci r1 s caps k with
      | Some x => Some x
      | None => mtch ci r2 s caps k
      end
  | Opt r' =>
      match mtch ci r' s caps k with
      | Some x => Some x
      | None => k s caps
      end
  | Rep c min => rep ci c min s (fun s' => k s' caps)
  | Group n r' =>
      mtch ci r' s caps (fun s' caps' => k s' ((n, consumed s s') :: caps'))
  | Eos =>
      match s with
      | EmptyString => k s caps
      | String _ _ => None
      end
  end.
End Matcher.

(** What the matcher looks for, stated without backtracking:
    [Matches ci r s caps rest caps'] says that [r] matches a prefix of [s],
    that [rest] is what follows the prefix, and that the match turns the
    captures [caps] into [caps']. *)
Inductive RepMatches (ci : bool) (c : cclass) : nat -> string -> string -> Prop :=
| RM_stop (s : string) : RepMatches ci c 0 s s
| RM_take (min : nat) (a : ascii) (s rest : string) :
    in_class ci c a = true ->
    RepMatches ci c (Nat.pred min) s rest ->
    RepMatches ci c min (String a s) rest.

Inductive Matches (ci : bool) : regex -> string -> captures -> string -> captures -> Prop :=
| M_Lit (p s rest : string) (caps : captures) :
    lit ci p s = Some rest -> Matches ci (Lit p) s caps rest caps
| M_Cls (c : cclass) (a : ascii) (s : string) (caps : captures) :
    in_class ci c a = true -> Matches ci (Cls c) (String a s) caps s caps
| M_Seq (r1 r2 : regex) (s s1 s2 : string) (caps caps1 caps2 : captures) :
    Matches ci r1 s caps s1 caps1 ->
    Matches ci r2 s1 caps1 s2 caps2 ->
    Matches ci (Seq r1 r2) s caps s2 caps2
| M_AltL (r1 r2 : regex) (s rest : string) (caps caps' : captures) :
    Matches ci r1 s caps rest caps' -> Matches ci (Alt r1 r2) s caps rest caps'
| M_AltR (r1 r2 : regex) (s rest : string) (caps caps' : captures) :
    Matches ci r2 s caps rest caps' -> Matches ci (Alt r1 r2) s caps rest caps'
| M_OptSome (r : regex) (s rest : string) (caps caps' : captures) :
    Matches ci r s caps rest caps' -> Matches ci (Opt r) s caps rest caps'
| M_OptNone (r : regex) (s : string) (caps : captures) :
    Matches ci (Opt r) s caps s caps
| M_Rep (c : cclass) (min : nat) (s rest : string) (caps : captures) :
    RepMatches ci c min s rest -> Matches ci (Rep c min) s caps rest caps
| M_Group (n : nat) (r : regex) (s rest : string) (caps caps' : captures) :
    Matches ci r s caps rest caps' ->
    Matches ci (Group n r) s caps rest ((n, consumed s rest) :: caps')
| M_Eos (caps : captures) :
    Matches ci Eos EmptyString caps EmptyString caps.

(** A successful match: the text before it, the matched text, the text
    after it, and the captured groups. *)
Record MatchResult : Type := mkMatch {
  before : string;
  matched : string;
  after : string;
  groups : captures
}.

Definition match_here (ci : bool) (r : regex) (s : string) : option MatchResult :=
  mtch ci r s [] (fun rest caps => Some (mkMatch EmptyString (consumed s rest) rest caps)).

(** The leftmost match: [RegExp.prototype.exec] from the start of [s]. *)
Fixpoint search (ci : bool) (r : regex) (s : string) : option MatchResult :=
  match match_here ci r s with
  | Some m => Some m
  | None =>
      match s with
      | EmptyString => None
      | String a s' =>
          match search ci r s' with
          | Some m => Some (mkMatch (String a (before m)) (matched m) (after m) (groups m))
          | None => None
          end
      end
  end.

(** The value of capture group [n]. *)
Fixpoint group (n : nat) (caps : captures) : option string :=
  match caps with
  | [] => None
  | (m, v) :: rest => if (m =? n)%nat then Some v else group n rest
  end.

(** All matches, left to right, each search resuming where the previous
    match ended (one character further after an empty match).  Every
    round consumes a character, so [S (length s)] rounds are enough. *)
Fixpoint match_all_from (fuel : nat) (ci : bool) (r : regex) (s : string) : list string :=
  match fuel with
  | O => []
  | S fuel' =>
      match search ci r s with
      | None => []
      | Some m =>
          matched m ::
          match matched m, after m with
          | EmptyString, EmptyString => []
          | EmptyString, String _ rest => match_all_from fuel' ci r rest
          | String _ _, rest => match_all_from fuel' ci r rest
          end
      end
  end.

(** A pattern with its flags. *)
Record RegExp : Type := mkRegExp {
  pattern : regex;
  ignoreCase : bool
}.

(** [s.match(re)] for a [re] with the [g] flag; JavaScript's [null] (no
    match) is the empty list, which is what the callers turn it into. *)
Definition match_g (re : RegExp) (s : string) : list string :=
  match_all_from (S (String.length s)) (ignoreCase re) (pattern re) s.

(** [s.match(re)] for a [re] without the [g] flag. *)
Definition match_first (re : RegExp) (s : string) : option MatchResult :=
  search (ignoreCase re) (pattern re) s.

(** [s.replace(re, '')] for a [re] without the [g] flag. *)
Definition remove_first (re : RegExp) (s : string) : string :=
  match match_first re s with
  | Some m => before m ++ after m
  | None => s
  end.

End Regex.
Import Regex.

(* ================================================================== *)
(** ** JavaScript values and exceptions *)

(** The outcome of a call that may raise a [TypeError]. *)
Inductive Throws (A : Type) : Type :=
| Ok (a : A)
| Throw (message : string).
Arguments Ok {A} a.
Arguments Throw {A} message.

Definition bind {A B : Type} (m : Throws A) (f : A -> Throws B) : Throws B :=
  match m with
  | Ok a => f a
  | Throw msg => Throw msg
  end.

Notation "'let!' x ':=' m 'in' k" := (bind m (fun x => k))
  (at level 10, x name, m at level 100, k at level 200).

(** [l.forEach(x => ...)] with a body that updates a state and may throw. *)
Fixpoint forEachM {A S : Type} (body : S -> A -> Throws S) (l : list A) (s : S) : Throws S :=
  match l with
  | [] => Ok s
  | x :: rest => let! s' := body s x in forEachM body rest s'
  end.

(** A value: what [JSON.parse] yields, and [undefined].  The properties of
    an object are kept in insertion order and have distinct names. *)
Inductive JsVal : Type :=
| JUndefined
| JNull
| JBool (b : bool)
| JNum (text : string)
| JStr (s : string)
| JArr (items : list JsVal)
| JObj (props : list (string * JsVal)).

Module Js.

(** Truthiness ([ToBoolean]). *)
Definition truthy (v : JsVal) : bool :=
  match v with
  | JUndefined | JNull => false
  | JBool b => b
  | JNum text => negb (String.eqb text "0" || String.eqb text "NaN")
  | JStr s => negb (String.eqb s EmptyString)
  | JArr _ | JObj _ => true
  end.

(** [a || b] *)
Definition orElse (a b : JsVal) : JsVal := if truthy a then a else b.

(** [v === 'text'] *)
Definition is_str (v : JsVal) (text : string) : bool :=
  match v with
  | JStr s => String.eqb s text
  | _ => false
  end.

Fixpoint lookup {V : Type} (key : string) (props : list (string * V)) : option V :=
  match props with
  | [] => None
  | (k, v) :: rest => if String.eqb k key then Some v else lookup key rest
  end.

(** [obj[key] = v] on the properties of an object: an existing property
    keeps its place, a new one goes last. *)
Fixpoint assign {V : Type} (key : string) (v : V) (props : list (string * V)) : list (string * V) :=
  match props with
  | [] => [(key, v)]
  | (k, old) :: rest =>
      if String.eqb k key then (k, v) :: rest else (k, old) :: assign key v rest
  end.

(** [v?.key]: the own property, [undefined] when there is none or when [v]
    is [null] or [undefined].  None of the names the program reads is a
    built-in property of strings, numbers, booleans or arrays. *)
Definition optProp (v : JsVal) (key : string) : JsVal :=
  match v with
  | JObj props =>
      match lookup key props with
      | Some x => x
      | None => JUndefined
      end
  | _ => JUndefined
  end.

(** [v.key] and [v[key]]: reading a property of [null] or [undefined]
    raises a TypeError. *)
Definition getProp (v : JsVal) (key : string) : Throws JsVal :=
  match v with
  | JUndefined => Throw "Cannot read properties of undefined"
  | JNull => Throw "Cannot read properties of null"
  | _ => Ok (optProp v key)
  end.

Definition hasOwn (key : string) (props : list (string * JsVal)) : bool :=
  match lookup key props with Some _ => true | None => false end.

(** [ToString].  An array prints its elements separated by commas, with
    [null] and [undefined] printed as nothing; an object prints as
    [[object Object]], unless it has an own property [toString], which
    after [JSON.parse] is never a function: the conversion then raises
    "Cannot convert object to primitive value". *)
Fixpoint toStr (v : JsVal) : Throws string :=
  match v with
  | JUndefined => Ok "undefined"
  | JNull => Ok "null"
  | JBool true => Ok "true"
  | JBool false => Ok "false"
  | JNum text => Ok text
  | JStr s => Ok s
  | JArr items =>
      (fix joinItems (l : list JsVal) : Throws string :=
         match l with
         | [] => Ok EmptyString
         | x :: rest =>
             let! a := match x with
                       | JUndefined | JNull => Ok EmptyString
                       | _ => toStr x
                       end in
             match rest with
             | [] => Ok a
             | _ :: _ => let! b := joinItems rest in Ok (a ++ "," ++ b)%string
             end
         end) items
  | JObj props =>
      if hasOwn "toString" props
      then Throw "Cannot convert object to primitive value"
      else Ok "[object Object]"
  end.

(** [items.join(sep)] *)
Fixpoint joinVals (sep : string) (items : list JsVal) : Throws string :=
  match items with
  | [] => Ok EmptyString
  | x :: rest =>
      let! a := match x with
                | JUndefined | JNull => Ok EmptyString
                | _ => toStr x
                end in
      match rest with
      | [] => Ok a
      | _ :: _ => let! b := joinVals sep rest in Ok (a ++ sep ++ b)%string
      end
  end.

(** [SameValueZero], the equality of [Set] and of [Array.prototype.includes]:
    primitives are compared by value, arrays and objects by identity.  Two
    arrays or objects met at different places of the parsed input are
    different objects, so they are never the same value. *)
Definition sameValueZero (a b : JsVal) : bool :=
  match a, b with
  | JUndefined, JUndefined => true
  | JNull, JNull => true
  | JBool x, JBool y => Bool.eqb x y
  | JNum x, JNum y => String.eqb x y
  | JStr x, JStr y => String.eqb x y
  | _, _ => false
  end.

(** [new Set(l)] as the list of its elements in insertion order: adding an
    element that is already there changes nothing. *)
Definition set_add {A : Type} (eqb : A -> A -> bool) (s : list A) (x : A) : list A :=
  if existsb (eqb x) s then s else s ++ [x].

(** [[...new Set(l)]] *)
Definition uniq {A : Type} (eqb : A -> A -> bool) (l : list A) : list A :=
  fold_left (set_add eqb) l [].

(** [[...v]]: arrays and strings are iterable, nothing else that
    [JSON.parse] yields is. *)
Definition spreadIterable (v : JsVal) : Throws (list JsVal) :=
  match v with
  | JArr items => Ok items
  | JStr s => Ok (map JStr (chars s))
  | _ => Throw "is not iterable"
  end.

End Js.
Import Js.

(* ================================================================== *)
(** ** Constants (utils/constants) *)

Module Constants.

Definition letters : cclass := CUnion (CRange "a" "z") (CRange "A" "Z").
Definition digit : cclass := CRange "0" "9".
Definition alnum : cclass := CUnion letters digit.
Definition phone_sep : cclass := CUnion (COneOf "-.") CSpace.

(** [/[a-zA-Z0-9._%+-]+@[a-zA-Z0-9.-]+\.[a-zA-Z]{2,}/g] *)
Definition EMAIL : RegExp :=
  mkRegExp
    (Cat [ Rep (CUnion alnum (COneOf "._%+-")) 1;
           Lit "@";
           Rep (CUnion alnum (COneOf ".-")) 1;
           Lit ".";
           Rep letters 2 ])
    false.

(** [/(\+?1[-.\s]?)?\(?([0-9]{3})\)?[-.\s]?([0-9]{3})[-.\s]?([0-9]{4})/g] *)
Definition PHONE : RegExp :=
  mkRegExp
    (Cat [ Opt (Group 1 (Cat [Opt (Lit "+"); Lit "1"; Opt (Cls phone_sep)]));
           Opt (Lit "(");
           Group 2 (Times digit 3);
           Opt (Lit ")");
           Opt (Cls phone_sep);
           Group 3 (Times digit 3);
           Opt (Cls phone_sep);
           Group 4 (Times digit 4) ])
    false.

Definition EXCLUDED_CONTENT : list string :=
  [ "pricing"; "price"; "cost"; "fee"; "payment"; "credit card";
    "api key"; "password"; "secret"; "private"; "confidential" ].

Module BUSINESS_TYPE_KEYWORDS.
Definition catalog : list string :=
  [ "marketplace"; "platform"; "directory"; "listing"; "catalog"; "database" ].
Definition specialist : list string :=
  [ "agency"; "consultant"; "expert"; "specialist"; "professional"; "service" ].
Definition ecosystem : list string :=
  [ "suite"; "ecosystem"; "integrated"; "all-in-one"; "complete solution" ].
End BUSINESS_TYPE_KEYWORDS.

End Constants.

(* ================================================================== *)
(** ** Data model (types) *)

Inductive BusinessType : Type := catalog | specialist | ecosystem.

(** [contactInfo]: each key is absent ([None]) or present with a value, which
    may be [undefined]. *)
Record ContactInfo : Type := mkContact {
  email : option JsVal;
  phone : option JsVal;
  address : option JsVal;
  socialMedia : option (list (string * JsVal))
}.

Definition emptyContact : ContactInfo := mkContact None None None None.

(** [{...a, ...b}] on contact records: the keys of [b] win. *)
Definition spreadContact (a b : ContactInfo) : ContactInfo :=
  let pick {T : Type} (x y : option T) := match y with Some _ => y | None => x end in
  mkContact (pick (email a) (email b)) (pick (phone a) (phone b))
            (pick (address a) (address b)) (pick (socialMedia a) (socialMedia b)).

(** [c.key] for a key that holds a value: [undefined] when it is absent. *)
Definition field (x : option JsVal) : JsVal :=
  match x with Some v => v | None => JUndefined end.

(** [ExtractedData]: scalar fields hold a value or [undefined]. *)
Record ExtractedData : Type := mkData {
  companyName : JsVal;
  tagline : JsVal;
  description : JsVal;
  services : list string;
  products : list string;
  contactInfo : ContactInfo;
  mission : JsVal;
  teamInfo : list string;
  apiDocs : JsVal;
  schemaData : option (list JsVal);
  businessType : option BusinessType
}.

(** [Partial<ExtractedData>]: every key may be missing. *)
Module Partial.
Record t : Type := mk {
  companyName : JsVal;
  tagline : JsVal;
  description : JsVal;
  services : option (list string);
  products : option (list string);
  contactInfo : option ContactInfo;
  mission : JsVal;
  teamInfo : option (list string);
  apiDocs : JsVal;
  schemaData : option (list JsVal);
  businessType : option BusinessType
}.

Definition set_companyName (v : JsVal) (p : t) : t :=
  mk v (tagline p) (description p) (services p) (products p) (contactInfo p)
     (mission p) (teamInfo p) (apiDocs p) (schemaData p) (businessType p).
Definition set_tagline (v : JsVal) (p : t) : t :=
  mk (companyName p) v (description p) (services p) (products p) (contactInfo p)
     (mission p) (teamInfo p) (apiDocs p) (schemaData p) (businessType p).
Definition set_description (v : JsVal) (p : t) : t :=
  mk (companyName p) (tagline p) v (services p) (products p) (contactInfo p)
     (mission p) (teamInfo p) (apiDocs p) (schemaData p) (businessType p).
Definition set_services (v : option (list string)) (p : t) : t :=
  mk (companyName p) (tagline p) (description p) v (products p) (contactInfo p)
     (mission p) (teamInfo p) (apiDocs p) (schemaData p) (businessType p).
Definition set_products (v : option (list string)) (p : t) : t :=
  mk (companyName p) (tagline p) (description p) (services p) v (contactInfo p)
     (mission p) (teamInfo p) (apiDocs p) (schemaData p) (businessType p).
Definition set_contactInfo (v : option ContactInfo) (p : t) : t :=
  mk (companyName p) (tagline p) (description p) (services p) (products p) v
     (mission p) (teamInfo p) (apiDocs p) (schemaData p) (businessType p).
Definition set_mission (v : JsVal) (p : t) : t :=
  mk (companyName p) (tagline p) (description p) (services p) (products p) (contactInfo p)
     v (teamInfo p) (apiDocs p) (schemaData p) (businessType p).
Definition set_teamInfo (v : option (list string)) (p : t) : t :=
  mk (companyName p) (tagline p) (description p) (services p) (products p) (contactInfo p)
     (mission p) v (apiDocs p) (schemaData p) (businessType p).
Definition set_apiDocs (v : JsVal) (p : t) : t :=
  mk (companyName p) (tagline p) (description p) (services p) (products p) (contactInfo p)
     (mission p) (teamInfo p) v (schemaData p) (businessType p).
Definition set_schemaData (v : option (list JsVal)) (p : t) : t :=
  mk (companyName p) (tagline p) (description p) (services p) (products p) (contactInfo p)
     (mission p) (teamInfo p) (apiDocs p) v (businessType p).

(** [arr?.push(x)] on an array-valued key. *)
Definition push (arr : option (list string)) (x : string) : option (list string) :=
  match arr with
  | Some l => Some (l ++ [x])
  | None => None
  end.
End Partial.

(** [ScrapedContent], as the extract route validates it. *)
Record ScrapedContent : Type := mkScraped {
  html : string;
  textContent : string;
  metaTags : list (string * string);
  jsonLd : list JsVal;
  finalUrl : string
}.

(* ================================================================== *)
(** ** The extractor (lib/extractor) *)

Module Extractor.
Import Constants.

(** *** Helper functions *)

(** [formatAddress]: the sub-fields that are set, joined by [", "]. *)
Definition formatAddress (address : JsVal) : Throws string :=
  let! streetAddress := getProp address "streetAddress" in
  let! addressLocality := getProp address "addressLocality" in
  let! addressRegion := getProp address "addressRegion" in
  let! postalCode := getProp address "postalCode" in
  let! addressCountry := getProp address "addressCountry" in
  let parts := filter truthy
    [streetAddress; addressLocality; addressRegion; postalCode; addressCountry] in
  joinVals ", " parts.

(** The table of [identifySocialPlatform], in the order of its literal. *)
Definition platforms : list (string * string) :=
  [ ("facebook.com", "facebook");
    ("twitter.com", "twitter");
    ("x.com", "twitter");
    ("linkedin.com", "linkedin");
    ("instagram.com", "instagram");
    ("youtube.com", "youtube");
    ("github.com", "github") ].

(** [url.includes(domain)]: a substring test on a string, a membership
    test on an array, and no such method on anything else. *)
Definition url_includes (url : JsVal) (domain : string) : Throws bool :=
  match url with
  | JStr s => Ok (includes s domain)
  | JArr items => Ok (existsb (sameValueZero (JStr domain)) items)
  | _ => Throw "url.includes is not a function"
  end.

(** The [for ... of Object.entries(platforms)] loop with its early return. *)
Fixpoint firstPlatform (url : JsVal) (entries : list (string * string))
  : Throws (option string) :=
  match entries with
  | [] => Ok None
  | (domain, platform) :: rest =>
      let! hit := url_includes url domain in
      if hit then Ok (Some platform) else firstPlatform url rest
  end.

(** [identifySocialPlatform]; [None] is JavaScript's [null]. *)
Definition identifySocialPlatform (url : JsVal) : Throws (option string) :=
  firstPlatform url platforms.

(** [containsExcludedContent] *)
Definition containsExcludedContent (text : string) : bool :=
  let lowerText := toLowerCase text in
  existsb (fun excluded => includes lowerText excluded) EXCLUDED_CONTENT.

(** [/\s*[-|]\s*.*$/] *)
Definition afterSeparator : RegExp :=
  mkRegExp
    (Cat [Rep CSpace 0; Cls (COneOf "-|"); Rep CSpace 0; Rep CDot 0; Eos])
    false.

(** [/\s+(Inc|LLC|Ltd|Corporation|Corp)\.?$/i] *)
Definition legalSuffix : RegExp :=
  mkRegExp
    (Cat [ Rep CSpace 1;
           Group 1 (Alt (Lit "Inc") (Alt (Lit "LLC") (Alt (Lit "Ltd")
                      (Alt (Lit "Corporation") (Lit "Corp")))));
           Opt (Lit ".");
           Eos ])
    true.

(** [cleanCompanyName] *)
Definition cleanCompanyName (name : string) : string :=
  trim (remove_first legalSuffix (remove_first afterSeparator name)).

(** *** extractFromStructuredData *)

(** The social-media loop over [sameAs]. *)
Definition addSocial (social : list (string * JsVal)) (url : JsVal)
  : Throws (list (string * JsVal)) :=
  let! platform := identifySocialPlatform url in
  match platform with
  | Some name => Ok (assign name url social)
  | None => Ok social
  end.

(** The body of [if (type === 'Organization' || ...)]. *)
Definition extractOrganization (jsonLd : JsVal) (extracted : Partial.t)
  : Throws Partial.t :=
  (* company information *)
  let! name := getProp jsonLd "name" in
  let extracted := Partial.set_companyName (orElse name (Partial.companyName extracted)) extracted in
  let! descr := getProp jsonLd "description" in
  let extracted := Partial.set_description (orElse descr (Partial.description extracted)) extracted in
  let! slogan := getProp jsonLd "slogan" in
  let extracted := Partial.set_tagline (orElse slogan (Partial.tagline extracted)) extracted in
  (* contact information *)
  let! contactPoint := getProp jsonLd "contactPoint" in
  let! extracted :=
    if truthy contactPoint then
      let contact := match contactPoint with
                     | JArr items => nth 0 items JUndefined
                     | _ => contactPoint
                     end in
      let old := match Partial.contactInfo extracted with
                 | Some c => c
                 | None => emptyContact
                 end in
      let! contactEmail := getProp contact "email" in
      let! contactTelephone := getProp contact "telephone" in
      Ok (Partial.set_contactInfo
            (Some (mkContact (Some (orElse contactEmail (field (email old))))
                             (Some (orElse contactTelephone (field (phone old))))
                             (address old) (socialMedia old)))
            extracted)
    else Ok extracted in
  (* address *)
  let! addr := getProp jsonLd "address" in
  let! extracted :=
    if truthy addr then
      let old := match Partial.contactInfo extracted with
                 | Some c => c
                 | None => emptyContact
                 end in
      let! formatted := formatAddress addr in
      Ok (Partial.set_contactInfo
            (Some (mkContact (email old) (phone old) (Some (JStr formatted)) (socialMedia old)))
            extracted)
    else Ok extracted in
  (* social media links *)
  let! sameAs := getProp jsonLd "sameAs" in
  match sameAs with
  | JArr urls =>
      match Partial.contactInfo extracted with
      | None => Throw "Cannot set properties of undefined"
      | Some c =>
          let! social := forEachM addSocial urls [] in
          Ok (Partial.set_contactInfo
                (Some (mkContact (email c) (phone c) (address c) (Some social)))
                extracted)
      end
  | _ => Ok extracted
  end.

(** The loop body over [makesOffer]: [product?.name] must be set and
    clean.  [containsExcludedContent] calls [toLowerCase] on its argument,
    a method that only strings have. *)
Definition addProduct (extracted : Partial.t) (product : JsVal) : Throws Partial.t :=
  let name := optProp product "name" in
  if truthy name then
    match name with
    | JStr s =>
        if containsExcludedContent s then Ok extracted
        else Ok (Partial.set_products (Partial.push (Partial.products extracted) s) extracted)
    | _ => Throw "text.toLowerCase is not a function"
    end
  else Ok extracted.

(** The loop body over [hasOfferCatalog.itemListElement]. *)
Definition addService (extracted : Partial.t) (service : JsVal) : Throws Partial.t :=
  let name := optProp service "name" in
  if truthy name then
    match name with
    | JStr s =>
        if containsExcludedContent s then Ok extracted
        else Ok (Partial.set_services (Partial.push (Partial.services extracted) s) extracted)
    | _ => Throw "text.toLowerCase is not a function"
    end
  else Ok extracted.

(** The loop body over the employees and founders. *)
Definition addPerson (extracted : Partial.t) (person : JsVal) : Throws Partial.t :=
  let name := optProp person "name" in
  if truthy name then
    let role := orElse (orElse (optProp person "jobTitle") (optProp person "role"))
                       (JStr "Team Member") in
    match Partial.teamInfo extracted with
    | None => Ok extracted
    | Some members =>
        let! nameText := toStr name in
        let! roleText := toStr role in
        Ok (Partial.set_teamInfo (Some (members ++ [(nameText ++ " - " ++ roleText)%string])) extracted)
    end
  else Ok extracted.

(** The body of [jsonLdArray.forEach(jsonLd => ...)]. *)
Definition extractRecord (extracted : Partial.t) (jsonLd : JsVal) : Throws Partial.t :=
  let! type := getProp jsonLd "@type" in
  let! extracted :=
    if is_str type "Organization" || is_str type "Corporation" || is_str type "LocalBusiness"
    then extractOrganization jsonLd extracted
    else Ok extracted in
  (* products and services *)
  let! makesOffer := getProp jsonLd "makesOffer" in
  let! extracted :=
    if is_str type "Product" || truthy makesOffer then
      let offers := match makesOffer with
                    | JArr items => items
                    | _ => [makesOffer]
                    end in
      forEachM addProduct offers extracted
    else Ok extracted in
  let! hasOfferCatalog := getProp jsonLd "hasOfferCatalog" in
  let! extracted :=
    if is_str type "Service" || truthy hasOfferCatalog then
      let offered := orElse (optProp hasOfferCatalog "itemListElement") (JArr []) in
      match offered with
      | JArr items => forEachM addService items extracted
      | _ => Throw "services.forEach is not a function"
      end
    else Ok extracted in
  (* team information *)
  let! employee := getProp jsonLd "employee" in
  let! founder := getProp jsonLd "founder" in
  if truthy employee || truthy founder then
    let! employees := spreadIterable (orElse employee (JArr [])) in
    let! founders := spreadIterable (orElse founder (JArr [])) in
    forEachM addPerson (employees ++ founders) extracted
  else Ok extracted.

Definition emptyStructured : Partial.t :=
  Partial.mk JUndefined JUndefined JUndefined (Some []) (Some []) (Some emptyContact)
             JUndefined (Some []) JUndefined None None.

Definition extractFromStructuredData (jsonLdArray : list JsVal) : Throws Partial.t :=
  let! extracted := forEachM extractRecord jsonLdArray emptyStructured in
  (* the raw schema data, for reference *)
  Ok (Partial.set_schemaData (Some jsonLdArray) extracted).

(** *** extractFromMetaTags *)

(** [metaTags[key]] when it is set and not empty. *)
Definition tag (metaTags : list (string * string)) (key : string) : option string :=
  match lookup key metaTags with
  | Some v => if String.eqb v EmptyString then None else Some v
  | None => None
  end.

(** The [for (const key of keys) { if (metaTags[key]) { ...; break } }] loop:
    the value of the first key that is set. *)
Fixpoint firstTag (metaTags : list (string * string)) (keys : list string) : option string :=
  match keys with
  | [] => None
  | key :: rest =>
      match tag metaTags key with
      | Some v => Some v
      | None => firstTag metaTags rest
      end
  end.

Definition descriptionKeys : list string :=
  ["description"; "og:description"; "twitter:description"].
Definition titleKeys : list string :=
  ["og:site_name"; "application-name"; "title"; "og:title"].

Definition emptyMeta : Partial.t :=
  Partial.mk JUndefined JUndefined JUndefined (Some []) (Some []) (Some emptyContact)
             JUndefined None JUndefined None None.

Definition extractFromMetaTags (metaTags : list (string * string)) : Partial.t :=
  let extracted := emptyMeta in
  let extracted :=
    match firstTag metaTags descriptionKeys with
    | Some v => Partial.set_description (JStr v) extracted
    | None => extracted
    end in
  let extracted :=
    match firstTag metaTags titleKeys with
    | Some v => Partial.set_companyName (JStr (cleanCompanyName v)) extracted
    | None => extracted
    end in
  match tag metaTags "twitter:title" with
  | Some title =>
      if is_str (Partial.companyName extracted) title then extracted
      else Partial.set_tagline (JStr title) extracted
  | None => extracted
  end.

(** *** extractFromContent *)

Definition dquote : string := String (ascii_of_nat 34) EmptyString.

Definition afterTrigger : regex :=
  Cat [ Rep (CUnion (COneOf ":") CSpace) 1;
        Group 1 (Cat [Rep (CNot (COneOf ".")) 1; Lit "."]) ].

(** [/(?:services|what we do|our solutions)[:\s]+([^.]+\.)/i] *)
Definition servicesSection : RegExp :=
  mkRegExp
    (Seq (Alt (Lit "services") (Alt (Lit "what we do") (Lit "our solutions")))
         afterTrigger)
    true.

(** [/(?:our mission|mission statement)[:\s]+([^.]+\.)/i] *)
Definition missionSection : RegExp :=
  mkRegExp
    (Seq (Alt (Lit "our mission") (Lit "mission statement")) afterTrigger)
    true.

(** The pattern of the API-link test, with the flags [g] and [i]: [href=],
    a double quote, group 1 (characters other than a double quote, then
    one of [api|developer|docs], then characters other than a double
    quote), a double quote, characters other than [>], a [>], group 2 (one
    or more characters other than [<]), and a [<]. *)
Definition apiLink : RegExp :=
  mkRegExp
    (Cat [ Lit ("href=" ++ dquote);
           Group 1 (Cat [ Rep (CNot (COneOf dquote)) 0;
                          Alt (Lit "api") (Alt (Lit "developer") (Lit "docs"));
                          Rep (CNot (COneOf dquote)) 0 ]);
           Lit dquote;
           Rep (CNot (COneOf ">")) 0;
           Lit ">";
           Group 2 (Rep (CNot (COneOf "<")) 1);
           Lit "<" ])
    true.

(** [m[n]] for a group that takes part in every match of its pattern. *)
Definition capture (n : nat) (m : MatchResult) : string :=
  match group n (groups m) with
  | Some text => text
  | None => EmptyString
  end.

(** The filter that keeps general contact addresses. *)
Definition isContactEmail (email : string) : bool :=
  negb (includes email "@gmail.") &&
  negb (includes email "@yahoo.") &&
  negb (includes email "@hotmail.") &&
  (includes email "contact" || includes email "info"
   || includes email "support" || includes email "sales").

Definition emptyContent : Partial.t :=
  Partial.mk JUndefined JUndefined JUndefined (Some []) (Some []) (Some emptyContact)
             JUndefined (Some []) JUndefined None None.

(** [extracted.contactInfo!.key = v] *)
Definition setContact (update : ContactInfo -> ContactInfo) (extracted : Partial.t) : Partial.t :=
  match Partial.contactInfo extracted with
  | Some c => Partial.set_contactInfo (Some (update c)) extracted
  | None => extracted
  end.

Definition extractFromContent (textContent html : string) : Partial.t :=
  let extracted := emptyContent in
  (* email addresses *)
  let emails := match_g EMAIL textContent in
  let contactEmails := filter isContactEmail emails in
  let extracted :=
    match contactEmails with
    | first :: _ =>
        setContact (fun c => mkContact (Some (JStr first)) (phone c) (address c) (socialMedia c))
                   extracted
    | [] => extracted
    end in
  (* phone numbers *)
  let phones := match_g PHONE textContent in
  let extracted :=
    match phones with
    | first :: _ =>
        setContact (fun c => mkContact (email c) (Some (JStr first)) (address c) (socialMedia c))
                   extracted
    | [] => extracted
    end in
  (* services section *)
  let extracted :=
    match match_first servicesSection textContent with
    | Some servicesMatch =>
        let servicesList :=
          map trim (split_on (fun a => Ascii.eqb a "," || Ascii.eqb a ";")
                             (capture 1 servicesMatch)) in
        Partial.set_services
          (Some (filter (fun s => negb (containsExcludedContent s)) servicesList))
          extracted
    | None => extracted
    end in
  (* mission statement *)
  let extracted :=
    match match_first missionSection textContent with
    | Some missionMatch => Partial.set_mission (JStr (trim (capture 1 missionMatch))) extracted
    | None => extracted
    end in
  (* API documentation links *)
  match match_g apiLink html with
  | _ :: _ => Partial.set_apiDocs (JStr "API documentation available") extracted
  | [] => extracted
  end.

(** *** mergeExtractedData *)

(** The name of the array index [i], as a property key. *)
Definition indexKey (i : nat) : string := NilEmpty.string_of_uint (Nat.to_uint i).

Fixpoint indexed (i : nat) (items : list JsVal) : list (string * JsVal) :=
  match items with
  | [] => []
  | x :: rest => (indexKey i, x) :: indexed (S i) rest
  end.

(** The own enumerable properties that [{...v}] copies. *)
Definition ownProps (v : JsVal) : list (string * JsVal) :=
  match v with
  | JObj props => props
  | JArr items => indexed 0 items
  | JStr s => indexed 0 (map JStr (chars s))
  | _ => []
  end.

(** [{...a, ...b}] for an object [b] *)
Definition spread (a : JsVal) (b : list (string * JsVal)) : list (string * JsVal) :=
  fold_left (fun acc kv => assign (fst kv) (snd kv) acc) b (ownProps a).

(** One step of the inner loop for a key that holds an untyped value:
    [existing] is [merged[key]], [value] is the source's entry. *)
Definition mergeValue (existing value : JsVal) : JsVal :=
  match value with
  | JUndefined | JNull => existing
  | JArr added =>
      match existing with
      | JArr present => JArr (uniq sameValueZero (present ++ added))
      | _ => value
      end
  | JObj props => JObj (spread existing props)
  | _ => value
  end.

(** The same step for the keys that [merged] initialises to an array. *)
Definition mergeArray (existing : list string) (value : option (list string)) : list string :=
  match value with
  | Some added => uniq String.eqb (existing ++ added)
  | None => existing
  end.

(** The same step for [schemaData], an array that [merged] does not
    initialise: the first one is assigned, later ones are merged in. *)
Definition mergeSchema (existing value : option (list JsVal)) : option (list JsVal) :=
  match value with
  | Some added =>
      match existing with
      | Some present => Some (uniq sameValueZero (present ++ added))
      | None => value
      end
  | None => existing
  end.

(** The same step for [contactInfo], an object. *)
Definition mergeContact (existing : ContactInfo) (value : option ContactInfo) : ContactInfo :=
  match value with
  | Some c => spreadContact existing c
  | None => existing
  end.

(** The same step for [businessType], a primitive. *)
Definition mergePrimitive {T : Type} (existing value : option T) : option T :=
  match value with
  | Some _ => value
  | None => existing
  end.

(** The body of [dataSources.forEach(source => ...)]: every entry of the
    source is merged into the key of the same name. *)
Definition mergeSource (merged : ExtractedData) (source : Partial.t) : ExtractedData :=
  mkData
    (mergeValue (companyName merged) (Partial.companyName source))
    (mergeValue (tagline merged) (Partial.tagline source))
    (mergeValue (description merged) (Partial.description source))
    (mergeArray (services merged) (Partial.services source))
    (mergeArray (products merged) (Partial.products source))
    (mergeContact (contactInfo merged) (Partial.contactInfo source))
    (mergeValue (mission merged) (Partial.mission source))
    (mergeArray (teamInfo merged) (Partial.teamInfo source))
    (mergeValue (apiDocs merged) (Partial.apiDocs source))
    (mergeSchema (schemaData merged) (Partial.schemaData source))
    (mergePrimitive (businessType merged) (Partial.businessType source)).

Definition emptyMerged : ExtractedData :=
  mkData JUndefined JUndefined JUndefined [] [] emptyContact JUndefined [] JUndefined None None.

Definition mergeExtractedData (dataSources : list Partial.t) : ExtractedData :=
  fold_left mergeSource dataSources emptyMerged.

(** *** classifyBusinessType *)

(** [keywords.forEach(keyword => { if (allText.includes(keyword)) score++ })] *)
Definition keywordScore (allText : string) (keywords : list string) : nat :=
  fold_left (fun score keyword => if includes allText keyword then S score else score)
            keywords 0%nat.

(** The text that is scored: name, description, tagline, services and
    products, joined by spaces and put in lower case. *)
Definition allTextOf (data : ExtractedData) : Throws string :=
  let! joined := joinVals " "
    ([companyName data; description data; tagline data]
       ++ map JStr (services data) ++ map JStr (products data)) in
  Ok (toLowerCase joined).

(** The final comparison of the three scores. *)
Definition highestScore (catalogScore specialistScore ecosystemScore : nat) : BusinessType :=
  if (specialistScore <=? catalogScore)%nat && (ecosystemScore <=? catalogScore)%nat
  then catalog
  else if (specialistScore <=? ecosystemScore)%nat then ecosystem
  else specialist.

Definition classifyText (allText : string) : BusinessType :=
  let catalogScore := keywordScore allText BUSINESS_TYPE_KEYWORDS.catalog in
  let specialistScore := keywordScore allText BUSINESS_TYPE_KEYWORDS.specialist in
  let ecosystemScore := keywordScore allText BUSINESS_TYPE_KEYWORDS.ecosystem in
  highestScore catalogScore specialistScore ecosystemScore.

Definition classifyBusinessType (data : ExtractedData) : Throws BusinessType :=
  let! allText := allTextOf data in
  Ok (classifyText allText).

(** *** cleanExtractedData *)

(** [.filter(Boolean)] on strings *)
Definition nonEmpty (s : string) : bool := negb (String.eqb s EmptyString).

Definition cleanExtractedData (data : ExtractedData) : ExtractedData :=
  (* duplicates and empty entries *)
  let services1 := filter nonEmpty (uniq String.eqb (services data)) in
  let products1 := filter nonEmpty (uniq String.eqb (products data)) in
  (* excluded content *)
  let services2 := filter (fun s => negb (containsExcludedContent s)) services1 in
  let products2 := filter (fun p => negb (containsExcludedContent p)) products1 in
  (* team info *)
  let teamInfo1 := filter nonEmpty (uniq String.eqb (teamInfo data)) in
  (* basic information *)
  let companyName1 :=
    if truthy (companyName data) then companyName data else JStr "Company Name" in
  let description1 :=
    if truthy (description data) then description data else JStr "No description available." in
  mkData companyName1 (tagline data) description1 services2 products2 (contactInfo data)
         (mission data) teamInfo1 (apiDocs data) (schemaData data) (businessType data).

(** *** extractData *)

Definition set_businessType (b : BusinessType) (data : ExtractedData) : ExtractedData :=
  mkData (companyName data) (tagline data) (description data) (services data) (products data)
         (contactInfo data) (mission data) (teamInfo data) (apiDocs data) (schemaData data)
         (Some b).

Definition extractData (scrapedContent : ScrapedContent) : Throws ExtractedData :=
  let! structuredData := extractFromStructuredData (jsonLd scrapedContent) in
  let metaData := extractFromMetaTags (metaTags scrapedContent) in
  let contentData := extractFromContent (textContent scrapedContent) (html scrapedContent) in
  let mergedData := mergeExtractedData [structuredData; metaData; contentData] in
  let! type := classifyBusinessType mergedData in
  Ok (cleanExtractedData (set_businessType type mergedData)).

End Extractor.

(* ================================================================== *)
(** ** The quality score (app/api/extract/route) *)

Module ExtractRoute.

(** [calculateQualityScore]: [score] is threaded through the statements
    in their order. *)
Definition calculateQualityScore (data : ExtractedData) : Z :=
  let score := 0%Z in
  let maxScore := 100%Z in
  (* company identification *)
  let score :=
    if truthy (companyName data) && negb (is_str (companyName data) "Company Name")
    then (score + 10)%Z else score in
  let score :=
    if truthy (description data) && negb (is_str (description data) "No description available.")
    then (score + 10)%Z else score in
  (* services and products *)
  let score :=
    if (0 <? length (services data))%nat
    then (score + Z.min 10 (Z.of_nat (length (services data)) * 2))%Z else score in
  let score :=
    if (0 <? length (products data))%nat
    then (score + Z.min 10 (Z.of_nat (length (products data)) * 2))%Z else score in
  (* contact information *)
  let score := if truthy (field (email (contactInfo data))) then (score + 10)%Z else score in
  let score := if truthy (field (phone (contactInfo data))) then (score + 5)%Z else score in
  let score := if truthy (field (address (contactInfo data))) then (score + 5)%Z else score in
  (* additional information *)
  let score := if truthy (mission data) then (score + 5)%Z else score in
  let score := if (0 <? length (teamInfo data))%nat then (score + 5)%Z else score in
  let score := if truthy (apiDocs data) then (score + 5)%Z else score in
  let score :=
    match socialMedia (contactInfo data) with
    | Some entries => if (0 <? length entries)%nat then (score + 5)%Z else score
    | None => score
    end in
  (* schema data bonus *)
  let score :=
    match schemaData data with
    | Some records => if (0 <? length records)%nat then (score + 20)%Z else score
    | None => score
    end in
  Z.min score maxScore.

End ExtractRoute.

(* ================================================================== *)
(** ** The admission gate (app/api/generate/route) *)

Module GenerateRoute.

(** The validated request body; [qualityScore] is an optional number. *)
Record GenerateRequest : Type := mkRequest {
  extractedData : ExtractedData;
  sourceUrl : string;
  qualityScore : option Q
}.

(** The outcome of the external generation step: the generated content,
    or an [Error] with its message. *)
Inductive Generation : Type :=
| Generated (content : string)
| Failed (message : string).

(** What a run of the handler does: the calls it made to the generation
    step, and the status and [success] flag of its response. *)
Record Outcome : Type := mkOutcome {
  generatorCalls : list (ExtractedData * string);
  status : Z;
  success : bool
}.

Section Handler.
(** [process.env.ANTHROPIC_API_KEY] is set. *)
Variable apiKeyConfigured : bool.
(** The two functions of the generator module that the handler calls. *)
Variable generateLLMSText : ExtractedData -> string -> Generation.
Variable validateGeneratedContent : string -> bool.

(** [qualityScore && qualityScore < 20] *)
Definition tooSparse (qualityScore : option Q) : bool :=
  match qualityScore with
  | Some q => negb (Qeq_bool q 0) && negb (Qle_bool 20 q)
  | None => false
  end.

(** The status chosen by the [catch] block for an [Error]. *)
Definition errorStatus (message : string) : Z :=
  if includes message "API key" then 401%Z
  else if includes message "rate limit" then 429%Z
  else if includes message "timeout" then 504%Z
  else if includes message "exceeds maximum file size" then 413%Z
  else 500%Z.

Definition POST (request : GenerateRequest) : Outcome :=
  if tooSparse (qualityScore request) then mkOutcome [] 400 false
  else if negb apiKeyConfigured then mkOutcome [] 500 false
  else
    let call := (extractedData request, sourceUrl request) in
    match generateLLMSText (extractedData request) (sourceUrl request) with
    | Failed message => mkOutcome [call] (errorStatus message) false
    | Generated content =>
        if validateGeneratedContent content
        then mkOutcome [call] 200 true
        else mkOutcome [call] 500 false
    end.
End Handler.

End GenerateRoute.

(* ================================================================== *)
(** ** Definitions used to state the properties *)

Module Props.
Import Constants Extractor ExtractRoute.

(** A string passes the denylist when it contains none of the excluded
    terms, whatever the case of its letters. *)
Definition passesDenylist (s : string) : Prop :=
  forall term, In term EXCLUDED_CONTENT -> includes (toLowerCase s) term = false.

(** Stable deduplication in the words of the specification: going through
    the list, a value is kept the first time it is seen and dropped every
    later time. *)
Fixpoint keepFirst (seen l : list string) : list string :=
  match l with
  | [] => []
  | x :: rest =>
      if existsb (String.eqb x) seen then keepFirst seen rest
      else x :: keepFirst (x :: seen) rest
  end.

Definition stableDedup (l : list string) : list string := keepFirst [] l.

(** [result] is [l] without duplicates, in first-seen order: it is the
    stable deduplication of [l], it has no duplicates, it holds the values
    of [l], and a value stands right behind the deduplicated part of [l]
    that precedes its first occurrence. *)
Definition firstSeenOrder (l result : list string) : Prop :=
  result = stableDedup l
  /\ NoDup result
  /\ (forall x, In x result <-> In x l)
  /\ (forall pre x post,
         l = pre ++ x :: post -> ~ In x pre ->
         exists tail, result = stableDedup pre ++ x :: tail).

(** The array a source contributes for a key: nothing when the key is
    missing. *)
Definition contributed (value : option (list string)) : list string :=
  match value with
  | Some l => l
  | None => []
  end.

(** The number of keywords of an archetype that occur in the text, each
    counted once. *)
Definition matchCount (allText : string) (keywords : list string) : nat :=
  length (filter (fun keyword => includes allText keyword) keywords).

Definition keywordsOf (type : BusinessType) : list string :=
  match type with
  | catalog => BUSINESS_TYPE_KEYWORDS.catalog
  | specialist => BUSINESS_TYPE_KEYWORDS.specialist
  | ecosystem => BUSINESS_TYPE_KEYWORDS.ecosystem
  end.

Definition countOf (allText : string) (type : BusinessType) : nat :=
  matchCount allText (keywordsOf type).

(** The tie-break order: catalog before ecosystem before specialist. *)
Definition rank (type : BusinessType) : nat :=
  match type with
  | catalog => 0
  | ecosystem => 1
  | specialist => 2
  end.

(** An archetype leads outright when its count is strictly above the
    counts of both others. *)
Definition leadsOutright (allText : string) (type : BusinessType) : Prop :=
  forall other, other <> type -> (countOf allText other < countOf allText type)%nat.

(** A scalar field that is unset or holds a string. *)
Definition textual (v : JsVal) : Prop :=
  match v with
  | JUndefined | JStr _ => True
  | _ => False
  end.

(** The part of an address in front of its first [@]. *)
Fixpoint localPart (address : string) : string :=
  match address with
  | EmptyString => EmptyString
  | String a rest => if Ascii.eqb a "@" then EmptyString else String a (localPart rest)
  end.

Definition mentionsContactWord (s : string) : bool :=
  includes s "contact" || includes s "info" || includes s "support" || includes s "sales".

(** The host of a URL: what stands between [://] and the next [/]. *)
Fixpoint upTo (stop : ascii) (s : string) : string :=
  match s with
  | EmptyString => EmptyString
  | String a rest => if Ascii.eqb a stop then EmptyString else String a (upTo stop rest)
  end.

Fixpoint afterScheme (s : string) : string :=
  match s with
  | EmptyString => EmptyString
  | String _ rest => if starts_with "://" s then substring 3 (String.length s) s else afterScheme rest
  end.

Definition hostOf (url : string) : string := upTo "/" (afterScheme url).

(** The contributions to the quality score, as the specification lists
    them. *)
Definition worth (present : bool) (n : Z) : Z := if present then n else 0%Z.

Definition resolved (v : JsVal) (placeholder : string) : bool :=
  truthy v && negb (is_str v placeholder).

Definition contributedSocial (data : ExtractedData) : list (string * JsVal) :=
  match socialMedia (contactInfo data) with Some entries => entries | None => [] end.

Definition contributedSchema (data : ExtractedData) : list JsVal :=
  match schemaData data with Some records => records | None => [] end.

Definition contributions (data : ExtractedData) : list Z :=
  [ worth (resolved (companyName data) "Company Name") 10;
    worth (resolved (description data) "No description available.") 10;
    Z.min 10 (2 * Z.of_nat (length (services data)));
    Z.min 10 (2 * Z.of_nat (length (products data)));
    worth (truthy (field (email (contactInfo data)))) 10;
    worth (truthy (field (phone (contactInfo data)))) 5;
    worth (truthy (field (address (contactInfo data)))) 5;
    worth (truthy (mission data)) 5;
    worth (negb (Nat.eqb (length (teamInfo data)) 0)) 5;
    worth (truthy (apiDocs data)) 5;
    worth (negb (Nat.eqb (length (contributedSocial data)) 0)) 5;
    worth (negb (Nat.eqb (length (contributedSchema data)) 0)) 20 ]%Z.

Definition cappedSum (data : ExtractedData) : Z :=
  Z.min 100 (fold_right Z.add 0%Z (contributions data)).

(** The profile with one more service at the end. *)
Definition withExtraService (s : string) (data : ExtractedData) : ExtractedData :=
  mkData (companyName data) (tagline data) (description data) (services data ++ [s])
         (products data) (contactInfo data) (mission data) (teamInfo data) (apiDocs data)
         (schemaData data) (businessType data).

Definition withCompanyName (v : JsVal) (data : ExtractedData) : ExtractedData :=
  mkData v (tagline data) (description data) (services data)
         (products data) (contactInfo data) (mission data) (teamInfo data) (apiDocs data)
         (schemaData data) (businessType data).

Definition withDescription (v : JsVal) (data : ExtractedData) : ExtractedData :=
  mkData (companyName data) (tagline data) v (services data)
         (products data) (contactInfo data) (mission data) (teamInfo data) (apiDocs data)
         (schemaData data) (businessType data).

End Props.

(* ================================================================== *)
(** ** Concrete inputs *)

Module Examples.
Import Extractor GenerateRoute.

(** The organisation record and the page of the specification's example. *)
Definition acmeRecord : JsVal :=
  JObj [ ("@type", JStr "Organization");
         ("name", JStr "Acme Corp - Official");
         ("sameAs", JArr [JStr "https://facebook.com/acme"]) ].

Definition acmePage : ScrapedContent :=
  mkScraped EmptyString EmptyString [("og:site_name", "Acme")] [acmeRecord]
            "https://acme.example/".

(** Partially shaped records. *)
Definition emptyContactPoint : JsVal :=
  JObj [ ("@type", JStr "Organization"); ("name", JStr "Acme"); ("contactPoint", JArr []) ].

Definition singleEmployee : JsVal :=
  JObj [ ("@type", JStr "Organization");
         ("employee", JObj [("name", JStr "Ann"); ("jobTitle", JStr "CEO")]) ].

Definition singleFounder : JsVal :=
  JObj [ ("founder", JObj [("name", JStr "Ann")]) ].

Definition catalogWithoutList : JsVal :=
  JObj [ ("@type", JStr "Service");
         ("hasOfferCatalog",
          JObj [("itemListElement", JObj [("name", JStr "Consulting")])]) ].

Definition wellFormed : JsVal :=
  JObj [ ("@type", JStr "Organization"); ("name", JStr "Later Ltd") ].

(** A profile whose services hold an excluded entry. *)
Definition unfiltered : ExtractedData :=
  mkData (JStr "Acme") JUndefined JUndefined ["Consulting"; "Pricing Plans"; "Support"] []
         emptyContact JUndefined [] JUndefined None None.

(** A page whose visible text lists services and names a contact address. *)
Definition servicesPage : ScrapedContent :=
  mkScraped EmptyString
            "Our services: Consulting, Pricing Plans; Support and Training. Write to bob@infosys.com"
            [("description", "We help teams ship.")]
            []
            "https://example.org/".

(** A page from which nothing can be extracted. *)
Definition blankPage : ScrapedContent :=
  mkScraped EmptyString EmptyString [] [] "https://example.org/".

(** A generation request that carries the lowest possible score. *)
Definition zeroScoreRequest : GenerateRequest :=
  mkRequest emptyMerged "https://example.org/" (Some 0%Q).

Definition lowScoreRequest : GenerateRequest :=
  mkRequest emptyMerged "https://example.org/" (Some 15%Q).

(** A URL of a site that is not a social platform. *)
Definition streamingUrl : string := "https://netflix.com/browse".

End Examples.

(* ================================================================== *)
(** ** Request bodies of the route handlers *)

(** What [await request.json()] followed by the [parse] of the route's
    schema comes to: the validated value, a [ZodError], or the [Error] that
    [request.json()] raises for a body that is no JSON, with its message.
    Both steps stand inside the [try] block of the handler. *)
Inductive Body (A : Type) : Type :=
| Parsed (value : A)
| Invalid
| Malformed (message : string).
Arguments Parsed {A} value.
Arguments Invalid {A}.
Arguments Malformed {A} message.

(* ================================================================== *)
(** ** The extract route handler (app/api/extract/route) *)

Module ExtractHandler.
Import Extractor ExtractRoute.

(** The quality issues the handler collects, in the order of its tests. *)
Definition qualityIssues (extractedData : ExtractedData) : list string :=
  let issues := [] in
  let issues :=
    if negb (truthy (companyName extractedData))
       || is_str (companyName extractedData) "Company Name"
    then issues ++ ["Could not determine company name"] else issues in
  let issues :=
    if negb (truthy (description extractedData))
       || is_str (description extractedData) "No description available."
    then issues ++ ["No company description found"] else issues in
  let issues :=
    if (length (services extractedData) =? 0)%nat && (length (products extractedData) =? 0)%nat
    then issues ++ ["No services or products identified"] else issues in
  let issues :=
    if negb (truthy (field (email (contactInfo extractedData))))
       && negb (truthy (field (phone (contactInfo extractedData))))
    then issues ++ ["No contact information found"] else issues in
  issues.

(** The template literal that the handler logs once the extraction is
    done.  Two of its interpolations convert a value of the profile to a
    string, the company name and the contact email, each with the fallback
    [Not found]; the conversion throws for some objects.  The other
    interpolations print the business type, a string, and lengths. *)
Definition logged (extractedData : ExtractedData) : Throws (string * string) :=
  let! name := toStr (orElse (companyName extractedData) (JStr "Not found")) in
  let! contactEmail :=
    toStr (orElse (field (email (contactInfo extractedData))) (JStr "Not found")) in
  Ok (name, contactEmail).

(** What the handler answers: the status, the [success] flag, the profile
    with its [qualityScore], and the two headers. *)
Record Response : Type := mkResponse {
  responseStatus : Z;
  responseSuccess : bool;
  responseData : option ExtractedData;
  responseScore : option Z;
  scoreHeader : option Z;
  issuesHeader : option (list string)
}.

(** An answer of the [catch] block. *)
Definition failure (status : Z) : Response :=
  mkResponse status false None None None None.

(** [POST]: a [ZodError] is answered with 400, every other error thrown in
    the [try] block with 500, whatever its message; a profile is answered
    with its score. *)
Definition POST (body : Body ScrapedContent) : Response :=
  match body with
  | Invalid => failure 400
  | Malformed _ => failure 500
  | Parsed scrapedContent =>
      match extractData scrapedContent with
      | Throw _ => failure 500
      | Ok extractedData =>
          match logged extractedData with
          | Throw _ => failure 500
          | Ok _ =>
              let issues := qualityIssues extractedData in
              let qualityScore := calculateQualityScore extractedData in
              mkResponse 200 true (Some extractedData) (Some qualityScore)
                         (Some qualityScore)
                         (if (0 <? length issues)%nat then Some issues else None)
          end
      end
  end.

End ExtractHandler.

(* ================================================================== *)
(** ** Cleaning of generated text (lib/templates) *)

Module Templates.

Definition newline : string := String (ascii_of_nat 10) EmptyString.

(** [\w] *)
Definition word : cclass :=
  CUnion (CRange "a" "z") (CUnion (CRange "A" "Z") (CUnion (CRange "0" "9") (COneOf "_"))).

(** [s.replace(re, replacement)] for a [re] with the [g] flag and a
    replacement without [$]: every match, found as [match_g] finds them, is
    replaced. *)
Fixpoint replace_all_from (fuel : nat) (ci : bool) (r : regex) (replacement s : string)
  : string :=
  match fuel with
  | O => s
  | S fuel' =>
      match search ci r s with
      | None => s
      | Some m =>
          before m ++ replacement ++
          match matched m, after m with
          | EmptyString, EmptyString => EmptyString
          | EmptyString, String a rest =>
              String a (replace_all_from fuel' ci r replacement rest)
          | String _ _, rest => replace_all_from fuel' ci r replacement rest
          end
      end
  end.

Definition replace_g (re : RegExp) (replacement s : string) : string :=
  replace_all_from (S (String.length s)) (ignoreCase re) (pattern re) replacement s.

(** Three or more line feeds in a row. *)
Definition blankLines : RegExp :=
  mkRegExp (Seq (Lit (newline ++ newline)) (Rep (COneOf newline) 1)) false.

(** A heading followed, after an empty line, by the next heading. *)
Definition emptySection : RegExp :=
  mkRegExp (Cat [Lit "## "; Rep word 1; Lit (newline ++ newline ++ "## ")]) false.

(** [lines.join(sep)] *)
Fixpoint joinLines (sep : string) (lines : list string) : string :=
  match lines with
  | [] => EmptyString
  | [line] => line
  | line :: rest => line ++ sep ++ joinLines sep rest
  end.

(** [cleanTemplate] *)
Definition cleanTemplate (content : string) : string :=
  let lines := split_on (fun a => Ascii.eqb a (ascii_of_nat 10)) content in
  let cleanedLines :=
    filter (fun line => negb (includes line "{") && negb (includes line "}")) lines in
  let result := joinLines newline cleanedLines in
  let result := replace_g blankLines (newline ++ newline) result in
  let result := replace_g emptySection "## " result in
  trim result.

End Templates.

(* ================================================================== *)
(** ** The generator (lib/generator) *)

Module Generator.
Import Templates GenerateRoute.

(** [MAX_FILE_SIZE], in bytes. *)
Definition MAX_FILE_SIZE : N := (2 * 1024 * 1024)%N.

(** What the call of the messages API comes to: a first content block of
    type text, a first block of another type, or no usable answer (the call
    rejects, or the answer has no first block). *)
Inductive Reply : Type :=
| TextBlock (text : string)
| OtherBlock
| NoReply.

(** The number of matches of the pattern for section headings, two hash
    signs and a white space character at the start of a line: a line starts
    at the start of the text and after a line terminator.  Two matches never
    overlap, since the first two characters of a match are no terminators. *)
Fixpoint headingsFrom (lineStart : bool) (s : string) : nat :=
  match s with
  | EmptyString => 0
  | String a rest =>
      let here :=
        match s with
        | String h1 (String h2 (String sp _)) =>
            lineStart && Ascii.eqb h1 "#" && Ascii.eqb h2 "#" && is_space sp
        | _ => false
        end in
      let terminator := ((code a =? 10) || (code a =? 13))%nat in
      ((if here then 1 else 0) + headingsFrom terminator rest)%nat
  end.

Definition sectionCount (content : string) : nat := headingsFrom true content.

Section WithRuntime.
(** The size of [new Blob([s])]: the length of [s] in UTF-8. *)
Variable byteSize : string -> N.
(** [s.length]: the number of UTF-16 code units of [s]. *)
Variable codeUnits : string -> nat.
(** The answer of the messages API for the prompt, which the generator
    builds from the profile and the source URL. *)
Variable reply : ExtractedData -> string -> Reply.

(** [validateGeneratedContent] *)
Definition validateGeneratedContent (content : string) : bool :=
  if (codeUnits content <? 100)%nat then false
  else if includes content "{" && includes content "}" then false
  else if (MAX_FILE_SIZE <? byteSize content)%N then false
  else if (sectionCount content <? 2)%nat then false
  else true.

(** [generateLLMSText], from the call of the API on.  Everything thrown
    inside its [try] block is replaced by one error with a fixed message. *)
Definition generateLLMSText (extractedData : ExtractedData) (sourceUrl : string)
  : Generation :=
  let finish (generatedText : string) :=
    let cleanedContent := cleanTemplate generatedText in
    if (MAX_FILE_SIZE <? byteSize cleanedContent)%N
    then Failed "Failed to generate LLMS.txt file"
    else Generated cleanedContent in
  match reply extractedData sourceUrl with
  | TextBlock text => finish text
  | OtherBlock => finish EmptyString
  | NoReply => Failed "Failed to generate LLMS.txt file"
  end.

(** The generate route with the generator module plugged in, from the
    request body on: a [ZodError] is answered with 400, and the message of
    the error of a body that is no JSON goes through the same tests as the
    message of an error of the generator. *)
Definition handle (apiKeyConfigured : bool) (body : Body GenerateRequest) : Outcome :=
  match body with
  | Invalid => mkOutcome [] 400 false
  | Malformed message => mkOutcome [] (errorStatus message) false
  | Parsed request => POST apiKeyConfigured generateLLMSText validateGeneratedContent request
  end.
End WithRuntime.

End Generator.

(* ================================================================== *)
(** ** Meta tags of a scraped page (lib/scraper) *)

Module Scraper.

(** A [meta] element, by the three attributes the scraper reads. *)
Record MetaElement : Type := mkMeta {
  attrName : option string;
  attrProperty : option string;
  attrContent : option string
}.

(** [$meta.attr('name') || $meta.attr('property')] *)
Definition metaKey (element : MetaElement) : option string :=
  match attrName element with
  | Some name => if String.eqb name EmptyString then attrProperty element else Some name
  | None => attrProperty element
  end.

(** The body of the loop over the [meta] elements.  An assignment to the key
    [__proto__] of a plain object stores nothing. *)
Definition addMeta (metaTags : list (string * string)) (element : MetaElement)
  : list (string * string) :=
  match metaKey element, attrContent element with
  | Some name, Some content =>
      if String.eqb name EmptyString || String.eqb content EmptyString then metaTags
      else if String.eqb name "__proto__" then metaTags
      else assign name content metaTags
  | _, _ => metaTags
  end.

(** [extractMetaTags], on the [meta] elements of the page in document order
    and the text of its [title]. *)
Definition extractMetaTags (elements : list MetaElement) (title : string)
  : list (string * string) :=
  let metaTags := fold_left addMeta elements [] in
  if String.eqb title EmptyString then metaTags else assign "title" title metaTags.

(** The pattern of a run of white space, with the flag [g]. *)
Definition whitespaceRun : RegExp := mkRegExp (Rep CSpace 1) false.

(** The pattern of a run of line feeds, with the flag [g]. *)
Definition newlineRun : RegExp := mkRegExp (Rep (COneOf Templates.newline) 1) false.

(** [extractTextContent], on the text of the [body] element once the
    script, style, noscript and iframe elements are removed. *)
Definition extractTextContent (bodyText : string) : string :=
  let text := Templates.replace_g whitespaceRun " " bodyText in
  let text := Templates.replace_g newlineRun Templates.newline text in
  trim text.

End Scraper.

(* ================================================================== *)
(** ** The scrape route handler (app/api/scrape/route) *)

Module ScrapeRoute.

(** The outcome of [scrapeWebsite]: the content, or an [Error] with its
    message. *)
Inductive Scrape : Type :=
| Scraped (content : ScrapedContent)
| ScrapeFailed (message : string).

(** What a run of the handler does: the [usePlaywright] options of its calls
    of [scrapeWebsite], the status, the content it returns and the warnings
    it puts in the header. *)
Record Outcome : Type := mkOutcome {
  scrapeCalls : list (option bool);
  scrapeStatus : Z;
  returned : option ScrapedContent;
  warnings : list string
}.

(** The status chosen by the [catch] block for an [Error]. *)
Definition errorStatus (message : string) : Z :=
  if includes message "timeout" then 408%Z
  else if includes message "ENOTFOUND" || includes message "ECONNREFUSED" then 400%Z
  else if includes message "403" || includes message "401" then 403%Z
  else 500%Z.

Definition warningsOf (scrapedContent : ScrapedContent) : list string :=
  let warnings := [] in
  let warnings :=
    if (length (jsonLd scrapedContent) =? 0)%nat
    then warnings ++ ["No structured data (JSON-LD) found. Consider adding schema.org markup."]
    else warnings in
  let warnings :=
    match lookup "description" (metaTags scrapedContent) with
    | Some text =>
        if String.eqb text EmptyString
        then warnings ++ ["No meta description found. This might affect content quality."]
        else warnings
    | None => warnings ++ ["No meta description found. This might affect content quality."]
    end in
  warnings.

(** The validated request body. *)
Record ScrapeRequest : Type := mkScrapeRequest {
  url : string;
  usePlaywright : option bool
}.

Section Handler.
(** [scrapeWebsite(url, { usePlaywright })] *)
Variable scrapeWebsite : string -> option bool -> Scrape.
(** [text.trim().length]: the number of UTF-16 code units of [text] without
    the white space at its ends. *)
Variable trimmedLength : string -> nat.

(** [!text || text.trim().length < 100] *)
Definition tooShort (text : string) : bool :=
  String.eqb text EmptyString || (trimmedLength text <? 100)%nat.

(** [text && text.trim().length > 100] *)
Definition longEnough (text : string) : bool :=
  negb (String.eqb text EmptyString) && (100 <? trimmedLength text)%nat.

Definition POST (body : Body ScrapeRequest) : Outcome :=
  match body with
  | Invalid => mkOutcome [] 400 None []
  | Malformed message => mkOutcome [] (errorStatus message) None []
  | Parsed request =>
      match scrapeWebsite (url request) (usePlaywright request) with
      | ScrapeFailed message =>
          mkOutcome [usePlaywright request] (errorStatus message) None []
      | Scraped scrapedContent =>
          let finish (calls : list (option bool)) :=
            mkOutcome calls 200 (Some scrapedContent) (warningsOf scrapedContent) in
          let forced := match usePlaywright request with Some true => true | _ => false end in
          if tooShort (textContent scrapedContent) && negb forced then
            match scrapeWebsite (url request) (Some true) with
            | ScrapeFailed message =>
                mkOutcome [usePlaywright request; Some true] (errorStatus message) None []
            | Scraped retryContent =>
                if longEnough (textContent retryContent)
                then mkOutcome [usePlaywright request; Some true] 200 (Some retryContent) []
                else finish [usePlaywright request; Some true]
            end
          else finish [usePlaywright request]
      end
  end.
End Handler.

End ScrapeRoute.

(* ================================================================== *)
(** ** Definitions used to state the further properties *)

Module MoreProps.
Import Constants Extractor ExtractRoute Props.

(** [b] implies [b']. *)
Definition implies (b b' : bool) : Prop := b = true -> b' = true.

(** [data'] has everything populated that [data] has: every scored field
    that is set in [data] is set in [data'], and [data'] has at least as
    many services, products, team entries, social links and structured
    records. *)
Definition atLeastAsPopulated (data data' : ExtractedData) : Prop :=
  implies (resolved (companyName data) "Company Name")
          (resolved (companyName data') "Company Name")
  /\ implies (resolved (description data) "No description available.")
             (resolved (description data') "No description available.")
  /\ (length (services data) <= length (services data'))%nat
  /\ (length (products data) <= length (products data'))%nat
  /\ implies (truthy (field (email (contactInfo data))))
             (truthy (field (email (contactInfo data'))))
  /\ implies (truthy (field (phone (contactInfo data))))
             (truthy (field (phone (contactInfo data'))))
  /\ implies (truthy (field (address (contactInfo data))))
             (truthy (field (address (contactInfo data'))))
  /\ implies (truthy (mission data)) (truthy (mission data'))
  /\ (length (teamInfo data) <= length (teamInfo data'))%nat
  /\ implies (truthy (apiDocs data)) (truthy (apiDocs data'))
  /\ (length (contributedSocial data) <= length (contributedSocial data'))%nat
  /\ (length (contributedSchema data) <= length (contributedSchema data'))%nat.

(** The scalar keys of a profile, and the array keys that the merge
    initialises. *)
Inductive ScalarKey : Type := KCompanyName | KTagline | KDescription | KMission | KApiDocs.
Inductive ArrayKey : Type := KServices | KProducts | KTeamInfo.
Inductive ContactKey : Type := KEmail | KPhone | KAddress.

Definition scalarOf (key : ScalarKey) (data : ExtractedData) : JsVal :=
  match key with
  | KCompanyName => companyName data
  | KTagline => tagline data
  | KDescription => description data
  | KMission => mission data
  | KApiDocs => apiDocs data
  end.

Definition sourceScalar (key : ScalarKey) (source : Partial.t) : JsVal :=
  match key with
  | KCompanyName => Partial.companyName source
  | KTagline => Partial.tagline source
  | KDescription => Partial.description source
  | KMission => Partial.mission source
  | KApiDocs => Partial.apiDocs source
  end.

Definition arrayOf (key : ArrayKey) (data : ExtractedData) : list string :=
  match key with
  | KServices => services data
  | KProducts => products data
  | KTeamInfo => teamInfo data
  end.

Definition sourceArray (key : ArrayKey) (source : Partial.t) : option (list string) :=
  match key with
  | KServices => Partial.services source
  | KProducts => Partial.products source
  | KTeamInfo => Partial.teamInfo source
  end.

Definition contactOf (key : ContactKey) (contact : ContactInfo) : option JsVal :=
  match key with
  | KEmail => email contact
  | KPhone => phone contact
  | KAddress => address contact
  end.

(** What a source holds under a key of [contactInfo]: [None] when the source
    has no [contactInfo] or its [contactInfo] has no such key. *)
Definition sourceContact (key : ContactKey) (source : Partial.t) : option JsVal :=
  match Partial.contactInfo source with
  | Some contact => contactOf key contact
  | None => None
  end.

(** Every character of [s] satisfies [p]. *)
Fixpoint allChars (p : ascii -> bool) (s : string) : bool :=
  match s with
  | EmptyString => true
  | String a rest => p a && allChars p rest
  end.

(** [x] occurs in [s]: [s] is [x] with something before and after it. *)
Definition occursIn (x s : string) : Prop :=
  exists front back, s = (front ++ x ++ back)%string.

(** [s] starts with [p]. *)
Definition prefixOf (p s : string) : Prop := exists rest, s = (p ++ rest)%string.

Definition isSeparator (a : ascii) : bool := Ascii.eqb "-" a || Ascii.eqb "|" a.
Definition isTerminator (a : ascii) : bool := ((code a =? 10) || (code a =? 13))%nat.
Definition isComma (a : ascii) : bool := Ascii.eqb a "," || Ascii.eqb a ";".

(** Entries as the structured extractor stores them: named, and free of
    every excluded term. *)
Definition screened (entries : option (list string)) : Prop :=
  exists items,
    entries = Some items
    /\ forall s, In s items -> s <> EmptyString /\ containsExcludedContent s = false.

(** Social links filed under the platform they are recognised as, one link
    per platform. *)
Definition filedLinks (links : list (string * JsVal)) : Prop :=
  NoDup (map fst links)
  /\ forall platform url,
       In (platform, url) links -> identifySocialPlatform url = Ok (Some platform).

Definition contactShape (contact : option ContactInfo) : Prop :=
  exists c,
    contact = Some c
    /\ match socialMedia c with
       | Some links => filedLinks links
       | None => True
       end.

Definition teamShape (team : option (list string)) : Prop :=
  exists members,
    team = Some members /\ forall m, In m members -> occursIn " - " m.

(** What every record leaves untouched or well-formed. *)
Definition structuredShape (p : Partial.t) : Prop :=
  screened (Partial.services p)
  /\ screened (Partial.products p)
  /\ contactShape (Partial.contactInfo p)
  /\ teamShape (Partial.teamInfo p)
  /\ Partial.mission p = JUndefined
  /\ Partial.apiDocs p = JUndefined
  /\ Partial.businessType p = None.

(** A record with an employee, two offers and two links of one platform. *)
Definition shopRecord : JsVal :=
  JObj [ ("@type", JStr "Organization");
         ("name", JStr "Shop");
         ("sameAs", JArr [JStr "https://twitter.com/shop"; JStr "https://x.com/shop"]);
         ("makesOffer", JArr [JObj [("name", JStr "Widget")];
                              JObj [("name", JStr "Pricing plan")]]);
         ("employee", JArr [JObj [("name", JStr "Ann"); ("jobTitle", JStr "CEO")]]) ].

(** [type === 'Organization' || type === 'Corporation' || type === 'LocalBusiness']
    on the type of a record. *)
Definition isOrganization (record : JsVal) : bool :=
  is_str (optProp record "@type") "Organization"
  || is_str (optProp record "@type") "Corporation"
  || is_str (optProp record "@type") "LocalBusiness".

(** The value of [key] in the last organisation record that sets it. *)
Definition lastSet (key : string) (records : list JsVal) : JsVal :=
  match find (fun record => isOrganization record && truthy (optProp record key))
             (rev records) with
  | Some record => optProp record key
  | None => JUndefined
  end.

(** The keys of a record that hold nested values. *)
Definition nestedKeys : list string :=
  ["contactPoint"; "address"; "makesOffer"; "hasOfferCatalog"; "employee"; "founder"].

Definition isText (v : JsVal) : bool :=
  match v with JStr _ => true | _ => false end.

(** A record without nested parts: none of the nested keys is set, and
    [sameAs], when it is a list, is a list of strings. *)
Definition plainRecord (record : JsVal) : bool :=
  match record with
  | JUndefined | JNull => false
  | _ =>
      forallb (fun key => negb (truthy (optProp record key))) nestedKeys
      && match optProp record "sameAs" with
         | JArr urls => forallb isText urls
         | _ => true
         end
  end.

(** [extracted.key = jsonLd.name || extracted.key], for organisation records. *)
Definition keepLast (key : string) (current : JsVal) (record : JsVal) : JsVal :=
  if isOrganization record then orElse (optProp record key) current else current.

Definition scalars (p : Partial.t) : JsVal * JsVal * JsVal :=
  (Partial.companyName p, Partial.description p, Partial.tagline p).

(** What a record without nested parts may change: the three scalars and
    the social links. *)
Definition sameEntries (p p' : Partial.t) : Prop :=
  Partial.services p' = Partial.services p
  /\ Partial.products p' = Partial.products p
  /\ Partial.teamInfo p' = Partial.teamInfo p
  /\ exists c c',
       Partial.contactInfo p = Some c /\ Partial.contactInfo p' = Some c'
       /\ email c' = email c /\ phone c' = phone c /\ address c' = address c.

(** The sub-fields of a postal address, in the order [formatAddress] reads
    them. *)
Definition addressKeys : list string :=
  ["streetAddress"; "addressLocality"; "addressRegion"; "postalCode"; "addressCountry"].

(** A sub-field that is a string or is missing. *)
Definition textOrMissing (v : JsVal) : bool :=
  match v with
  | JStr _ | JUndefined | JNull => true
  | _ => false
  end.

Definition textOf (v : JsVal) : string :=
  match v with
  | JStr s => s
  | _ => EmptyString
  end.

(** An opening or a closing curly brace. *)
Definition isBrace (a : ascii) : bool := Ascii.eqb "{" a || Ascii.eqb "}" a.

(** The [meta] element sets [key]: its name (or, without a name, its
    property) is [key] and its content is not empty. *)
Definition setsKey (key : string) (element : Scraper.MetaElement) : bool :=
  match Scraper.metaKey element, Scraper.attrContent element with
  | Some name, Some content => String.eqb name key && negb (String.eqb content EmptyString)
  | _, _ => false
  end.

(** The content of the last element that sets [key]. *)
Definition lastContent (key : string) (elements : list Scraper.MetaElement) : option string :=
  match find (setsKey key) (rev elements) with
  | Some element => Scraper.attrContent element
  | None => None
  end.

(** The name, the description and the slogan of a record are strings or
    missing. *)
Definition textualKeys (record : JsVal) : Prop :=
  textual (optProp record "name")
  /\ textual (optProp record "description")
  /\ textual (optProp record "slogan").

(** Every run of white space turned into one space, in one pass over the
    text: [inRun] says that the previous character was white space. *)
Fixpoint collapseFrom (inRun : bool) (s : string) : string :=
  match s with
  | EmptyString => EmptyString
  | String a rest =>
      if is_space a
      then if inRun then collapseFrom true rest else String " " (collapseFrom true rest)
      else String a (collapseFrom false rest)
  end.

(** The only white space is single spaces: no white space character other
    than the space, and no space right after white space ([afterSpace]
    says that the text comes right after a white space character). *)
Fixpoint spaced (afterSpace : bool) (s : string) : bool :=
  match s with
  | EmptyString => true
  | String a rest =>
      if is_space a
      then Ascii.eqb a " " && negb afterSpace && spaced true rest
      else spaced false rest
  end.

(** The characters of a text that are no white space. *)
Fixpoint dropSpaces (s : string) : string :=
  match s with
  | EmptyString => EmptyString
  | String a rest => if is_space a then dropSpaces rest else String a (dropSpaces rest)
  end.

(** A text of ASCII characters.  On such a text the white space, the
    letters with a case, the line terminators and the length of this
    development are those of JavaScript. *)
Definition isAscii (s : string) : bool := allChars (fun a => (code a <? 128)%nat) s.

(** [String.prototype.toUpperCase], on ASCII text. *)
Fixpoint toUpperCase (s : string) : string :=
  match s with
  | EmptyString => EmptyString
  | String a rest => String (upper_char a) (toUpperCase rest)
  end.

(** The text of the reply, when its first block is one of text, is ASCII. *)
Definition asciiReply (reply : Generator.Reply) : bool :=
  match reply with
  | Generator.TextBlock text => isAscii text
  | _ => true
  end.

(** A page whose organisation record gives, as the email of its contact
    point, an object with a property [toString] that is no function. *)
Definition unprintableEmailPage : ScrapedContent :=
  mkScraped EmptyString EmptyString [("og:site_name", "Acme")]
            [ JObj [ ("@type", JStr "Organization");
                     ("contactPoint", JObj [("email", JObj [("toString", JNum "1")])]) ] ]
            "https://acme.example/".

End MoreProps.
(* ================================================================== *)
(** * Properties *)

Import Constants Extractor ExtractRoute GenerateRoute Props Examples.

(* ------------------------------------------------------------------ *)
(** ** The regular-expression matcher *)

Section RegexFacts.

(** Facts about strings. *)
Lemma append_length (a b : string) :
  String.length (a ++ b) = (String.length a + String.length b)%nat.
Proof. induction a as [|c a IH]; simpl; [reflexivity | rewrite IH; reflexivity]. Qed.

Lemma append_assoc (a b c : string) : ((a ++ b) ++ c = a ++ (b ++ c))%string.
Proof. induction a as [|x a IH]; simpl; [reflexivity | rewrite IH; reflexivity]. Qed.

Lemma substring_prefix (pre rest : string) :
  substring 0 (String.length pre) (pre ++ rest) = pre.
Proof.
  induction pre as [|c pre IH]; simpl.
  - destruct rest; reflexivity.
  - rewrite IH. reflexivity.
Qed.

Lemma consumed_append (pre rest : string) : consumed (pre ++ rest) rest = pre.
Proof.
  unfold consumed. rewrite append_length.
  replace (String.length pre + String.length rest - String.length rest)%nat
    with (String.length pre) by lia.
  apply substring_prefix.
Qed.

(** The backtracking matcher only succeeds through a match. *)
Lemma rep_sound {R : Type} (ci : bool) (c : cclass) (s : string) :
  forall (min : nat) (k : string -> option R) (x : R),
    rep ci c min s k = Some x ->
    exists rest, RepMatches ci c min s rest /\ k rest = Some x.
Proof.
  induction s as [|a s IH]; intros min k x H; simpl in H.
  - destruct (Nat.eqb_spec min 0) as [-> | Hmin]; [|discriminate].
    exists EmptyString. split; [constructor | exact H].
  - destruct (in_class ci c a) eqn:Hin.
    + destruct (rep ci c (Nat.pred min) s k) as [y|] eqn:Hrec.
      * inversion H; subst y. destruct (IH _ _ _ Hrec) as [rest [Hm Hk]].
        exists rest. split; [constructor; assumption | exact Hk].
      * destruct (Nat.eqb_spec min 0) as [-> | Hmin]; [|discriminate].
        exists (String a s). split; [constructor | exact H].
    + destruct (Nat.eqb_spec min 0) as [-> | Hmin]; [|discriminate].
      exists (String a s). split; [constructor | exact H].
Qed.

Lemma mtch_sound {R : Type} (ci : bool) (r : regex) :
  forall (s : string) (caps : captures) (k : string -> captures -> option R) (x : R),
    mtch ci r s caps k = Some x ->
    exists rest caps', Matches ci r s caps rest caps' /\ k rest caps' = Some x.
Proof.
  induction r as [p | c | r1 IH1 r2 IH2 | r1 IH1 r2 IH2 | r IH | c min | n r IH | ];
    intros s caps k x H; simpl in H.
  - destruct (lit ci p s) as [rest|] eqn:Hlit; [|discriminate].
    exists rest, caps. split; [constructor; exact Hlit | exact H].
  - destruct s as [|a s]; [discriminate|].
    destruct (in_class ci c a) eqn:Hin; [|discriminate].
    exists s, caps. split; [constructor; exact Hin | exact H].
  - destruct (IH1 _ _ _ _ H) as [s1 [caps1 [Hm1 Hk1]]].
    destruct (IH2 _ _ _ _ Hk1) as [s2 [caps2 [Hm2 Hk2]]].
    exists s2, caps2. split; [econstructor; eassumption | exact Hk2].
  - destruct (mtch ci r1 s caps k) as [y|] eqn:Hleft.
    + inversion H; subst y. destruct (IH1 _ _ _ _ Hleft) as [rest [caps' [Hm Hk]]].
      exists rest, caps'. split; [apply M_AltL; exact Hm | exact Hk].
    + destruct (IH2 _ _ _ _ H) as [rest [caps' [Hm Hk]]].
      exists rest, caps'. split; [apply M_AltR; exact Hm | exact Hk].
  - destruct (mtch ci r s caps k) as [y|] eqn:Hsome.
    + inversion H; subst y. destruct (IH _ _ _ _ Hsome) as [rest [caps' [Hm Hk]]].
      exists rest, caps'. split; [apply M_OptSome; exact Hm | exact Hk].
    + exists s, caps. split; [apply M_OptNone | exact H].
  - destruct (rep_sound _ _ _ _ _ _ H) as [rest [Hm Hk]].
    exists rest, caps. split; [constructor; exact Hm | exact Hk].
  - destruct (IH _ _ _ _ H) as [rest [caps' [Hm Hk]]].
    exists rest, ((n, consumed s rest) :: caps'). split; [constructor; exact Hm | exact Hk].
  - destruct s; [|discriminate].
    exists EmptyString, caps. split; [constructor | exact H].
Qed.

(** A match consumes a prefix of the input. *)
Lemma lit_suffix (ci : bool) (p : string) :
  forall s rest, lit ci p s = Some rest -> exists pre, s = (pre ++ rest)%string.
Proof.
  induction p as [|a p IH]; intros s rest H; simpl in H.
  - inversion H. exists EmptyString. reflexivity.
  - destruct s as [|b s]; [discriminate|].
    destruct (Ascii.eqb a b || ci && Ascii.eqb (upper_char a) (upper_char b)); [|discriminate].
    destruct (IH _ _ H) as [pre ->]. exists (String b pre). reflexivity.
Qed.

Lemma RepMatches_suffix (ci : bool) (c : cclass) (min : nat) (s rest : string) :
  RepMatches ci c min s rest -> exists pre, s = (pre ++ rest)%string.
Proof.
  induction 1 as [s | min a s rest Hin Hrep [pre ->]].
  - exists EmptyString. reflexivity.
  - exists (String a pre). reflexivity.
Qed.

Lemma Matches_suffix (ci : bool) (r : regex) (s rest : string) (caps caps' : captures) :
  Matches ci r s caps rest caps' -> exists pre, s = (pre ++ rest)%string.
Proof.
  induction 1 as
    [ p s rest caps Hlit | c a s caps Hin
    | r1 r2 s s1 s2 caps caps1 caps2 H1 [pre1 ->] H2 [pre2 ->]
    | r1 r2 s rest caps caps' H IH | r1 r2 s rest caps caps' H IH
    | r s rest caps caps' H IH | r s caps
    | c min s rest caps Hrep
    | n r s rest caps caps' H IH
    | caps ].
  - exact (lit_suffix _ _ _ _ Hlit).
  - exists (String a EmptyString). reflexivity.
  - exists (pre1 ++ pre2)%string. rewrite append_assoc. reflexivity.
  - exact IH.
  - exact IH.
  - exact IH.
  - exists EmptyString. reflexivity.
  - exact (RepMatches_suffix _ _ _ _ _ Hrep).
  - exact IH.
  - exists EmptyString. reflexivity.
Qed.

(** What [match_here] returns is a match at the front of the input. *)
Lemma match_here_sound (ci : bool) (r : regex) (s : string) (m : MatchResult) :
  match_here ci r s = Some m ->
  Matches ci r s [] (after m) (groups m)
  /\ before m = EmptyString
  /\ s = (matched m ++ after m)%string.
Proof.
  unfold match_here. intro H.
  destruct (mtch_sound _ _ _ _ _ _ H) as [rest [caps' [Hm Hk]]].
  inversion Hk; subst m. simpl.
  split; [exact Hm|]. split; [reflexivity|].
  destruct (Matches_suffix _ _ _ _ _ _ Hm) as [pre ->].
  rewrite consumed_append. reflexivity.
Qed.

(** What [search] returns splits the input, and is a match at the front of
    what follows the part before it. *)
Lemma search_sound (ci : bool) (r : regex) (s : string) (m : MatchResult) :
  search ci r s = Some m ->
  s = (before m ++ matched m ++ after m)%string
  /\ Matches ci r (matched m ++ after m) [] (after m) (groups m).
Proof.
  revert m. induction s as [|a s IH]; intros m H; simpl in H.
  - destruct (match_here ci r EmptyString) as [m0|] eqn:Hhere; [|discriminate].
    inversion H; subst m0. destruct (match_here_sound _ _ _ _ Hhere) as [Hm [Hb Hs]].
    rewrite Hb. simpl. rewrite <- Hs. split; [reflexivity | exact Hm].
  - destruct (match_here ci r (String a s)) as [m0|] eqn:Hhere.
    + inversion H; subst m0. destruct (match_here_sound _ _ _ _ Hhere) as [Hm [Hb Hs]].
      rewrite Hb. simpl. rewrite <- Hs. split; [reflexivity | exact Hm].
    + destruct (search ci r s) as [m1|] eqn:Hrec; [|discriminate].
      inversion H; subst m. simpl.
      destruct (IH _ eq_refl) as [Hs Hm]. split; [rewrite Hs at 1; reflexivity | exact Hm].
Qed.

Lemma search_after_length (ci : bool) (r : regex) (s : string) (m : MatchResult) :
  search ci r s = Some m ->
  (String.length (matched m) + String.length (after m) <= String.length s)%nat.
Proof.
  intro H. destruct (search_sound _ _ _ _ H) as [Hs _].
  apply (f_equal String.length) in Hs. rewrite !append_length in Hs. lia.
Qed.

(** The rounds that [match_g] allows are enough: with any larger number of
    rounds the list of matches is the same. *)
Lemma match_all_from_enough (ci : bool) (r : regex) :
  forall (fuel1 fuel2 : nat) (s : string),
    (String.length s < fuel1)%nat -> (String.length s < fuel2)%nat ->
    match_all_from fuel1 ci r s = match_all_from fuel2 ci r s.
Proof.
  induction fuel1 as [|fuel1 IH]; intros fuel2 s H1 H2; [lia|].
  destruct fuel2 as [|fuel2]; [lia|]. simpl.
  destruct (search ci r s) as [m|] eqn:Hsearch; [|reflexivity].
  pose proof (search_after_length _ _ _ _ Hsearch) as Hlen.
  f_equal.
  destruct (matched m) as [|a rest] eqn:Hmatched.
  - destruct (after m) as [|b rest'] eqn:Hafter; [reflexivity|].
    simpl in Hlen. apply IH; lia.
  - simpl in Hlen. apply IH; lia.
Qed.

Lemma match_g_any_fuel (re : RegExp) (s : string) (fuel : nat) :
  (String.length s < fuel)%nat ->
  match_all_from fuel (ignoreCase re) (pattern re) s = match_g re s.
Proof. intro H. unfold match_g. apply match_all_from_enough; lia. Qed.

(** In a match of a pattern that ends with [afterTrigger], group 1 took
    part. *)
Lemma afterTrigger_captures (ci : bool) (trigger : regex) (text : string) (m : MatchResult) :
  search ci (Seq trigger afterTrigger) text = Some m ->
  exists captured, group 1 (groups m) = Some captured.
Proof.
  intro H. destruct (search_sound _ _ _ _ H) as [_ Hm].
  inversion Hm as [ | | r1 r2 s0 s1 s2 c0 c1 c2 Htrigger Hafter | | | | | | | ]; subst.
  unfold afterTrigger, Cat in Hafter. simpl in Hafter.
  inversion Hafter as [ | | r1' r2' s0' s1' s2' c0' c1' c2' Hrep Hrest | | | | | | | ]; subst.
  inversion Hrest as [ | | r1'' r2'' t0 t1 t2 d0 d1 d2 Hgroup Hend | | | | | | | ]; subst.
  inversion Hgroup; subst.
  inversion Hend; subst.
  eexists. simpl. reflexivity.
Qed.

(** Group 1 is set in every match of the two section patterns. *)
Lemma section_patterns_capture (text : string) (m : MatchResult) :
  match_first servicesSection text = Some m \/ match_first missionSection text = Some m ->
  exists captured, group 1 (groups m) = Some captured /\ capture 1 m = captured.
Proof.
  unfold match_first, capture.
  intros [H | H]; destruct (afterTrigger_captures _ _ _ _ H) as [captured Hc];
    exists captured; rewrite Hc; split; reflexivity.
Qed.

End RegexFacts.

(* ------------------------------------------------------------------ *)
(** ** identifySocialPlatform *)

Lemma firstPlatform_string (url : string) (entries : list (string * string)) :
  firstPlatform (JStr url) entries
  = Ok (option_map snd (find (fun entry => includes url (fst entry)) entries)).
Proof.
  induction entries as [|[domain platform] rest IH]; simpl.
  - reflexivity.
  - destruct (includes url domain); simpl; [reflexivity | exact IH].
Qed.

(** C10: on a string, [identifySocialPlatform] tests the seven domains in
    the order facebook.com, twitter.com, x.com, linkedin.com, instagram.com,
    youtube.com, github.com by substring containment over the whole URL and
    returns the platform of the first domain contained, [null] when none is;
    so a URL whose host is no social platform but contains [x.com] is
    assigned to twitter. *)
Theorem identifySocialPlatform_first_contained_domain :
  (forall url : string,
      identifySocialPlatform (JStr url)
      = Ok (option_map snd
              (find (fun entry => includes url (fst entry))
                    [ ("facebook.com", "facebook"); ("twitter.com", "twitter");
                      ("x.com", "twitter"); ("linkedin.com", "linkedin");
                      ("instagram.com", "instagram"); ("youtube.com", "youtube");
                      ("github.com", "github") ])))
  /\ (forall url : string,
        (forall domain, In domain (map fst platforms) -> includes url domain = false) ->
        identifySocialPlatform (JStr url) = Ok None)
  /\ (hostOf streamingUrl = "netflix.com"
      /\ ~ In (hostOf streamingUrl) (map fst platforms)
      /\ identifySocialPlatform (JStr streamingUrl) = Ok (Some "twitter")).
Proof.
  split; [|split].
  - intro url. apply firstPlatform_string.
  - intros url Hnone. unfold identifySocialPlatform.
    rewrite firstPlatform_string.
    induction platforms as [|[domain platform] rest IH]; simpl.
    + reflexivity.
    + rewrite (Hnone domain) by (left; reflexivity).
      apply IH. intros d Hd. apply Hnone. right. exact Hd.
  - split; [reflexivity|]. split; [|reflexivity].
    vm_compute. intuition discriminate.
Qed.

Lemma identifySocialPlatform_witness :
  (forall domain, In domain (map fst platforms) -> includes "https://example.org/" domain = false)
  /\ identifySocialPlatform (JStr "https://example.org/") = Ok None.
Proof.
  assert (H : forall domain, In domain (map fst platforms) ->
                             includes "https://example.org/" domain = false).
  { simpl. intros domain Hin.
    repeat (destruct Hin as [<- | Hin]; [reflexivity|]). destruct Hin. }
  split; [exact H|].
  exact (proj1 (proj2 identifySocialPlatform_first_contained_domain) _ H).
Defined.

(* ------------------------------------------------------------------ *)
(** ** calculateQualityScore *)

Lemma worth_bounds (present : bool) (n : Z) : (0 <= n -> 0 <= worth present n <= n)%Z.
Proof. destruct present; simpl; lia. Qed.

Lemma add_if_worth (present : bool) (score n : Z) :
  (if present then (score + n)%Z else score) = (score + worth present n)%Z.
Proof. destruct present; simpl; lia. Qed.

Lemma add_if_nonempty_capped {A : Type} (l : list A) (score : Z) :
  (if (0 <? length l)%nat then (score + Z.min 10 (Z.of_nat (length l) * 2))%Z else score)
  = (score + Z.min 10 (2 * Z.of_nat (length l)))%Z.
Proof. destruct l; simpl length; [simpl; lia|]. cbn [Nat.ltb Nat.leb]. lia. Qed.

Lemma add_if_nonempty_worth {A : Type} (l : list A) (score n : Z) :
  (if (0 <? length l)%nat then (score + n)%Z else score)
  = (score + worth (negb (Nat.eqb (length l) 0)) n)%Z.
Proof. destruct l; simpl; lia. Qed.

(** The score the code computes is the capped sum of the listed
    contributions. *)
Lemma calculateQualityScore_cappedSum (data : ExtractedData) :
  calculateQualityScore data = cappedSum data.
Proof.
  unfold calculateQualityScore, cappedSum, contributions, resolved,
    contributedSocial, contributedSchema.
  cbv zeta.
  rewrite !add_if_nonempty_capped, !add_if_nonempty_worth, !add_if_worth.
  destruct (socialMedia (contactInfo data)) as [entries|];
    destruct (schemaData data) as [records|];
    rewrite ?add_if_nonempty_worth; cbn [fold_right length Nat.eqb negb worth]; lia.
Qed.

Lemma contributions_total_bounds (data : ExtractedData) :
  (0 <= fold_right Z.add 0 (contributions data) <= 100)%Z.
Proof.
  unfold contributions. cbn [fold_right].
  pose proof (worth_bounds (resolved (companyName data) "Company Name") 10).
  pose proof (worth_bounds (resolved (description data) "No description available.") 10).
  pose proof (worth_bounds (truthy (field (email (contactInfo data)))) 10).
  pose proof (worth_bounds (truthy (field (phone (contactInfo data)))) 5).
  pose proof (worth_bounds (truthy (field (address (contactInfo data)))) 5).
  pose proof (worth_bounds (truthy (mission data)) 5).
  pose proof (worth_bounds (negb (Nat.eqb (length (teamInfo data)) 0)) 5).
  pose proof (worth_bounds (truthy (apiDocs data)) 5).
  pose proof (worth_bounds (negb (Nat.eqb (length (contributedSocial data)) 0)) 5).
  pose proof (worth_bounds (negb (Nat.eqb (length (contributedSchema data)) 0)) 20).
  lia.
Qed.

(** C4: [calculateQualityScore] returns an integer between 0 and 100; a
    profile with one more service appended never scores lower; and the score
    is the sum, capped at 100, of the contributions the specification lists
    (name 10 and description 10 when set and not the placeholder, 2 per
    service up to 10, 2 per product up to 10, email 10, phone 5, address 5,
    mission 5, team 5, API docs 5, social media 5, structured records 20). *)
Theorem calculateQualityScore_range_monotone_sum :
  forall data : ExtractedData,
    (0 <= calculateQualityScore data <= 100)%Z
    /\ (forall s : string,
           (calculateQualityScore data <= calculateQualityScore (withExtraService s data))%Z)
    /\ calculateQualityScore data
       = Z.min 100
           (worth (truthy (companyName data) && negb (is_str (companyName data) "Company Name")) 10
            + worth (truthy (description data)
                     && negb (is_str (description data) "No description available.")) 10
            + Z.min 10 (2 * Z.of_nat (length (services data)))
            + Z.min 10 (2 * Z.of_nat (length (products data)))
            + worth (truthy (field (email (contactInfo data)))) 10
            + worth (truthy (field (phone (contactInfo data)))) 5
            + worth (truthy (field (address (contactInfo data)))) 5
            + worth (truthy (mission data)) 5
            + worth (negb (Nat.eqb (length (teamInfo data)) 0)) 5
            + worth (truthy (apiDocs data)) 5
            + worth (match socialMedia (contactInfo data) with
                     | Some entries => negb (Nat.eqb (length entries) 0)
                     | None => false
                     end) 5
            + worth (match schemaData data with
                     | Some records => negb (Nat.eqb (length records) 0)
                     | None => false
                     end) 20)%Z.
Proof.
  intro data. split; [|split].
  - rewrite calculateQualityScore_cappedSum. unfold cappedSum.
    pose proof (contributions_total_bounds data). lia.
  - intro s. rewrite !calculateQualityScore_cappedSum. unfold cappedSum, contributions.
    cbn [fold_right]. unfold withExtraService, contributedSocial, contributedSchema.
    cbn [companyName description services products contactInfo mission teamInfo apiDocs
         schemaData].
    rewrite length_app. cbn [length]. lia.
  - rewrite calculateQualityScore_cappedSum. unfold cappedSum, contributions, resolved,
      contributedSocial, contributedSchema.
    cbn [fold_right].
    destruct (socialMedia (contactInfo data)); destruct (schemaData data);
      cbn [length Nat.eqb negb worth]; lia.
Qed.

(** The two scoring examples of the specification. *)
Example score_of_name_only :
  calculateQualityScore (withCompanyName (JStr "Acme") emptyMerged) = 10%Z.
Proof. reflexivity. Qed.

Example score_of_structured_name_and_description :
  calculateQualityScore
    (mkData (JStr "Acme") JUndefined (JStr "Tools for teams.") [] [] emptyContact JUndefined []
            JUndefined (Some [acmeRecord]) None) = 40%Z.
Proof. reflexivity. Qed.

(* ------------------------------------------------------------------ *)
(** ** The admission gate *)

Section Gate.
Variable apiKeyConfigured : bool.
Variable generate : ExtractedData -> string -> Generation.
Variable validate : string -> bool.

(** A score that is not zero and lies below 20 is rejected with status 400
    before the generation step is called. *)
Lemma POST_rejects_nonzero_low_score (request : GenerateRequest) (q : Q) :
  qualityScore request = Some q -> ~ q == 0 -> q < 20 ->
  POST apiKeyConfigured generate validate request = mkOutcome [] 400 false.
Proof.
  intros Hq Hnz Hlt. unfold POST, tooSparse. rewrite Hq.
  destruct (Qeq_bool q 0) eqn:Heq.
  - apply Qeq_bool_iff in Heq. contradiction.
  - destruct (Qle_bool 20 q) eqn:Hle.
    + apply Qle_bool_iff in Hle. exfalso. apply (Qlt_not_le _ _ Hlt Hle).
    + reflexivity.
Qed.

(** The guard lets a request pass exactly when its score is missing, is
    zero, or is at least 20. *)
Lemma tooSparse_false_iff (score : option Q) :
  tooSparse score = false <->
  score = None \/ exists q, score = Some q /\ (q == 0 \/ 20 <= q).
Proof.
  unfold tooSparse. destruct score as [q|].
  - destruct (Qeq_bool q 0) eqn:Heq; destruct (Qle_bool 20 q) eqn:Hle; simpl.
    + apply Qeq_bool_iff in Heq. split; [|reflexivity]. intros _. right. exists q. auto.
    + apply Qeq_bool_iff in Heq. split; [|reflexivity]. intros _. right. exists q. auto.
    + apply Qle_bool_iff in Hle. split; [|reflexivity]. intros _. right. exists q. auto.
    + split; [discriminate|]. intros [Hn | [q' [Hq' [Hz | Hge]]]].
      * discriminate.
      * inversion Hq'; subst q'. apply Qeq_bool_iff in Hz. congruence.
      * inversion Hq'; subst q'. apply Qle_bool_iff in Hge. congruence.
  - split; [intros _; left; reflexivity | reflexivity].
Qed.

(** C5, at the failing input: a request whose quality score is 0, which is
    below 20, is not rejected: the guard is false for it and, with the
    service configured, the handler calls the generation step. *)
Theorem POST_zero_score_calls_generation :
  (0 < 20)%Q
  /\ tooSparse (qualityScore zeroScoreRequest) = false
  /\ generatorCalls (POST true generate validate zeroScoreRequest)
     = [(extractedData zeroScoreRequest, sourceUrl zeroScoreRequest)]
  /\ POST true generate validate lowScoreRequest = mkOutcome [] 400 false.
Proof.
  split; [reflexivity|]. split; [reflexivity|]. split.
  - unfold POST. simpl.
    destruct (generate emptyMerged "https://example.org/"); [destruct (validate content)|];
      reflexivity.
  - reflexivity.
Qed.
End Gate.

(* ------------------------------------------------------------------ *)
(** ** Priority of the sources in the merge *)

(** A name set by the meta tags replaces whatever the structured data set:
    the sources are merged in the order they are passed and a later
    primitive value is assigned over the earlier one. *)
Lemma merge_takes_meta_name (structured meta content : Partial.t) (name : string) :
  Partial.companyName meta = JStr name ->
  Partial.companyName content = JUndefined ->
  companyName (mergeExtractedData [structured; meta; content]) = JStr name.
Proof.
  intros Hmeta Hcontent. unfold mergeExtractedData. simpl.
  rewrite Hmeta, Hcontent. reflexivity.
Qed.

(** C1, at the failing input: for the organisation record named
    "Acme Corp - Official" and the meta tag og:site_name = "Acme", the
    structured-data extractor sets companyName to "Acme Corp - Official", yet
    the profile [extractData] returns has companyName "Acme", the value of
    the meta tag. *)
Theorem extractData_acme_name_from_meta_tag :
  (exists structured,
      extractFromStructuredData (jsonLd acmePage) = Ok structured
      /\ Partial.companyName structured = JStr "Acme Corp - Official")
  /\ Partial.companyName (extractFromMetaTags (metaTags acmePage)) = JStr "Acme"
  /\ (exists profile,
         extractData acmePage = Ok profile
         /\ companyName profile = JStr "Acme"
         /\ socialMedia (contactInfo profile)
            = Some [("facebook", JStr "https://facebook.com/acme")]).
Proof.
  split; [|split].
  - eexists. split; [vm_compute; reflexivity | reflexivity].
  - vm_compute. reflexivity.
  - eexists. split; [vm_compute; reflexivity | split; reflexivity].
Qed.

(* ------------------------------------------------------------------ *)
(** ** Partially shaped records *)

(** A record that is not an object (a string, a number, a boolean or an
    array) and an object without any of the fields contribute nothing and do
    not throw. *)
Lemma extractRecord_skips_fieldless_values (extracted : Partial.t) (record : JsVal) :
  match record with
  | JUndefined | JNull => False
  | JObj props => props = []
  | _ => True
  end ->
  extractRecord extracted record = Ok extracted.
Proof.
  destruct record; simpl; intro H; try contradiction; try reflexivity.
  subst props. reflexivity.
Qed.

(** [null] among the records makes the extractor throw. *)
Example extractFromStructuredData_null_record :
  extractFromStructuredData [JNull; wellFormed] = Throw "Cannot read properties of null".
Proof. reflexivity. Qed.

(** C2, at the failing inputs: a record whose contactPoint is an empty list,
    a record whose employee or founder is a single object, and a record whose
    hasOfferCatalog.itemListElement is not a list each make
    [extractFromStructuredData] throw, so the well-formed record that follows
    is never processed; the same well-formed record alone is extracted. *)
Theorem extractFromStructuredData_throws_on_partial_records :
  extractFromStructuredData [emptyContactPoint; wellFormed]
    = Throw "Cannot read properties of undefined"
  /\ extractFromStructuredData [singleEmployee; wellFormed] = Throw "is not iterable"
  /\ extractFromStructuredData [singleFounder; wellFormed] = Throw "is not iterable"
  /\ extractFromStructuredData [catalogWithoutList; wellFormed]
     = Throw "services.forEach is not a function"
  /\ (exists structured,
         extractFromStructuredData [wellFormed] = Ok structured
         /\ Partial.companyName structured = JStr "Later Ltd")
  /\ extractData (mkScraped EmptyString EmptyString [] [emptyContactPoint; wellFormed]
                            "https://example.org/")
     = Throw "Cannot read properties of undefined".
Proof.
  repeat split; try (vm_compute; reflexivity).
  eexists. split; [vm_compute; reflexivity | reflexivity].
Qed.

(* ------------------------------------------------------------------ *)
(** ** The shape of a run of extractData *)

Lemma bind_Ok_inv {A B : Type} (m : Throws A) (f : A -> Throws B) (b : B) :
  bind m f = Ok b -> exists a, m = Ok a /\ f a = Ok b.
Proof.
  destruct m as [a|msg]; simpl; intro H.
  - exists a. split; [reflexivity | exact H].
  - discriminate.
Qed.

(** A run that returns went through every stage: the three extractors, the
    merge, the classifier and the cleaner. *)
Lemma extractData_stages (scrapedContent : ScrapedContent) (profile : ExtractedData) :
  extractData scrapedContent = Ok profile ->
  exists structured type,
    extractFromStructuredData (jsonLd scrapedContent) = Ok structured
    /\ classifyBusinessType
         (mergeExtractedData
            [ structured;
              extractFromMetaTags (metaTags scrapedContent);
              extractFromContent (textContent scrapedContent) (html scrapedContent) ])
       = Ok type
    /\ profile
       = cleanExtractedData
           (set_businessType type
              (mergeExtractedData
                 [ structured;
                   extractFromMetaTags (metaTags scrapedContent);
                   extractFromContent (textContent scrapedContent) (html scrapedContent) ])).
Proof.
  unfold extractData. intro H.
  apply bind_Ok_inv in H. destruct H as [structured [Hs H]].
  apply bind_Ok_inv in H. destruct H as [type [Ht H]].
  exists structured, type. split; [exact Hs|]. split; [exact Ht|].
  inversion H. reflexivity.
Qed.

(* ------------------------------------------------------------------ *)
(** ** Pages without structured data *)

Lemma joinVals_textual (sep : string) (items : list JsVal) :
  Forall textual items -> exists joined, joinVals sep items = Ok joined.
Proof.
  induction items as [|x rest IH]; intro Hall.
  - exists EmptyString. reflexivity.
  - inversion Hall as [|y l Hx Hrest]; subst.
    destruct (IH Hrest) as [joined Hjoined].
    destruct rest as [|z rest'].
    + destruct x; try contradiction; eexists; reflexivity.
    + destruct x; try contradiction; simpl in Hjoined |- *; rewrite Hjoined;
        eexists; reflexivity.
Qed.

Lemma extractFromMetaTags_textual (tags : list (string * string)) :
  textual (Partial.companyName (extractFromMetaTags tags))
  /\ textual (Partial.description (extractFromMetaTags tags))
  /\ textual (Partial.tagline (extractFromMetaTags tags)).
Proof.
  unfold extractFromMetaTags. cbv zeta.
  destruct (firstTag tags descriptionKeys); destruct (firstTag tags titleKeys);
    destruct (tag tags "twitter:title"); cbn;
    try match goal with |- context [if ?c then _ else _] => destruct c end;
    cbn; auto.
Qed.

Lemma extractFromContent_leaves_names (text markup : string) :
  Partial.companyName (extractFromContent text markup) = JUndefined
  /\ Partial.description (extractFromContent text markup) = JUndefined
  /\ Partial.tagline (extractFromContent text markup) = JUndefined.
Proof.
  unfold extractFromContent. cbv zeta.
  destruct (filter isContactEmail (match_g EMAIL text));
    destruct (match_g PHONE text);
    destruct (match_first servicesSection text);
    destruct (match_first missionSection text);
    destruct (match_g apiLink markup); cbn; auto.
Qed.

Lemma mergeValue_textual (existing value : JsVal) :
  textual existing -> textual value -> textual (mergeValue existing value).
Proof. destruct value; simpl; auto; contradiction. Qed.

(** Without structured-data records nothing in the pipeline can throw:
    [extractData] returns a profile for every such page. *)
Lemma extractData_returns_without_records (markup text : string)
      (tags : list (string * string)) (url : string) :
  exists profile, extractData (mkScraped markup text tags [] url) = Ok profile.
Proof.
  unfold extractData. cbn [jsonLd metaTags textContent html].
  change (extractFromStructuredData []) with (Ok (Partial.set_schemaData (Some []) emptyStructured)).
  cbn [bind].
  destruct (extractFromMetaTags_textual tags) as [Hn [Hd Ht]].
  destruct (extractFromContent_leaves_names text markup) as [Hcn [Hcd Hct]].
  set (merged := mergeExtractedData _).
  assert (Htext : exists allText, allTextOf merged = Ok allText).
  { unfold allTextOf.
    destruct (joinVals_textual " "
                ([companyName merged; description merged; tagline merged]
                   ++ map JStr (services merged) ++ map JStr (products merged)))
      as [joined Hjoined].
    - repeat constructor.
      + subst merged. unfold mergeExtractedData.
        cbn [fold_left mergeSource companyName emptyMerged].
        rewrite Hcn. apply mergeValue_textual; [|exact I].
        apply mergeValue_textual; [exact I | exact Hn].
      + subst merged. unfold mergeExtractedData.
        cbn [fold_left mergeSource description emptyMerged].
        rewrite Hcd. apply mergeValue_textual; [|exact I].
        apply mergeValue_textual; [exact I | exact Hd].
      + subst merged. unfold mergeExtractedData.
        cbn [fold_left mergeSource tagline emptyMerged].
        rewrite Hct. apply mergeValue_textual; [|exact I].
        apply mergeValue_textual; [exact I | exact Ht].
      + apply Forall_app. split; apply Forall_forall; intros v Hv;
          apply in_map_iff in Hv; destruct Hv as [str [<- _]]; exact I.
    - rewrite Hjoined. eexists. reflexivity. }
  destruct Htext as [allText Htext].
  unfold classifyBusinessType. rewrite Htext. cbn [bind]. eexists. reflexivity.
Qed.

(* ------------------------------------------------------------------ *)
(** ** The denylist *)

Lemma existsb_false_all {A : Type} (f : A -> bool) (l : list A) :
  existsb f l = false -> forall x, In x l -> f x = false.
Proof.
  induction l as [|y rest IH]; simpl; intros H x Hin.
  - destruct Hin.
  - apply orb_false_iff in H. destruct H as [Hy Hrest].
    destruct Hin as [<- | Hin]; [exact Hy | exact (IH Hrest x Hin)].
Qed.

Lemma not_excluded_passes (s : string) :
  containsExcludedContent s = false -> passesDenylist s.
Proof.
  unfold containsExcludedContent, passesDenylist. intros H term Hin.
  exact (existsb_false_all _ _ H term Hin).
Qed.

Lemma cleaned_entries_pass (data : ExtractedData) (s : string) :
  In s (services (cleanExtractedData data)) \/ In s (products (cleanExtractedData data)) ->
  passesDenylist s.
Proof.
  unfold cleanExtractedData. cbn [services products].
  intros [H | H]; apply filter_In in H; destruct H as [_ H];
    apply negb_true_iff in H; exact (not_excluded_passes s H).
Qed.

(** C3: every service and every product of a profile that [extractData]
    returns contains none of the denylist terms, in any letter case; the
    final cleaning step alone ensures it, for any profile it is given,
    filtered before or not; and the services Consulting, Pricing Plans,
    Support are cleaned to Consulting, Support. *)
Theorem extractData_entries_pass_denylist :
  (forall (scrapedContent : ScrapedContent) (profile : ExtractedData),
      extractData scrapedContent = Ok profile ->
      forall s, In s (services profile) \/ In s (products profile) ->
      forall term,
        In term [ "pricing"; "price"; "cost"; "fee"; "payment"; "credit card";
                  "api key"; "password"; "secret"; "private"; "confidential" ] ->
        includes (toLowerCase s) term = false)
  /\ (forall (data : ExtractedData) (s : string),
         In s (services (cleanExtractedData data)) \/ In s (products (cleanExtractedData data)) ->
         forall term,
           In term [ "pricing"; "price"; "cost"; "fee"; "payment"; "credit card";
                     "api key"; "password"; "secret"; "private"; "confidential" ] ->
           includes (toLowerCase s) term = false)
  /\ services (cleanExtractedData unfiltered) = ["Consulting"; "Support"].
Proof.
  split; [|split].
  - intros scrapedContent profile Hrun s Hin term Hterm.
    destruct (extractData_stages _ _ Hrun) as [structured [type [_ [_ ->]]]].
    exact (cleaned_entries_pass _ s Hin term Hterm).
  - intros data s Hin term Hterm. exact (cleaned_entries_pass data s Hin term Hterm).
  - reflexivity.
Qed.

Lemma extractData_entries_pass_denylist_witness :
  exists profile,
    extractData servicesPage = Ok profile
    /\ services profile = ["Consulting"; "Support and Training."]
    /\ includes (toLowerCase "Consulting") "pricing" = false.
Proof.
  eexists. split; [vm_compute; reflexivity|]. split; [reflexivity|].
  refine (proj1 extractData_entries_pass_denylist servicesPage _ _ "Consulting" _ "pricing" _).
  - vm_compute. reflexivity.
  - left. simpl. left. reflexivity.
  - simpl. left. reflexivity.
Defined.

(* ------------------------------------------------------------------ *)
(** ** Placeholders *)

Lemma cleaned_name_and_description (data : ExtractedData) :
  companyName (cleanExtractedData data)
  = (if truthy (companyName data) then companyName data else JStr "Company Name")
  /\ description (cleanExtractedData data)
     = (if truthy (description data) then description data
        else JStr "No description available.").
Proof. split; reflexivity. Qed.

Lemma value_or_placeholder_set (v : JsVal) (placeholder : string) :
  String.eqb placeholder EmptyString = false ->
  truthy (if truthy v then v else JStr placeholder) = true
  /\ (if truthy v then v else JStr placeholder) <> JStr EmptyString.
Proof.
  intro Hp. destruct (truthy v) eqn:Ht.
  - split; [exact Ht|]. intro Heq. rewrite Heq in Ht. discriminate.
  - split; [simpl; rewrite Hp; reflexivity|].
    intro Heq. inversion Heq as [Hs]. rewrite Hs in Hp. discriminate.
Qed.

Lemma merge_of_unset (a b c : JsVal) :
  a = JUndefined -> b = JUndefined -> c = JUndefined ->
  mergeValue (mergeValue (mergeValue JUndefined a) b) c = JUndefined.
Proof. intros -> -> ->. reflexivity. Qed.

Lemma score_without_cap (data : ExtractedData) :
  calculateQualityScore data = fold_right Z.add 0%Z (contributions data).
Proof.
  rewrite calculateQualityScore_cappedSum. unfold cappedSum.
  pose proof (contributions_total_bounds data). lia.
Qed.

(** C9: a profile returned by [extractData] has a companyName and a
    description that are set and not empty; when none of the three sources
    sets the field, it holds the exact placeholder, 'Company Name' or
    'No description available.'; and the scorer gives a field its 10 points
    exactly when it is set and differs from that placeholder, so a
    placeholder scores like a missing field. *)
Theorem extractData_placeholders :
  (forall (scrapedContent : ScrapedContent) (profile : ExtractedData),
      extractData scrapedContent = Ok profile ->
      (truthy (companyName profile) = true /\ companyName profile <> JStr EmptyString)
      /\ (truthy (description profile) = true /\ description profile <> JStr EmptyString)
      /\ (forall structured,
             extractFromStructuredData (jsonLd scrapedContent) = Ok structured ->
             Partial.companyName structured = JUndefined ->
             Partial.companyName (extractFromMetaTags (metaTags scrapedContent)) = JUndefined ->
             Partial.companyName
               (extractFromContent (textContent scrapedContent) (html scrapedContent))
             = JUndefined ->
             companyName profile = JStr "Company Name")
      /\ (forall structured,
             extractFromStructuredData (jsonLd scrapedContent) = Ok structured ->
             Partial.description structured = JUndefined ->
             Partial.description (extractFromMetaTags (metaTags scrapedContent)) = JUndefined ->
             Partial.description
               (extractFromContent (textContent scrapedContent) (html scrapedContent))
             = JUndefined ->
             description profile = JStr "No description available."))
  /\ (forall (data : ExtractedData) (v : JsVal),
         calculateQualityScore (withCompanyName v data)
         = (calculateQualityScore (withCompanyName JUndefined data)
            + (if truthy v && negb (is_str v "Company Name") then 10 else 0))%Z
         /\ calculateQualityScore (withDescription v data)
            = (calculateQualityScore (withDescription JUndefined data)
               + (if truthy v && negb (is_str v "No description available.") then 10 else 0))%Z)
  /\ (forall data : ExtractedData,
         calculateQualityScore (withCompanyName (JStr "Company Name") data)
         = calculateQualityScore (withCompanyName JUndefined data)
         /\ calculateQualityScore (withDescription (JStr "No description available.") data)
            = calculateQualityScore (withDescription JUndefined data)).
Proof.
  assert (Hscore : forall (data : ExtractedData) (v : JsVal),
             calculateQualityScore (withCompanyName v data)
             = (calculateQualityScore (withCompanyName JUndefined data)
                + (if truthy v && negb (is_str v "Company Name") then 10 else 0))%Z
             /\ calculateQualityScore (withDescription v data)
                = (calculateQualityScore (withDescription JUndefined data)
                   + (if truthy v && negb (is_str v "No description available.")
                      then 10 else 0))%Z).
  { intros data v. rewrite !score_without_cap.
    unfold contributions, withCompanyName, withDescription, resolved, contributedSocial,
      contributedSchema, worth.
    cbn [fold_right companyName description services products contactInfo mission teamInfo
         apiDocs schemaData truthy is_str andb].
    split; lia. }
  split; [|split].
  - intros scrapedContent profile Hrun.
    destruct (extractData_stages _ _ Hrun) as [structured [type [Hs [_ ->]]]].
    destruct (cleaned_name_and_description
                (set_businessType type
                   (mergeExtractedData
                      [ structured;
                        extractFromMetaTags (metaTags scrapedContent);
                        extractFromContent (textContent scrapedContent)
                                           (html scrapedContent) ]))) as [Hn Hd].
    rewrite Hn, Hd. cbn [set_businessType companyName description].
    split; [|split; [|split]].
    + apply value_or_placeholder_set. reflexivity.
    + apply value_or_placeholder_set. reflexivity.
    + intros structured' Hs' H1 H2 H3.
      rewrite Hs in Hs'. inversion Hs'; subst structured'.
      unfold mergeExtractedData. cbn [fold_left mergeSource companyName emptyMerged].
      rewrite (merge_of_unset _ _ _ H1 H2 H3). reflexivity.
    + intros structured' Hs' H1 H2 H3.
      rewrite Hs in Hs'. inversion Hs'; subst structured'.
      unfold mergeExtractedData. cbn [fold_left mergeSource description emptyMerged].
      rewrite (merge_of_unset _ _ _ H1 H2 H3). reflexivity.
  - exact Hscore.
  - intro data.
    destruct (Hscore data (JStr "Company Name")) as [H1 _].
    destruct (Hscore data (JStr "No description available.")) as [_ H2].
    rewrite H1, H2. cbn. split; lia.
Qed.

Lemma extractData_placeholders_witness :
  exists profile,
    extractData blankPage = Ok profile
    /\ companyName profile = JStr "Company Name"
    /\ description profile = JStr "No description available."
    /\ calculateQualityScore profile = 0%Z.
Proof.
  eexists. split; [vm_compute; reflexivity|].
  split; [|split; [|reflexivity]].
  - refine (proj1 (proj2 (proj2 (proj1 extractData_placeholders blankPage _ _)))
                  _ _ _ _ _);
      vm_compute; reflexivity.
  - refine (proj2 (proj2 (proj2 (proj1 extractData_placeholders blankPage _ _)))
                  _ _ _ _ _);
      vm_compute; reflexivity.
Defined.

(* ------------------------------------------------------------------ *)
(** ** classifyBusinessType *)

Lemma keywordScore_from (allText : string) (keywords : list string) (start : nat) :
  fold_left (fun score keyword => if includes allText keyword then S score else score)
            keywords start
  = (start + matchCount allText keywords)%nat.
Proof.
  revert start. unfold matchCount.
  induction keywords as [|keyword rest IH]; intro start; simpl.
  - lia.
  - rewrite IH. destruct (includes allText keyword); simpl; lia.
Qed.

(** The counter the code increments is the number of keywords that occur. *)
Lemma keywordScore_matchCount (allText : string) (keywords : list string) :
  keywordScore allText keywords = matchCount allText keywords.
Proof. unfold keywordScore. rewrite keywordScore_from. reflexivity. Qed.

Lemma matchCount_le_length (allText : string) (keywords : list string) :
  (matchCount allText keywords <= length keywords)%nat.
Proof. unfold matchCount. apply filter_length_le. Qed.

Lemma classifyText_cases (allText : string) :
  let c := countOf allText catalog in
  let s := countOf allText specialist in
  let e := countOf allText ecosystem in
  (classifyText allText = catalog /\ (s <= c)%nat /\ (e <= c)%nat)
  \/ (classifyText allText = ecosystem /\ ((c < s)%nat \/ (c < e)%nat) /\ (s <= e)%nat)
  \/ (classifyText allText = specialist /\ ((c < s)%nat \/ (c < e)%nat) /\ (e < s)%nat).
Proof.
  unfold classifyText, highestScore, countOf. cbn [keywordsOf].
  rewrite !keywordScore_matchCount.
  set (c := matchCount allText BUSINESS_TYPE_KEYWORDS.catalog).
  set (s := matchCount allText BUSINESS_TYPE_KEYWORDS.specialist).
  set (e := matchCount allText BUSINESS_TYPE_KEYWORDS.ecosystem).
  cbv zeta.
  destruct (Nat.leb_spec s c); destruct (Nat.leb_spec e c); cbn [andb];
    destruct (Nat.leb_spec s e); auto 10 with arith.
Qed.

(** C6 as stated fails in its last clause, that specialist is the result
    whenever no archetype leads outright: the profile with no text at all has
    the text of two spaces, no keyword occurs in it, no archetype leads, and
    the classifier answers catalog. *)
Lemma classifyBusinessType_default_counterexample :
  allTextOf emptyMerged = Ok "  "
  /\ (countOf "  " catalog = 0 /\ countOf "  " specialist = 0 /\ countOf "  " ecosystem = 0)%nat
  /\ classifyBusinessType emptyMerged = Ok catalog
  /\ ~ (forall (data : ExtractedData) (allText : string),
          allTextOf data = Ok allText ->
          (forall type, ~ leadsOutright allText type) ->
          classifyBusinessType data = Ok specialist).
Proof.
  split; [reflexivity|]. split; [repeat split|]. split; [reflexivity|].
  intro Hclaim.
  assert (Hrun : classifyBusinessType emptyMerged = Ok catalog) by reflexivity.
  rewrite (Hclaim emptyMerged "  ") in Hrun.
  - discriminate.
  - reflexivity.
  - intros type Hlead.
    destruct type.
    + specialize (Hlead specialist). vm_compute in Hlead.
      assert (H : specialist <> catalog) by discriminate.
      specialize (Hlead H). inversion Hlead.
    + specialize (Hlead catalog). vm_compute in Hlead.
      assert (H : catalog <> specialist) by discriminate.
      specialize (Hlead H). inversion Hlead.
    + specialize (Hlead catalog). vm_compute in Hlead.
      assert (H : catalog <> ecosystem) by discriminate.
      specialize (Hlead H). inversion Hlead.
Qed.

(** C6, amended: the archetype depends only on the profile text; it is an
    archetype with the highest count of keywords occurring in that text,
    each keyword counted once; among the archetypes with the highest count
    the first in the order catalog, ecosystem, specialist is returned; hence
    specialist is returned exactly when it leads outright, and catalog is
    returned when no keyword occurs at all. *)
Theorem classifyBusinessType_highest_count_fixed_tie_break :
  (forall data1 data2 : ExtractedData,
      allTextOf data1 = allTextOf data2 ->
      classifyBusinessType data1 = classifyBusinessType data2)
  /\ (forall (data : ExtractedData) (type : BusinessType),
         classifyBusinessType data = Ok type ->
         exists allText,
           allTextOf data = Ok allText
           /\ (forall other,
                  keywordScore allText (keywordsOf other)
                  = length (filter (fun keyword => includes allText keyword) (keywordsOf other))
                  /\ (countOf allText other <= length (keywordsOf other))%nat)
           /\ (forall other, (countOf allText other <= countOf allText type)%nat)
           /\ (forall other,
                  countOf allText other = countOf allText type ->
                  (rank type <= rank other)%nat)
           /\ (type = specialist <-> leadsOutright allText specialist)
           /\ ((forall other, countOf allText other = 0%nat) -> type = catalog)).
Proof.
  split.
  - intros data1 data2 Heq. unfold classifyBusinessType. rewrite Heq. reflexivity.
  - intros data type Hrun. unfold classifyBusinessType in Hrun.
    apply bind_Ok_inv in Hrun. destruct Hrun as [allText [Htext Hrun]].
    inversion Hrun as [Htype]. clear Hrun.
    exists allText. split; [exact Htext|].
    split.
    { intro other. split.
      - apply keywordScore_matchCount.
      - apply matchCount_le_length. }
    pose proof (classifyText_cases allText) as Hcases. cbv zeta in Hcases.
    unfold leadsOutright.
    destruct Hcases as [[-> [H1 H2]] | [[-> [H1 H2]] | [-> [H1 H2]]]].
    + split; [intros []; lia|]. split; [intros []; simpl; lia|].
      split; [|reflexivity].
      split; [discriminate|]. intro Hlead.
      assert (Hne : catalog <> specialist) by discriminate.
      specialize (Hlead catalog Hne). lia.
    + split; [intros []; lia|]. split; [intros []; simpl; lia|].
      split.
      * split; [discriminate|]. intro Hlead.
        assert (Hne : ecosystem <> specialist) by discriminate.
        specialize (Hlead ecosystem Hne). lia.
      * intro Hzero. pose proof (Hzero catalog). pose proof (Hzero specialist).
        pose proof (Hzero ecosystem). lia.
    + split; [intros []; lia|]. split; [intros []; simpl; lia|].
      split.
      * split; [|reflexivity]. intros _ other Hne. destruct other; [lia | congruence | lia].
      * intro Hzero. pose proof (Hzero catalog). pose proof (Hzero specialist).
        pose proof (Hzero ecosystem). lia.
Qed.

Lemma classifyBusinessType_highest_count_fixed_tie_break_witness :
  classifyBusinessType (withCompanyName (JStr "Expert Agency") emptyMerged) = Ok specialist
  /\ exists allText,
       allTextOf (withCompanyName (JStr "Expert Agency") emptyMerged) = Ok allText
       /\ (forall other, (countOf allText other <= countOf allText specialist)%nat).
Proof.
  split; [reflexivity|].
  destruct (proj2 classifyBusinessType_highest_count_fixed_tie_break
                  (withCompanyName (JStr "Expert Agency") emptyMerged) specialist eq_refl)
    as [allText [Htext [_ [Hmax _]]]].
  exists allText. split; [exact Htext | exact Hmax].
Defined.

(* ------------------------------------------------------------------ *)
(** ** Deduplication in the merge *)

Section Dedup.

Lemma seen_iff_In (x : string) (l : list string) :
  existsb (String.eqb x) l = true <-> In x l.
Proof.
  rewrite existsb_exists. split.
  - intros [y [Hin Heq]]. apply String.eqb_eq in Heq. subst y. exact Hin.
  - intro Hin. exists x. split; [exact Hin | apply String.eqb_refl].
Qed.

Lemma unseen_iff_not_In (x : string) (l : list string) :
  existsb (String.eqb x) l = false <-> ~ In x l.
Proof.
  rewrite <- seen_iff_In. destruct (existsb (String.eqb x) l); split; intro H.
  - discriminate.
  - exfalso. apply H. reflexivity.
  - discriminate.
  - reflexivity.
Qed.

(** Adding the elements of [l] to a set only appends to it. *)
Lemma set_adds_append (l acc : list string) :
  exists tail, fold_left (set_add String.eqb) l acc = acc ++ tail.
Proof.
  revert acc. induction l as [|x rest IH]; intro acc; simpl.
  - exists []. rewrite app_nil_r. reflexivity.
  - unfold set_add at 2. destruct (existsb (String.eqb x) acc).
    + apply IH.
    + destruct (IH (acc ++ [x])) as [tail Htail]. exists (x :: tail).
      rewrite Htail, <- app_assoc. reflexivity.
Qed.

(** The set built by the code and the stable deduplication of the
    specification agree, whatever was seen before, as long as both have
    seen the same values. *)
Lemma set_adds_keepFirst (l acc seen : list string) :
  (forall y, In y acc <-> In y seen) ->
  fold_left (set_add String.eqb) l acc = acc ++ keepFirst seen l.
Proof.
  revert acc seen. induction l as [|x rest IH]; intros acc seen Hsame; simpl.
  - rewrite app_nil_r. reflexivity.
  - unfold set_add at 2.
    destruct (existsb (String.eqb x) acc) eqn:Hacc.
    + assert (Hseen : existsb (String.eqb x) seen = true).
      { apply seen_iff_In. apply Hsame. apply seen_iff_In. exact Hacc. }
      rewrite Hseen. apply IH. exact Hsame.
    + assert (Hseen : existsb (String.eqb x) seen = false).
      { apply unseen_iff_not_In. intro Hin. apply Hsame in Hin.
        apply unseen_iff_not_In in Hacc. contradiction. }
      rewrite Hseen. rewrite (IH (acc ++ [x]) (x :: seen)).
      * rewrite <- app_assoc. reflexivity.
      * intro y. rewrite in_app_iff. simpl. rewrite Hsame. tauto.
Qed.

Lemma uniq_stableDedup (l : list string) : uniq String.eqb l = stableDedup l.
Proof.
  unfold uniq, stableDedup. rewrite (set_adds_keepFirst l [] []); [reflexivity|].
  intro y. tauto.
Qed.

Lemma keepFirst_In (l seen : list string) (x : string) :
  In x (keepFirst seen l) <-> In x l /\ ~ In x seen.
Proof.
  revert seen. induction l as [|y rest IH]; intro seen; simpl.
  - tauto.
  - destruct (existsb (String.eqb y) seen) eqn:Hseen.
    + apply seen_iff_In in Hseen. rewrite IH. split.
      * intros [H1 H2]. auto.
      * intros [[-> | H1] H2]; [contradiction | auto].
    + apply unseen_iff_not_In in Hseen. simpl. rewrite IH. simpl. split.
      * intros [-> | [H1 H2]]; [auto | split; [auto | tauto]].
      * intros [[-> | H1] H2]; [auto|].
        destruct (string_dec y x) as [-> | Hne]; [auto|]. right. split; [auto|]. tauto.
Qed.

Lemma keepFirst_NoDup (l seen : list string) : NoDup (keepFirst seen l).
Proof.
  revert seen. induction l as [|y rest IH]; intro seen; simpl.
  - constructor.
  - destruct (existsb (String.eqb y) seen).
    + apply IH.
    + constructor; [|apply IH]. rewrite keepFirst_In. simpl. tauto.
Qed.

(** A list without duplicates is its own deduplication. *)
Lemma set_adds_nodup (l acc : list string) :
  NoDup (acc ++ l) -> fold_left (set_add String.eqb) l acc = acc ++ l.
Proof.
  revert acc. induction l as [|x rest IH]; intros acc Hnd; simpl.
  - rewrite app_nil_r. reflexivity.
  - unfold set_add at 2.
    assert (Hx : existsb (String.eqb x) acc = false).
    { apply unseen_iff_not_In. apply NoDup_remove_2 in Hnd.
      intro Hin. apply Hnd. apply in_or_app. left. exact Hin. }
    rewrite Hx. rewrite IH; rewrite <- app_assoc; [reflexivity | exact Hnd].
Qed.

Lemma uniq_NoDup (l : list string) : NoDup (uniq String.eqb l).
Proof. rewrite uniq_stableDedup. apply keepFirst_NoDup. Qed.

Lemma uniq_idempotent (l : list string) :
  uniq String.eqb (uniq String.eqb l) = uniq String.eqb l.
Proof.
  unfold uniq at 1. rewrite set_adds_nodup; [reflexivity|]. apply uniq_NoDup.
Qed.

Lemma uniq_app_uniq (a b : list string) :
  uniq String.eqb (uniq String.eqb a ++ b) = uniq String.eqb (a ++ b).
Proof.
  unfold uniq at 1. rewrite fold_left_app. fold (uniq String.eqb (uniq String.eqb a)).
  rewrite uniq_idempotent. unfold uniq. rewrite fold_left_app. reflexivity.
Qed.

(** One step of the merge keeps the invariant that the merged array is the
    deduplication of everything contributed so far. *)
Lemma mergeArray_step (sofar : list string) (value : option (list string)) :
  mergeArray (uniq String.eqb sofar) value = uniq String.eqb (sofar ++ contributed value).
Proof.
  destruct value as [added|]; simpl.
  - apply uniq_app_uniq.
  - rewrite app_nil_r. reflexivity.
Qed.

Lemma mergeArray_three (v1 v2 v3 : option (list string)) :
  mergeArray (mergeArray (mergeArray [] v1) v2) v3
  = stableDedup (contributed v1 ++ contributed v2 ++ contributed v3).
Proof.
  change (@nil string) with (uniq String.eqb []) at 1.
  rewrite !mergeArray_step. simpl app. rewrite <- app_assoc. apply uniq_stableDedup.
Qed.

Lemma stableDedup_firstSeenOrder (l : list string) : firstSeenOrder l (stableDedup l).
Proof.
  unfold firstSeenOrder. split; [reflexivity|]. split; [apply keepFirst_NoDup|]. split.
  - intro x. unfold stableDedup. rewrite keepFirst_In. simpl. tauto.
  - intros pre x post -> Hfirst. rewrite <- !uniq_stableDedup.
    unfold uniq at 1. rewrite fold_left_app. fold (uniq String.eqb pre). simpl.
    unfold set_add at 2.
    assert (Hx : existsb (String.eqb x) (uniq String.eqb pre) = false).
    { apply unseen_iff_not_In. rewrite uniq_stableDedup. unfold stableDedup.
      rewrite keepFirst_In. tauto. }
    rewrite Hx. destruct (set_adds_append post (uniq String.eqb pre ++ [x])) as [tail ->].
    exists tail. rewrite <- app_assoc. reflexivity.
Qed.

Lemma cleanExtractedData_arrays_NoDup (data : ExtractedData) :
  NoDup (services (cleanExtractedData data))
  /\ NoDup (products (cleanExtractedData data))
  /\ NoDup (teamInfo (cleanExtractedData data)).
Proof.
  unfold cleanExtractedData. cbn [services products teamInfo].
  repeat split; repeat apply NoDup_filter; apply uniq_NoDup.
Qed.

End Dedup.

(** C7: for every three partial profiles merged in the order structured,
    meta, text, each of the arrays services, products and teamInfo of the
    merged profile is the concatenation of the three sources' arrays with
    later duplicates dropped: it has no duplicate, it holds exactly the
    contributed values, and each value stands where its first occurrence in
    the concatenation puts it; the cleaning step that follows the merge keeps
    the arrays free of duplicates. *)
Theorem mergeExtractedData_arrays_first_seen_order :
  forall structured meta text : Partial.t,
    let merged := mergeExtractedData [structured; meta; text] in
    firstSeenOrder
      (contributed (Partial.services structured) ++ contributed (Partial.services meta)
         ++ contributed (Partial.services text))
      (services merged)
    /\ firstSeenOrder
         (contributed (Partial.products structured) ++ contributed (Partial.products meta)
            ++ contributed (Partial.products text))
         (products merged)
    /\ firstSeenOrder
         (contributed (Partial.teamInfo structured) ++ contributed (Partial.teamInfo meta)
            ++ contributed (Partial.teamInfo text))
         (teamInfo merged)
    /\ (NoDup (services (cleanExtractedData merged))
        /\ NoDup (products (cleanExtractedData merged))
        /\ NoDup (teamInfo (cleanExtractedData merged))).
Proof.
  intros structured meta text merged.
  split; [|split; [|split]]; [| | |apply cleanExtractedData_arrays_NoDup].
  all: subst merged; unfold mergeExtractedData;
    cbn [fold_left mergeSource services products teamInfo emptyMerged];
    rewrite mergeArray_three; apply stableDedup_firstSeenOrder.
Qed.

Lemma mergeExtractedData_arrays_first_seen_order_witness :
  services (mergeExtractedData
              [ Partial.set_services (Some ["Design"; "Support"; "Design"]) emptyStructured;
                emptyMeta;
                Partial.set_services (Some ["Support"; "Audit"]) emptyContent ])
  = ["Design"; "Support"; "Audit"]
  /\ exists tail,
       services (mergeExtractedData
                   [ Partial.set_services (Some ["Design"; "Support"; "Design"]) emptyStructured;
                     emptyMeta;
                     Partial.set_services (Some ["Support"; "Audit"]) emptyContent ])
       = stableDedup ["Design"; "Support"; "Design"; "Support"] ++ "Audit" :: tail.
Proof.
  split; [reflexivity|].
  refine (proj2 (proj2 (proj2 (proj1
            (mergeExtractedData_arrays_first_seen_order
               (Partial.set_services (Some ["Design"; "Support"; "Design"]) emptyStructured)
               emptyMeta
               (Partial.set_services (Some ["Support"; "Audit"]) emptyContent)))))
            ["Design"; "Support"; "Design"; "Support"] "Audit" [] _ _).
  - reflexivity.
  - simpl. intros [H | [H | [H | [H | H]]]]; try discriminate H. exact H.
Defined.

(* ------------------------------------------------------------------ *)
(** ** The text and meta extractors on the specification's examples *)

Example mission_is_captured_and_trimmed :
  Partial.mission
    (extractFromContent "Our mission: To deliver excellence in logistics." EmptyString)
  = JStr "To deliver excellence in logistics.".
Proof. vm_compute. reflexivity. Qed.

Example cleanCompanyName_drops_separator_and_suffix :
  cleanCompanyName "Acme Corp - Official" = "Acme"
  /\ cleanCompanyName "Globex LLC. " = "Globex LLC."
  /\ cleanCompanyName "Globex llc." = "Globex"
  /\ cleanCompanyName "Initech | Home" = "Initech".
Proof. repeat split; vm_compute; reflexivity. Qed.

(* ------------------------------------------------------------------ *)
(** ** The contact email of the text extractor *)

(** The first element a filter keeps, and what it skipped before it. *)
Lemma filter_first {A : Type} (keep : A -> bool) (l : list A) (x : A) (rest : list A) :
  filter keep l = x :: rest ->
  exists earlier later,
    l = earlier ++ x :: later
    /\ keep x = true
    /\ Forall (fun y => keep y = false) earlier.
Proof.
  induction l as [|y l' IH]; simpl; intro H.
  - discriminate.
  - destruct (keep y) eqn:Hy.
    + inversion H; subst. exists [], l'. split; [reflexivity|]. split; [exact Hy | constructor].
    + destruct (IH H) as [earlier [later [Hl [Hx Hearlier]]]].
      exists (y :: earlier), later. split; [rewrite Hl; reflexivity|].
      split; [exact Hx|]. constructor; assumption.
Qed.

(** The email of the extracted contact record is decided by the first
    statement of [extractFromContent]; the later ones leave it alone. *)
Lemma extractFromContent_email (textContent html : string) (contact : ContactInfo) :
  Partial.contactInfo (extractFromContent textContent html) = Some contact ->
  email contact
  = match filter isContactEmail (match_g EMAIL textContent) with
    | first :: _ => Some (JStr first)
    | [] => None
    end.
Proof.
  unfold extractFromContent. cbv zeta.
  destruct (filter isContactEmail (match_g EMAIL textContent)) as [|first others];
    destruct (match_g PHONE textContent) as [|firstPhone otherPhones];
    destruct (match_first servicesSection textContent) as [servicesMatch|];
    destruct (match_first missionSection textContent) as [missionMatch|];
    destruct (match_g apiLink html) as [|link links];
    cbn; intro H; inversion H; reflexivity.
Qed.

(** C8: the filter keeps a personal address.  In a text whose only address
    is bob@infosys.com the extractor sets that address as the contact email:
    the filter looks for the words contact, info, support, sales in the
    whole address and finds info in the domain, while the local part, bob,
    contains none of them.  So it is not true that every selected address
    has one of the four words in its local part, although the filter is
    there to drop personal addresses and keep general contact addresses. *)
Theorem extractFromContent_keeps_personal_address :
  match_g EMAIL "Write to bob@infosys.com" = ["bob@infosys.com"]
  /\ (exists contact,
         Partial.contactInfo (extractFromContent "Write to bob@infosys.com" EmptyString)
         = Some contact
         /\ email contact = Some (JStr "bob@infosys.com"))
  /\ localPart "bob@infosys.com" = "bob"
  /\ mentionsContactWord (localPart "bob@infosys.com") = false
  /\ ~ (forall (textContent markup : string) (contact : ContactInfo) (chosen : string),
          Partial.contactInfo (extractFromContent textContent markup) = Some contact ->
          email contact = Some (JStr chosen) ->
          mentionsContactWord (localPart chosen) = true).
Proof.
  split; [vm_compute; reflexivity|].
  split; [eexists; split; [vm_compute; reflexivity | reflexivity]|].
  split; [reflexivity|]. split; [reflexivity|].
  intro Hclaim.
  specialize (Hclaim "Write to bob@infosys.com" EmptyString
                     (mkContact (Some (JStr "bob@infosys.com")) None None None)
                     "bob@infosys.com").
  assert (Hword : mentionsContactWord (localPart "bob@infosys.com") = false) by reflexivity.
  rewrite Hclaim in Hword.
  - discriminate.
  - vm_compute. reflexivity.
  - reflexivity.
Qed.

(** X27: the email filter as the code applies it.  If the text extractor
    sets a contact email, it is the first match of the email pattern in the
    text that contains none of the three substrings made of an at sign, one
    of gmail, yahoo, hotmail, and a dot, and that contains one of the
    substrings contact, info, support, sales anywhere in the address, local
    part or domain; every earlier match fails one of the two tests. *)
Theorem extractFromContent_email_first_survivor :
  forall (textContent html : string) (contact : ContactInfo) (address : JsVal),
    Partial.contactInfo (extractFromContent textContent html) = Some contact ->
    email contact = Some address ->
    exists chosen earlier later,
      address = JStr chosen
      /\ match_g EMAIL textContent = earlier ++ chosen :: later
      /\ includes chosen "@gmail." = false
      /\ includes chosen "@yahoo." = false
      /\ includes chosen "@hotmail." = false
      /\ (includes chosen "contact" || includes chosen "info"
          || includes chosen "support" || includes chosen "sales") = true
      /\ Forall (fun candidate =>
                   (negb (includes candidate "@gmail.")
                    && negb (includes candidate "@yahoo.")
                    && negb (includes candidate "@hotmail.")
                    && (includes candidate "contact" || includes candidate "info"
                        || includes candidate "support" || includes candidate "sales"))
                   = false)
                earlier.
Proof.
  intros textContent html contact address Hcontact Hemail.
  rewrite (extractFromContent_email _ _ _ Hcontact) in Hemail.
  destruct (filter isContactEmail (match_g EMAIL textContent)) as [|chosen others] eqn:Hfilter.
  - discriminate.
  - inversion Hemail; subst address.
    destruct (filter_first _ _ _ _ Hfilter) as [earlier [later [Hall [Hkeep Hskipped]]]].
    exists chosen, earlier, later. split; [reflexivity|]. split; [exact Hall|].
    unfold isContactEmail in Hkeep.
    apply andb_true_iff in Hkeep. destruct Hkeep as [Hkeep Hword].
    apply andb_true_iff in Hkeep. destruct Hkeep as [Hkeep Hhotmail].
    apply andb_true_iff in Hkeep. destruct Hkeep as [Hgmail Hyahoo].
    apply negb_true_iff in Hgmail, Hyahoo, Hhotmail.
    repeat (split; [assumption|]). exact Hskipped.
Qed.

Lemma extractFromContent_email_first_survivor_witness :
  exists contact chosen earlier later,
    Partial.contactInfo
      (extractFromContent "Ask jane@gmail.com or sales@acme.io or info@acme.io" EmptyString)
    = Some contact
    /\ email contact = Some (JStr chosen)
    /\ match_g EMAIL "Ask jane@gmail.com or sales@acme.io or info@acme.io"
       = earlier ++ chosen :: later
    /\ includes chosen "@gmail." = false.
Proof.
  destruct (extractFromContent_email_first_survivor
              "Ask jane@gmail.com or sales@acme.io or info@acme.io" EmptyString
              (mkContact (Some (JStr "sales@acme.io")) None None None)
              (JStr "sales@acme.io"))
    as [chosen [earlier [later [Haddr [Hall [Hgmail _]]]]]].
  - vm_compute. reflexivity.
  - reflexivity.
  - exists (mkContact (Some (JStr "sales@acme.io")) None None None), chosen, earlier, later.
    split; [vm_compute; reflexivity|].
    split; [simpl; rewrite Haddr; reflexivity|].
    split; [exact Hall | exact Hgmail].
Defined.

(* ================================================================== *)
(** * Further properties of the code *)

(* ------------------------------------------------------------------ *)
(** ** cleanExtractedData *)

Lemma filter_all_true {A : Type} (f : A -> bool) (l : list A) :
  (forall x, In x l -> f x = true) -> filter f l = l.
Proof.
  induction l as [|y rest IH]; simpl; intro H.
  - reflexivity.
  - rewrite (H y) by (left; reflexivity). f_equal. apply IH.
    intros x Hx. apply H. right. exact Hx.
Qed.

Lemma uniq_of_NoDup (l : list string) : NoDup l -> uniq String.eqb l = l.
Proof. intro H. unfold uniq. rewrite set_adds_nodup; [reflexivity | exact H]. Qed.

Lemma uniq_In (l : list string) (x : string) : In x (uniq String.eqb l) <-> In x l.
Proof.
  rewrite uniq_stableDedup. unfold stableDedup. rewrite keepFirst_In. simpl. tauto.
Qed.

(** Deduplicating and filtering a list that was already deduplicated and
    filtered changes nothing. *)
Lemma uniq_filter_again (keep : string -> bool) (l : list string) :
  filter keep (uniq String.eqb (filter keep (uniq String.eqb l)))
  = filter keep (uniq String.eqb l).
Proof.
  rewrite (uniq_of_NoDup (filter keep (uniq String.eqb l))).
  - apply filter_all_true. intros x Hx. apply filter_In in Hx. tauto.
  - apply NoDup_filter. apply uniq_NoDup.
Qed.

Lemma cleaned_list_again (l : list string) :
  filter (fun s => negb (containsExcludedContent s))
         (filter nonEmpty
                 (uniq String.eqb
                       (filter (fun s => negb (containsExcludedContent s))
                               (filter nonEmpty (uniq String.eqb l)))))
  = filter (fun s => negb (containsExcludedContent s)) (filter nonEmpty (uniq String.eqb l)).
Proof.
  set (cleaned := filter (fun s => negb (containsExcludedContent s))
                         (filter nonEmpty (uniq String.eqb l))).
  assert (Hnd : NoDup cleaned).
  { unfold cleaned. repeat apply NoDup_filter. apply uniq_NoDup. }
  rewrite (uniq_of_NoDup cleaned Hnd).
  rewrite (filter_all_true nonEmpty cleaned).
  - apply filter_all_true. intros x Hx. unfold cleaned in Hx.
    apply filter_In in Hx. tauto.
  - intros x Hx. unfold cleaned in Hx. apply filter_In in Hx. destruct Hx as [Hx _].
    apply filter_In in Hx. tauto.
Qed.

(** X1: cleaning is idempotent: a profile that went through
    [cleanExtractedData] is left unchanged by a second pass. *)
Theorem cleanExtractedData_idempotent :
  forall data : ExtractedData,
    cleanExtractedData (cleanExtractedData data) = cleanExtractedData data.
Proof.
  intro data. unfold cleanExtractedData.
  cbn [companyName tagline description services products contactInfo mission teamInfo
       apiDocs schemaData businessType].
  rewrite !cleaned_list_again. rewrite uniq_filter_again.
  f_equal.
  - destruct (truthy (companyName data)) eqn:Hn; [rewrite Hn; reflexivity | reflexivity].
  - destruct (truthy (description data)) eqn:Hd; [rewrite Hd; reflexivity | reflexivity].
Qed.

Lemma nonEmpty_true_iff (s : string) : nonEmpty s = true <-> s <> EmptyString.
Proof.
  unfold nonEmpty. destruct (String.eqb_spec s EmptyString) as [-> | Hne]; simpl; split;
    intro H; congruence.
Qed.

(** X2: cleaning only removes entries.  A string is a service (a product) of
    the cleaned profile exactly when it is a service (a product) of the
    given profile, is not empty and contains no excluded term; it is a team
    entry of the cleaned profile exactly when it is a non-empty team entry of
    the given profile. *)
Theorem cleanExtractedData_keeps_exactly :
  forall (data : ExtractedData) (s : string),
    (In s (services (cleanExtractedData data))
     <-> In s (services data) /\ s <> EmptyString /\ containsExcludedContent s = false)
    /\ (In s (products (cleanExtractedData data))
        <-> In s (products data) /\ s <> EmptyString /\ containsExcludedContent s = false)
    /\ (In s (teamInfo (cleanExtractedData data))
        <-> In s (teamInfo data) /\ s <> EmptyString).
Proof.
  intros data s. unfold cleanExtractedData. cbn [services products teamInfo].
  rewrite !filter_In, !uniq_In, !nonEmpty_true_iff, !negb_true_iff. tauto.
Qed.

(* ------------------------------------------------------------------ *)
(** ** What extractData passes on *)

Lemma extractFromStructuredData_schemaData (records : list JsVal) (structured : Partial.t) :
  extractFromStructuredData records = Ok structured ->
  Partial.schemaData structured = Some records.
Proof.
  unfold extractFromStructuredData. intro H.
  apply bind_Ok_inv in H. destruct H as [extracted [_ H]].
  inversion H. reflexivity.
Qed.

Lemma extractFromMetaTags_frame (tags : list (string * string)) :
  Partial.services (extractFromMetaTags tags) = Some []
  /\ Partial.products (extractFromMetaTags tags) = Some []
  /\ Partial.contactInfo (extractFromMetaTags tags) = Some emptyContact
  /\ Partial.mission (extractFromMetaTags tags) = JUndefined
  /\ Partial.teamInfo (extractFromMetaTags tags) = None
  /\ Partial.apiDocs (extractFromMetaTags tags) = JUndefined
  /\ Partial.schemaData (extractFromMetaTags tags) = None
  /\ Partial.businessType (extractFromMetaTags tags) = None.
Proof.
  unfold extractFromMetaTags. cbv zeta.
  destruct (firstTag tags descriptionKeys); destruct (firstTag tags titleKeys);
    destruct (tag tags "twitter:title"); cbn;
    try match goal with |- context [if ?c then _ else _] => destruct c end;
    cbn; repeat split.
Qed.

Lemma extractFromContent_schemaData (text markup : string) :
  Partial.schemaData (extractFromContent text markup) = None.
Proof.
  unfold extractFromContent. cbv zeta.
  destruct (filter isContactEmail (match_g EMAIL text));
    destruct (match_g PHONE text);
    destruct (match_first servicesSection text);
    destruct (match_first missionSection text);
    destruct (match_g apiLink markup); reflexivity.
Qed.

Lemma merged_schemaData (scrapedContent : ScrapedContent) (structured : Partial.t) :
  extractFromStructuredData (jsonLd scrapedContent) = Ok structured ->
  schemaData
    (mergeExtractedData
       [ structured;
         extractFromMetaTags (metaTags scrapedContent);
         extractFromContent (textContent scrapedContent) (html scrapedContent) ])
  = Some (jsonLd scrapedContent).
Proof.
  intro Hs. unfold mergeExtractedData.
  cbn [schemaData fold_left mergeSource emptyMerged].
  rewrite (extractFromStructuredData_schemaData _ _ Hs).
  destruct (extractFromMetaTags_frame (metaTags scrapedContent))
    as [_ [_ [_ [_ [_ [_ [Hmeta _]]]]]]].
  rewrite Hmeta, extractFromContent_schemaData. reflexivity.
Qed.

(** X3: a profile returned by [extractData] carries the structured-data
    records of the page verbatim in [schemaData], and its [businessType] is
    set. *)
Theorem extractData_keeps_records_and_classifies :
  forall (scrapedContent : ScrapedContent) (profile : ExtractedData),
    extractData scrapedContent = Ok profile ->
    schemaData profile = Some (jsonLd scrapedContent)
    /\ exists type, businessType profile = Some type.
Proof.
  intros scrapedContent profile Hrun.
  destruct (extractData_stages _ _ Hrun) as [structured [type [Hs [_ ->]]]].
  split.
  - unfold cleanExtractedData, set_businessType. cbn [schemaData].
    exact (merged_schemaData _ _ Hs).
  - exists type. reflexivity.
Qed.

Lemma extractData_keeps_records_and_classifies_witness :
  exists profile,
    extractData acmePage = Ok profile
    /\ schemaData profile = Some [acmeRecord].
Proof.
  eexists. split; [vm_compute; reflexivity|].
  refine (proj1 (extractData_keeps_records_and_classifies acmePage _ _)).
  vm_compute. reflexivity.
Defined.

(* ------------------------------------------------------------------ *)
(** ** The score and the gate *)

Lemma score_of_Q_passes (score : Z) :
  (20 <= score)%Z -> tooSparse (Some (inject_Z score)) = false.
Proof.
  intro H. unfold tooSparse.
  assert (Hle : Qle_bool 20 (inject_Z score) = true).
  { apply Qle_bool_iff. change 20%Q with (inject_Z 20). rewrite <- Zle_Qle. exact H. }
  rewrite Hle. apply andb_false_r.
Qed.

(** X4: whenever the page has at least one structured-data record, whatever
    its shape, the profile [extractData] returns scores at least 20, so the
    generate route does not reject it as too sparse. *)
Theorem structured_data_is_never_too_sparse :
  forall (scrapedContent : ScrapedContent) (profile : ExtractedData),
    extractData scrapedContent = Ok profile ->
    jsonLd scrapedContent <> [] ->
    (20 <= calculateQualityScore profile)%Z
    /\ tooSparse (Some (inject_Z (calculateQualityScore profile))) = false.
Proof.
  intros scrapedContent profile Hrun Hrecords.
  assert (Hscore : (20 <= calculateQualityScore profile)%Z).
  { destruct (extractData_stages _ _ Hrun) as [structured [type [Hs [_ Hprofile]]]].
    assert (Hschema : schemaData profile = Some (jsonLd scrapedContent)).
    { rewrite Hprofile. unfold cleanExtractedData, set_businessType. cbn [schemaData].
      exact (merged_schemaData _ _ Hs). }
    rewrite score_without_cap. unfold contributions, contributedSchema.
    rewrite Hschema. cbn [fold_right].
    destruct (jsonLd scrapedContent) as [|record others]; [contradiction|].
    cbn [length Nat.eqb negb worth].
    pose proof (worth_bounds (resolved (companyName profile) "Company Name") 10).
    pose proof (worth_bounds (resolved (description profile) "No description available.") 10).
    pose proof (worth_bounds (truthy (field (email (contactInfo profile)))) 10).
    pose proof (worth_bounds (truthy (field (phone (contactInfo profile)))) 5).
    pose proof (worth_bounds (truthy (field (address (contactInfo profile)))) 5).
    pose proof (worth_bounds (truthy (mission profile)) 5).
    pose proof (worth_bounds (negb (Nat.eqb (length (teamInfo profile)) 0)) 5).
    pose proof (worth_bounds (truthy (apiDocs profile)) 5).
    pose proof (worth_bounds (negb (Nat.eqb (length (contributedSocial profile)) 0)) 5).
    lia. }
  split; [exact Hscore | exact (score_of_Q_passes _ Hscore)].
Qed.

Lemma structured_data_is_never_too_sparse_witness :
  exists profile,
    extractData (mkScraped EmptyString EmptyString [] [JNum "5"] "https://example.org/")
    = Ok profile
    /\ (20 <= calculateQualityScore profile)%Z.
Proof.
  eexists. split; [vm_compute; reflexivity|].
  refine (proj1 (structured_data_is_never_too_sparse
                   (mkScraped EmptyString EmptyString [] [JNum "5"] "https://example.org/")
                   _ _ _)).
  - vm_compute. reflexivity.
  - discriminate.
Defined.

Import MoreProps.

Lemma append_one_nonempty {A : Type} (l : list A) (x : A) : l ++ [x] <> [].
Proof. destruct l; discriminate. Qed.

(** X5: a profile for which the extract route finds no quality issue scores
    at least 27, so the generate route never rejects it as too sparse. *)
Theorem no_quality_issue_scores_27 :
  forall data : ExtractedData,
    ExtractHandler.qualityIssues data = [] ->
    (27 <= calculateQualityScore data)%Z
    /\ tooSparse (Some (inject_Z (calculateQualityScore data))) = false.
Proof.
  intros data Hissues.
  assert (Hscore : (27 <= calculateQualityScore data)%Z).
  { unfold ExtractHandler.qualityIssues in Hissues. cbv zeta in Hissues.
    destruct (negb (truthy (companyName data)) || is_str (companyName data) "Company Name")
      eqn:Hname;
      [destruct (negb (truthy (description data))
                 || is_str (description data) "No description available.");
       destruct ((length (services data) =? 0)%nat && (length (products data) =? 0)%nat);
       destruct (negb (truthy (field (email (contactInfo data))))
                 && negb (truthy (field (phone (contactInfo data)))));
       simpl in Hissues; discriminate Hissues|].
    destruct (negb (truthy (description data))
              || is_str (description data) "No description available.") eqn:Hdescr;
      [destruct ((length (services data) =? 0)%nat && (length (products data) =? 0)%nat);
       destruct (negb (truthy (field (email (contactInfo data))))
                 && negb (truthy (field (phone (contactInfo data)))));
       simpl in Hissues; discriminate Hissues|].
    destruct ((length (services data) =? 0)%nat && (length (products data) =? 0)%nat)
      eqn:Hoffer;
      [destruct (negb (truthy (field (email (contactInfo data))))
                 && negb (truthy (field (phone (contactInfo data)))));
       simpl in Hissues; discriminate Hissues|].
    destruct (negb (truthy (field (email (contactInfo data))))
              && negb (truthy (field (phone (contactInfo data))))) eqn:Hcontact;
      [simpl in Hissues; discriminate Hissues|].
    apply orb_false_iff in Hname. destruct Hname as [Hn1 Hn2].
    apply negb_false_iff in Hn1.
    apply orb_false_iff in Hdescr. destruct Hdescr as [Hd1 Hd2].
    apply negb_false_iff in Hd1.
    rewrite score_without_cap. unfold contributions, resolved.
    rewrite Hn1, Hn2, Hd1, Hd2. cbn [fold_right andb negb worth].
    pose proof (worth_bounds (truthy (field (address (contactInfo data)))) 5).
    pose proof (worth_bounds (truthy (mission data)) 5).
    pose proof (worth_bounds (negb (Nat.eqb (length (teamInfo data)) 0)) 5).
    pose proof (worth_bounds (truthy (apiDocs data)) 5).
    pose proof (worth_bounds (negb (Nat.eqb (length (contributedSocial data)) 0)) 5).
    pose proof (worth_bounds (negb (Nat.eqb (length (contributedSchema data)) 0)) 20).
    assert (Hlists : (2 <= Z.min 10 (2 * Z.of_nat (length (services data)))
                          + Z.min 10 (2 * Z.of_nat (length (products data))))%Z).
    { apply andb_false_iff in Hoffer.
      destruct Hoffer as [Hs | Hp]; apply Nat.eqb_neq in Hs || apply Nat.eqb_neq in Hp; lia. }
    assert (Hreach : (5 <= worth (truthy (field (email (contactInfo data)))) 10
                          + worth (truthy (field (phone (contactInfo data)))) 5)%Z).
    { destruct (truthy (field (email (contactInfo data))));
        destruct (truthy (field (phone (contactInfo data)))); simpl in Hcontact |- *;
        try discriminate; lia. }
    lia. }
  split; [exact Hscore | apply score_of_Q_passes; lia].
Qed.

Lemma no_quality_issue_scores_27_witness :
  ExtractHandler.qualityIssues
    (mkData (JStr "Acme") JUndefined (JStr "Tools for teams.") ["Consulting"] []
            (mkContact None (Some (JStr "555-123-4567")) None None) JUndefined []
            JUndefined None None) = []
  /\ (27 <= calculateQualityScore
              (mkData (JStr "Acme") JUndefined (JStr "Tools for teams.") ["Consulting"] []
                      (mkContact None (Some (JStr "555-123-4567")) None None) JUndefined []
                      JUndefined None None))%Z.
Proof.
  split; [reflexivity|].
  refine (proj1 (no_quality_issue_scores_27 _ _)). reflexivity.
Defined.

Lemma worth_monotone (b b' : bool) (n : Z) :
  (0 <= n)%Z -> implies b b' -> (worth b n <= worth b' n)%Z.
Proof.
  unfold implies. intros Hn H. destruct b; destruct b'; simpl; try lia;
    specialize (H eq_refl); discriminate H.
Qed.

Lemma worth_nonempty_monotone (n m : nat) (points : Z) :
  (0 <= points)%Z -> (n <= m)%nat ->
  (worth (negb (Nat.eqb n 0)) points <= worth (negb (Nat.eqb m 0)) points)%Z.
Proof.
  intros Hp Hle. apply worth_monotone; [exact Hp|]. unfold implies.
  destruct n; destruct m; simpl; try congruence. lia.
Qed.

(** X7: the score is monotone in every field it looks at: a profile that
    has everything populated that another profile has never scores lower. *)
Theorem calculateQualityScore_monotone :
  forall data data' : ExtractedData,
    atLeastAsPopulated data data' ->
    (calculateQualityScore data <= calculateQualityScore data')%Z.
Proof.
  intros data data' H.
  destruct H as [H1 [H2 [H3 [H4 [H5 [H6 [H7 [H8 [H9 [H10 [H11 H12]]]]]]]]]]].
  rewrite !calculateQualityScore_cappedSum. unfold cappedSum, contributions.
  cbn [fold_right].
  pose proof (worth_monotone _ _ 10 ltac:(lia) H1).
  pose proof (worth_monotone _ _ 10 ltac:(lia) H2).
  pose proof (worth_monotone _ _ 10 ltac:(lia) H5).
  pose proof (worth_monotone _ _ 5 ltac:(lia) H6).
  pose proof (worth_monotone _ _ 5 ltac:(lia) H7).
  pose proof (worth_monotone _ _ 5 ltac:(lia) H8).
  pose proof (worth_nonempty_monotone _ _ 5 ltac:(lia) H9).
  pose proof (worth_monotone _ _ 5 ltac:(lia) H10).
  pose proof (worth_nonempty_monotone _ _ 5 ltac:(lia) H11).
  pose proof (worth_nonempty_monotone _ _ 20 ltac:(lia) H12).
  lia.
Qed.

Lemma calculateQualityScore_monotone_witness :
  (calculateQualityScore emptyMerged
   <= calculateQualityScore
        (mkData (JStr "Acme") JUndefined JUndefined [] ["Widget"]
                (mkContact (Some (JStr "info@acme.io")) None None None) JUndefined []
                JUndefined None None))%Z.
Proof.
  apply calculateQualityScore_monotone.
  unfold atLeastAsPopulated, implies. cbn.
  repeat split; try discriminate; try lia.
Defined.

(* ------------------------------------------------------------------ *)
(** ** mergeExtractedData on any number of sources *)

Lemma mergeExtractedData_snoc (sources : list Partial.t) (source : Partial.t) :
  mergeExtractedData (sources ++ [source])
  = mergeSource (mergeExtractedData sources) source.
Proof. unfold mergeExtractedData. rewrite fold_left_app. reflexivity. Qed.

Lemma mergeExtractedData_app (before after : list Partial.t) :
  mergeExtractedData (before ++ after)
  = fold_left mergeSource after (mergeExtractedData before).
Proof. unfold mergeExtractedData. apply fold_left_app. Qed.

Lemma mergeSource_scalar (key : ScalarKey) (merged : ExtractedData) (source : Partial.t) :
  scalarOf key (mergeSource merged source)
  = mergeValue (scalarOf key merged) (sourceScalar key source).
Proof. destruct key; reflexivity. Qed.

Lemma scalar_kept_by_silent_sources (key : ScalarKey) (later : list Partial.t) :
  forall merged : ExtractedData,
    (forall source, In source later -> sourceScalar key source = JUndefined) ->
    scalarOf key (fold_left mergeSource later merged) = scalarOf key merged.
Proof.
  induction later as [|source rest IH]; intros merged Hsilent; simpl.
  - reflexivity.
  - rewrite IH.
    + rewrite mergeSource_scalar. rewrite (Hsilent source) by (left; reflexivity).
      reflexivity.
    + intros s Hs. apply Hsilent. right. exact Hs.
Qed.

(** X8: for each scalar key (companyName, tagline, description, mission,
    apiDocs) the merge keeps the string of the last source that sets the key,
    whatever the earlier sources hold; an empty string counts as set.  When
    no source sets the key it stays [undefined]. *)
Theorem mergeExtractedData_scalar_last_writer :
  forall (key : ScalarKey) (earlier later : list Partial.t) (source : Partial.t)
         (text : string),
    sourceScalar key source = JStr text ->
    (forall other, In other later -> sourceScalar key other = JUndefined) ->
    scalarOf key (mergeExtractedData (earlier ++ source :: later)) = JStr text.
Proof.
  intros key earlier later source text Hset Hsilent.
  rewrite mergeExtractedData_app. simpl.
  rewrite (scalar_kept_by_silent_sources key later _ Hsilent).
  rewrite mergeSource_scalar, Hset. reflexivity.
Qed.

Lemma mergeExtractedData_scalar_last_writer_witness :
  companyName
    (mergeExtractedData
       ([Partial.set_companyName (JStr "Acme Corp - Official") emptyStructured]
          ++ Partial.set_companyName (JStr EmptyString) emptyMeta :: [emptyContent]))
  = JStr EmptyString.
Proof.
  apply (mergeExtractedData_scalar_last_writer KCompanyName
           [Partial.set_companyName (JStr "Acme Corp - Official") emptyStructured]
           [emptyContent]
           (Partial.set_companyName (JStr EmptyString) emptyMeta) EmptyString).
  - reflexivity.
  - intros other [<- | []]. reflexivity.
Defined.

Lemma mergeSource_contact (key : ContactKey) (merged : ExtractedData) (source : Partial.t) :
  contactOf key (contactInfo (mergeSource merged source))
  = match sourceContact key source with
    | Some v => Some v
    | None => contactOf key (contactInfo merged)
    end.
Proof.
  unfold sourceContact. destruct key; simpl; destruct (Partial.contactInfo source) as [c|];
    simpl; try reflexivity.
  - destruct (email c); reflexivity.
  - destruct (phone c); reflexivity.
  - destruct (address c); reflexivity.
Qed.

Lemma contact_kept_by_silent_sources (key : ContactKey) (later : list Partial.t) :
  forall merged : ExtractedData,
    (forall source, In source later -> sourceContact key source = None) ->
    contactOf key (contactInfo (fold_left mergeSource later merged))
    = contactOf key (contactInfo merged).
Proof.
  induction later as [|source rest IH]; intros merged Hsilent; simpl.
  - reflexivity.
  - rewrite IH.
    + rewrite mergeSource_contact. rewrite (Hsilent source) by (left; reflexivity).
      reflexivity.
    + intros s Hs. apply Hsilent. right. exact Hs.
Qed.

(** X9: for each of the keys email, phone and address of [contactInfo] the
    merge keeps what the last source that carries the key holds under it,
    even when that is [undefined]: a later source whose [contactInfo] has
    the key with no value erases the value of an earlier source. *)
Theorem mergeExtractedData_contact_last_carrier :
  forall (key : ContactKey) (earlier later : list Partial.t) (source : Partial.t)
         (value : JsVal),
    sourceContact key source = Some value ->
    (forall other, In other later -> sourceContact key other = None) ->
    contactOf key (contactInfo (mergeExtractedData (earlier ++ source :: later)))
    = Some value.
Proof.
  intros key earlier later source value Hset Hsilent.
  rewrite mergeExtractedData_app. simpl.
  rewrite (contact_kept_by_silent_sources key later _ Hsilent).
  rewrite mergeSource_contact, Hset. reflexivity.
Qed.

Lemma mergeExtractedData_contact_last_carrier_witness :
  email
    (contactInfo
       (mergeExtractedData
          ([Partial.set_contactInfo
              (Some (mkContact (Some (JStr "info@acme.io")) None None None)) emptyContent]
             ++ Partial.set_contactInfo
                  (Some (mkContact (Some JUndefined) (Some (JStr "555-123-4567")) None None))
                  emptyStructured
             :: [emptyMeta])))
  = Some JUndefined.
Proof.
  apply (mergeExtractedData_contact_last_carrier KEmail
           [Partial.set_contactInfo
              (Some (mkContact (Some (JStr "info@acme.io")) None None None)) emptyContent]
           [emptyMeta]
           (Partial.set_contactInfo
              (Some (mkContact (Some JUndefined) (Some (JStr "555-123-4567")) None None))
              emptyStructured)
           JUndefined).
  - reflexivity.
  - intros other [<- | []]. reflexivity.
Defined.

Lemma mergeSource_array (key : ArrayKey) (merged : ExtractedData) (source : Partial.t) :
  arrayOf key (mergeSource merged source)
  = mergeArray (arrayOf key merged) (sourceArray key source).
Proof. destruct key; reflexivity. Qed.

Lemma merged_array_is_uniq (key : ArrayKey) (sources : list Partial.t) :
  arrayOf key (mergeExtractedData sources)
  = uniq String.eqb
         (concat (map (fun source => contributed (sourceArray key source)) sources)).
Proof.
  induction sources as [|source rest IH] using rev_ind.
  - destruct key; reflexivity.
  - rewrite mergeExtractedData_snoc, mergeSource_array, IH.
    rewrite mergeArray_step. rewrite map_app, concat_app. simpl. rewrite app_nil_r.
    reflexivity.
Qed.

(** X10: for any number of sources, each of the arrays services, products
    and teamInfo of the merged profile is the concatenation of the sources'
    arrays, in the order of the sources, with later duplicates dropped; in
    particular it never holds a value twice. *)
Theorem mergeExtractedData_arrays_any_sources :
  forall (key : ArrayKey) (sources : list Partial.t),
    firstSeenOrder
      (concat (map (fun source => contributed (sourceArray key source)) sources))
      (arrayOf key (mergeExtractedData sources)).
Proof.
  intros key sources. rewrite merged_array_is_uniq, uniq_stableDedup.
  apply stableDedup_firstSeenOrder.
Qed.

(* ------------------------------------------------------------------ *)
(** ** Facts about strings *)

Lemma append_nil_r (s : string) : (s ++ EmptyString)%string = s.
Proof. induction s as [|a s IH]; simpl; [reflexivity | rewrite IH; reflexivity]. Qed.

Lemma append_inv_head (a b c : string) : (a ++ b = a ++ c)%string -> b = c.
Proof. induction a as [|x a IH]; simpl; intro H; [exact H | inversion H; auto]. Qed.

Lemma append_same_length (a b c d : string) :
  (a ++ b = c ++ d)%string -> String.length a = String.length c -> a = c /\ b = d.
Proof.
  revert c. induction a as [|x a IH]; intros c H Hlen; destruct c as [|y c];
    simpl in *; try discriminate.
  - split; [reflexivity | exact H].
  - inversion H; subst. injection Hlen as Hlen. destruct (IH c H2 Hlen) as [-> ->].
    split; reflexivity.
Qed.

Lemma append_inv_tail (a b c : string) : (a ++ c = b ++ c)%string -> a = b.
Proof.
  intro H. apply (append_same_length a c b c H).
  apply (f_equal String.length) in H. rewrite !append_length in H. lia.
Qed.

Lemma allChars_append (p : ascii -> bool) (a b : string) :
  allChars p (a ++ b) = allChars p a && allChars p b.
Proof.
  induction a as [|x a IH]; simpl; [reflexivity | rewrite IH; apply andb_assoc].
Qed.

Lemma allChars_weaken (p q : ascii -> bool) (s : string) :
  (forall a, p a = true -> q a = true) -> allChars p s = true -> allChars q s = true.
Proof.
  intro Hpq. induction s as [|a s IH]; simpl; [reflexivity|].
  intro H. apply andb_true_iff in H. destruct H as [Ha Hs].
  rewrite (Hpq a Ha), (IH Hs). reflexivity.
Qed.

Lemma starts_with_append (t s back : string) :
  starts_with t s = true -> starts_with t (s ++ back) = true.
Proof.
  revert s. induction t as [|a t IH]; intros s H; [reflexivity|].
  destruct s as [|b s]; simpl in *; [discriminate|].
  apply andb_true_iff in H. destruct H as [Hab Hrest].
  rewrite Hab, (IH s Hrest). reflexivity.
Qed.

Lemma includes_append_back (s t back : string) :
  includes s t = true -> includes (s ++ back) t = true.
Proof.
  induction s as [|a s IH]; simpl; intro H.
  - rewrite orb_false_r in H.
    destruct t; [destruct back; reflexivity | discriminate].
  - apply orb_true_iff in H. destruct H as [H | H].
    + pose proof (starts_with_append t (String a s) back H) as H'.
      cbn [append] in H'. rewrite H'. reflexivity.
    + rewrite (IH H). apply orb_true_r.
Qed.

Lemma includes_append_front (front s t : string) :
  includes s t = true -> includes (front ++ s) t = true.
Proof.
  intro H. induction front as [|a front IH]; simpl; [exact H|].
  rewrite IH. apply orb_true_r.
Qed.

(** A string that occurs in [s] brings what it includes to [s]. *)
Lemma includes_occursIn (x s t : string) :
  occursIn x s -> includes x t = true -> includes s t = true.
Proof.
  intros [front [back ->]] H.
  apply includes_append_front. apply includes_append_back. exact H.
Qed.

Lemma includes_char (s : string) (c : ascii) :
  includes s (String c EmptyString) = negb (allChars (fun a => negb (Ascii.eqb c a)) s).
Proof.
  induction s as [|a s IH]; simpl; [reflexivity|].
  rewrite IH. destruct (Ascii.eqb c a); simpl; [reflexivity|].
  reflexivity.
Qed.

Lemma includes_char_false (s : string) (c : ascii) :
  includes s (String c EmptyString) = false
  <-> allChars (fun a => negb (Ascii.eqb c a)) s = true.
Proof. rewrite includes_char. apply negb_false_iff. Qed.

Lemma occursIn_refl (s : string) : occursIn s s.
Proof. exists EmptyString, EmptyString. simpl. rewrite append_nil_r. reflexivity. Qed.

Lemma occursIn_trans (x y z : string) : occursIn x y -> occursIn y z -> occursIn x z.
Proof.
  intros [f1 [b1 ->]] [f2 [b2 ->]]. exists (f2 ++ f1)%string, (b1 ++ b2)%string.
  rewrite !append_assoc. reflexivity.
Qed.

Lemma occursIn_allChars (p : ascii -> bool) (x s : string) :
  occursIn x s -> allChars p s = true -> allChars p x = true.
Proof.
  intros [front [back ->]] H. rewrite !allChars_append in H.
  apply andb_true_iff in H. destruct H as [_ H].
  apply andb_true_iff in H. tauto.
Qed.

Lemma prefixOf_occursIn (p s : string) : prefixOf p s -> occursIn p s.
Proof. intros [rest ->]. exists EmptyString, rest. reflexivity. Qed.

(** [trim] cuts a string out of its argument. *)
Lemma trimStart_suffix (s : string) : exists front, s = (front ++ trimStart s)%string.
Proof.
  induction s as [|a s [front IH]]; simpl.
  - exists EmptyString. reflexivity.
  - destruct (is_space a).
    + exists (String a front). simpl. rewrite <- IH. reflexivity.
    + exists EmptyString. reflexivity.
Qed.

Lemma trimEnd_prefix (s : string) : prefixOf (trimEnd s) s.
Proof.
  unfold prefixOf. induction s as [|a s [rest IH]]; simpl.
  - exists EmptyString. reflexivity.
  - destruct (trimEnd s) as [|b t] eqn:Ht.
    + destruct (is_space a).
      * exists (String a s). reflexivity.
      * exists s. reflexivity.
    + exists rest. simpl. rewrite IH at 1. reflexivity.
Qed.

Lemma trim_occursIn (s : string) : occursIn (trim s) s.
Proof.
  unfold trim. destruct (trimStart_suffix s) as [front Hfront].
  destruct (trimEnd_prefix (trimStart s)) as [back Hback].
  exists front, back. rewrite <- Hback. exact Hfront.
Qed.

(** [trim] is idempotent. *)
Lemma trimStart_head (s : string) :
  match trimStart s with
  | EmptyString => True
  | String a _ => is_space a = false
  end.
Proof.
  induction s as [|a s IH]; simpl; [exact I|].
  destruct (is_space a) eqn:Ha; [exact IH | exact Ha].
Qed.

Lemma trimEnd_idempotent (s : string) : trimEnd (trimEnd s) = trimEnd s.
Proof.
  induction s as [|a s IH]; simpl; [reflexivity|].
  destruct (trimEnd s) as [|b t] eqn:Ht.
  - destruct (is_space a) eqn:Ha; simpl; [reflexivity | rewrite Ha; reflexivity].
  - simpl. simpl in IH. rewrite IH. reflexivity.
Qed.

Lemma trimEnd_keeps_head (a : ascii) (s : string) :
  is_space a = false -> exists t, trimEnd (String a s) = String a t.
Proof.
  intro Ha. simpl. destruct (trimEnd s) as [|b t].
  - rewrite Ha. exists EmptyString. reflexivity.
  - exists (String b t). reflexivity.
Qed.

Lemma trim_idempotent (s : string) : trim (trim s) = trim s.
Proof.
  unfold trim. pose proof (trimStart_head s) as Hhead.
  destruct (trimStart s) as [|a t] eqn:Ht.
  - reflexivity.
  - destruct (trimEnd_keeps_head a t Hhead) as [u Hu]. rewrite Hu.
    simpl trimStart. rewrite Hhead. rewrite <- Hu. apply trimEnd_idempotent.
Qed.

Lemma toLowerCase_append (a b : string) :
  toLowerCase (a ++ b) = (toLowerCase a ++ toLowerCase b)%string.
Proof. induction a as [|x a IH]; simpl; [reflexivity | rewrite IH; reflexivity]. Qed.

Lemma lower_char_idempotent (a : ascii) : lower_char (lower_char a) = lower_char a.
Proof.
  destruct a as [[] [] [] [] [] [] [] []]; reflexivity.
Qed.

Lemma toLowerCase_idempotent (s : string) : toLowerCase (toLowerCase s) = toLowerCase s.
Proof.
  induction s as [|a s IH]; simpl; [reflexivity|].
  rewrite lower_char_idempotent, IH. reflexivity.
Qed.

(* ------------------------------------------------------------------ *)
(** ** More about the matcher *)

(** The matcher finds a match whenever there is one. *)
Lemma rep_complete {R : Type} (ci : bool) (c : cclass) (min : nat) (s rest : string) :
  RepMatches ci c min s rest ->
  forall (k : string -> option R) (x : R),
    k rest = Some x -> exists y, rep ci c min s k = Some y.
Proof.
  induction 1 as [s | min a s rest Hin Hrep IH]; intros k x Hk.
  - destruct s as [|a s]; simpl.
    + exists x. exact Hk.
    + destruct (in_class ci c a).
      * destruct (rep ci c 0 s k) as [y|]; [exists y; reflexivity | exists x; exact Hk].
      * exists x. exact Hk.
  - simpl. rewrite Hin. destruct (IH k x Hk) as [y Hy]. rewrite Hy.
    exists y. reflexivity.
Qed.

Lemma mtch_complete {R : Type} (ci : bool) (r : regex) (s rest : string)
      (caps caps' : captures) :
  Matches ci r s caps rest caps' ->
  forall (k : string -> captures -> option R) (x : R),
    k rest caps' = Some x -> exists y, mtch ci r s caps k = Some y.
Proof.
  induction 1 as
    [ p s rest caps Hlit | c a s caps Hin
    | r1 r2 s s1 s2 caps caps1 caps2 H1 IH1 H2 IH2
    | r1 r2 s rest caps caps' H IH | r1 r2 s rest caps caps' H IH
    | r s rest caps caps' H IH | r s caps
    | c min s rest caps Hrep
    | n r s rest caps caps' H IH
    | caps ]; intros k x Hk; simpl.
  - rewrite Hlit. exists x. exact Hk.
  - rewrite Hin. exists x. exact Hk.
  - destruct (IH2 k x Hk) as [y Hy]. exact (IH1 _ y Hy).
  - destruct (IH k x Hk) as [y Hy]. rewrite Hy. exists y. reflexivity.
  - destruct (mtch ci r1 s caps k) as [y|]; [exists y; reflexivity | exact (IH k x Hk)].
  - destruct (IH k x Hk) as [y Hy]. rewrite Hy. exists y. reflexivity.
  - destruct (mtch ci r s caps k) as [y|]; [exists y; reflexivity | exists x; exact Hk].
  - exact (rep_complete ci c min s rest Hrep (fun s' => k s' caps) x Hk).
  - exact (IH (fun s' caps'' => k s' ((n, consumed s s') :: caps'')) x Hk).
  - exists x. exact Hk.
Qed.

Lemma match_here_complete (ci : bool) (r : regex) (s rest : string) (caps : captures) :
  Matches ci r s [] rest caps -> exists m, match_here ci r s = Some m.
Proof.
  intro H. unfold match_here.
  exact (mtch_complete ci r s rest [] caps H _ _ eq_refl).
Qed.

(** The characters a repetition takes are in its class. *)
Lemma RepMatches_taken (ci : bool) (c : cclass) (min : nat) (s rest : string) :
  RepMatches ci c min s rest ->
  exists taken,
    s = (taken ++ rest)%string
    /\ allChars (in_class ci c) taken = true
    /\ (min <= String.length taken)%nat.
Proof.
  induction 1 as [s | min a s rest Hin Hrep [taken [-> [Hall Hlen]]]].
  - exists EmptyString. repeat split. simpl. lia.
  - exists (String a taken). split; [reflexivity|]. split.
    + simpl. rewrite Hin, Hall. reflexivity.
    + simpl. lia.
Qed.






(* ------------------------------------------------------------------ *)
(** ** What the text extractor finds *)

(** The fields of the text extractor's result, one by one. *)
Lemma extractFromContent_fields (text markup : string) :
  Partial.contactInfo (extractFromContent text markup)
  = Some (mkContact
            match filter isContactEmail (match_g EMAIL text) with
            | first :: _ => Some (JStr first)
            | [] => None
            end
            match match_g PHONE text with
            | first :: _ => Some (JStr first)
            | [] => None
            end
            None None)
  /\ Partial.services (extractFromContent text markup)
     = Some match match_first servicesSection text with
            | Some found =>
                filter (fun s => negb (containsExcludedContent s))
                       (map trim (split_on isComma (capture 1 found)))
            | None => []
            end
  /\ Partial.mission (extractFromContent text markup)
     = match match_first missionSection text with
       | Some found => JStr (trim (capture 1 found))
       | None => JUndefined
       end
  /\ Partial.apiDocs (extractFromContent text markup)
     = match match_g apiLink markup with
       | _ :: _ => JStr "API documentation available"
       | [] => JUndefined
       end
  /\ Partial.products (extractFromContent text markup) = Some []
  /\ Partial.teamInfo (extractFromContent text markup) = Some [].
Proof.
  unfold extractFromContent. cbv zeta.
  destruct (filter isContactEmail (match_g EMAIL text));
    destruct (match_g PHONE text);
    destruct (match_first servicesSection text);
    destruct (match_first missionSection text);
    destruct (match_g apiLink markup); repeat split.
Qed.



(** The pieces of a split hold no separator and occur in the string. *)
Lemma occursIn_cons (x s : string) (a : ascii) : occursIn x s -> occursIn x (String a s).
Proof. intros [front [back ->]]. exists (String a front), back. reflexivity. Qed.

Lemma split_on_shape (sep : ascii -> bool) (s : string) :
  exists head rest,
    split_on sep s = head :: rest
    /\ prefixOf head s
    /\ allChars (fun a => negb (sep a)) head = true
    /\ (forall piece, In piece rest ->
                      allChars (fun a => negb (sep a)) piece = true /\ occursIn piece s).
Proof.
  induction s as [|a s [head [rest [Hsplit [Hprefix [Hhead Hrest]]]]]]; simpl.
  - exists EmptyString, []. split; [reflexivity|]. split; [exists EmptyString; reflexivity|].
    split; [reflexivity|]. intros piece [].
  - destruct (sep a) eqn:Ha.
    + exists EmptyString, (split_on sep s). split; [reflexivity|].
      split; [exists (String a s); reflexivity|]. split; [reflexivity|].
      intros piece Hin. rewrite Hsplit in Hin. destruct Hin as [<- | Hin].
      * split; [exact Hhead|]. apply occursIn_cons. apply prefixOf_occursIn. exact Hprefix.
      * destruct (Hrest piece Hin) as [H1 H2]. split; [exact H1|].
        apply occursIn_cons. exact H2.
    + rewrite Hsplit. exists (String a head), rest. split; [reflexivity|].
      split; [destruct Hprefix as [back ->]; exists back; reflexivity|].
      split; [simpl; rewrite Ha, Hhead; reflexivity|].
      intros piece Hin. destruct (Hrest piece Hin) as [H1 H2]. split; [exact H1|].
      apply occursIn_cons. exact H2.
Qed.

Lemma split_on_pieces (sep : ascii -> bool) (s piece : string) :
  In piece (split_on sep s) ->
  allChars (fun a => negb (sep a)) piece = true /\ occursIn piece s.
Proof.
  destruct (split_on_shape sep s) as [head [rest [-> [Hprefix [Hhead Hrest]]]]].
  intros [<- | Hin].
  - split; [exact Hhead | apply prefixOf_occursIn; exact Hprefix].
  - exact (Hrest piece Hin).
Qed.

Lemma lit_dot (ci : bool) (s rest : string) :
  lit ci "." s = Some rest -> s = String "." rest.
Proof.
  destruct s as [|b s]; simpl; [discriminate|].
  destruct b as [[] [] [] [] [] [] [] []]; destruct ci; simpl; intro H;
    try discriminate H; inversion H; reflexivity.
Qed.

(** What group 1 holds in a match of a pattern that ends with
    [afterTrigger]: a run of characters other than the full stop, and the
    full stop that ends it; the captured text occurs in the searched text. *)
Lemma afterTrigger_capture_shape (ci : bool) (trigger : regex) (text : string)
      (m : MatchResult) :
  search ci (Seq trigger afterTrigger) text = Some m ->
  exists body,
    group 1 (groups m) = Some (body ++ ".")%string
    /\ allChars (fun a => negb (Ascii.eqb "." a)) body = true
    /\ (1 <= String.length body)%nat
    /\ occursIn (body ++ ".") text.
Proof.
  intro H. destruct (search_sound _ _ _ _ H) as [Htext Hm].
  inversion Hm as [ | | r1 r2 s0 s1 s2 c0 c1 c2 Htrigger Hafter | | | | | | | ]; subst.
  unfold afterTrigger, Cat in Hafter. cbn [fold_right] in Hafter.
  inversion Hafter as [ | | r1' r2' s0' s1' s2' c0' c1' c2' Hrep Hrest | | | | | | | ]; subst.
  inversion Hrest as [ | | r1'' r2'' t0 t1 t2 d0 d1 d2 Hgroup Hend | | | | | | | ]; subst.
  inversion Hend as [p s rest' c Hlit | | | | | | | | | ]; subst.
  simpl in Hlit. inversion Hlit; subst t1. clear Hlit Hend.
  inversion Hgroup as [ | | | | | | | | n r s rest' c c' Hinner | ]; subst.
  inversion Hinner as [ | | q1 q2 u0 u1 u2 e0 e1 e2 Hbody Hstop | | | | | | | ]; subst.
  inversion Hbody as [ | | | | | | | cl min s rest' c Hrun | | ]; subst.
  destruct (RepMatches_taken _ _ _ _ _ Hrun) as [body [Hs1' [Hclass Hlen]]].
  inversion Hstop as [ | | q1' q2' v0 v1 v2 f0 f1 f2 Hdot Hnil | | | | | | | ]; subst.
  inversion Hdot as [p s rest' c Hlitdot | | | | | | | | | ]; subst.
  apply lit_dot in Hlitdot.
  inversion Hnil as [p s rest' c Hlitnil | | | | | | | | | ]; subst.
  simpl in Hlitnil. inversion Hlitnil as [Hv]. clear Hlitnil Hnil.
  rewrite Hv in *. clear Hv.
  assert (Hcut : forall tail : string,
             (body ++ String "." tail)%string = ((body ++ ".") ++ tail)%string).
  { intro tail. rewrite append_assoc. reflexivity. }
  exists body. split; [|split; [|split]].
  - simpl. rewrite Hcut, consumed_append. reflexivity.
  - revert Hclass. apply allChars_weaken. intros a Ha. cbn [in_class one_of] in Ha.
    destruct (Ascii.eqb "." a); [simpl in Ha; discriminate Ha | reflexivity].
  - exact Hlen.
  - destruct (Matches_suffix _ _ _ _ _ _ Htrigger) as [pre1 Hpre1].
    destruct (Matches_suffix _ _ _ _ _ _ Hrep) as [pre2 Hpre2].
    exists (before m ++ pre1 ++ pre2)%string, (after m).
    rewrite Hpre1, Hpre2, Hcut. rewrite !append_assoc. reflexivity.
Qed.

Lemma trimStart_before_dot (body : string) :
  exists front kept,
    body = (front ++ kept)%string /\ trimStart (body ++ ".") = (kept ++ ".")%string.
Proof.
  induction body as [|a body [front [kept [Hbody Htrim]]]].
  - exists EmptyString, EmptyString. split; reflexivity.
  - simpl. destruct (is_space a).
    + exists (String a front), kept. split; [rewrite Hbody at 1; reflexivity | exact Htrim].
    + exists EmptyString, (String a body). split; reflexivity.
Qed.

Lemma trimEnd_before_dot (body : string) : trimEnd (body ++ ".") = (body ++ ".")%string.
Proof.
  induction body as [|a body IH]; [reflexivity|].
  simpl. rewrite IH. destruct body; reflexivity.
Qed.

(** X12: every service the text extractor lists was cut out of the text: it
    occurs in the text, holds no comma and no semicolon, has no white space
    at its ends and contains no excluded term; and the mission it sets is one
    sentence of the text, trimmed, whose only full stop is its last
    character. *)
Theorem extractFromContent_services_and_mission :
  forall text markup : string,
    (forall entries s,
        Partial.services (extractFromContent text markup) = Some entries ->
        In s entries ->
        occursIn s text
        /\ allChars (fun a => negb (isComma a)) s = true
        /\ trim s = s
        /\ containsExcludedContent s = false)
    /\ (forall sentence,
           Partial.mission (extractFromContent text markup) = JStr sentence ->
           exists body,
             sentence = (body ++ ".")%string
             /\ allChars (fun a => negb (Ascii.eqb "." a)) body = true
             /\ occursIn sentence text
             /\ trim sentence = sentence).
Proof.
  intros text markup.
  destruct (extractFromContent_fields text markup) as [_ [Hservices [Hmission _]]].
  split.
  - intros entries s Hentries Hin. rewrite Hservices in Hentries.
    inversion Hentries as [He]. clear Hentries.
    destruct (match_first servicesSection text) as [found|] eqn:Hfound;
      [|subst entries; destruct Hin].
    subst entries. apply filter_In in Hin. destruct Hin as [Hin Hclean].
    apply negb_true_iff in Hclean.
    apply in_map_iff in Hin. destruct Hin as [piece [<- Hpiece]].
    destruct (split_on_pieces _ _ _ Hpiece) as [Hnocomma Hocc].
    destruct (afterTrigger_capture_shape _ _ _ _ Hfound) as [body [Hgroup [_ [_ Hcap]]]].
    assert (Hcapture : capture 1 found = (body ++ ".")%string).
    { unfold capture. rewrite Hgroup. reflexivity. }
    rewrite Hcapture in Hocc.
    split; [|split; [|split]].
    + apply (occursIn_trans _ piece _ (trim_occursIn piece)).
      exact (occursIn_trans _ _ _ Hocc Hcap).
    + exact (occursIn_allChars _ _ _ (trim_occursIn piece) Hnocomma).
    + apply trim_idempotent.
    + exact Hclean.
  - intros sentence Hsentence. rewrite Hmission in Hsentence.
    destruct (match_first missionSection text) as [found|] eqn:Hfound; [|discriminate].
    inversion Hsentence as [Hs]. clear Hsentence.
    destruct (afterTrigger_capture_shape _ _ _ _ Hfound)
      as [body [Hgroup [Hbody [_ Hcap]]]].
    assert (Hcapture : capture 1 found = (body ++ ".")%string).
    { unfold capture. rewrite Hgroup. reflexivity. }
    rewrite Hcapture. unfold trim.
    destruct (trimStart_before_dot body) as [front [kept [Hsplit Htrim]]].
    rewrite Htrim, trimEnd_before_dot.
    exists kept. split; [reflexivity|]. split; [|split].
    + rewrite Hsplit, allChars_append in Hbody. apply andb_true_iff in Hbody. tauto.
    + apply (occursIn_trans _ (body ++ ".")%string _); [|exact Hcap].
      exists front, EmptyString. rewrite append_nil_r, Hsplit, append_assoc. reflexivity.
    + fold (trim (kept ++ ".")). unfold trim.
      destruct (trimStart_before_dot kept) as [front' [kept' [Hsplit' Htrim']]].
      assert (Hsame : trimStart (kept ++ ".") = (kept ++ ".")%string).
      { pose proof (trimStart_head (body ++ ".")) as Hhead. rewrite Htrim in Hhead.
        destruct kept as [|a kept]; [reflexivity|]. simpl in Hhead |- *.
        rewrite Hhead. reflexivity. }
      rewrite Hsame. apply trimEnd_before_dot.
Qed.

Lemma extractFromContent_services_and_mission_witness :
  exists body,
    "To deliver excellence in logistics." = (body ++ ".")%string
    /\ allChars (fun a => negb (Ascii.eqb "." a)) body = true.
Proof.
  destruct (proj2 (extractFromContent_services_and_mission
                     "Our mission: To deliver excellence in logistics." EmptyString)
                  "To deliver excellence in logistics."
                  ltac:(vm_compute; reflexivity))
    as [body [Hbody [Hdots _]]].
  exists body. split; [exact Hbody | exact Hdots].
Defined.

(* ------------------------------------------------------------------ *)
(** ** cleanCompanyName *)

(** A pattern that ends with [$] only matches up to the end of the input. *)
Lemma Matches_Eos_end (ci : bool) (s rest : string) (caps caps' : captures) :
  Matches ci (Seq Eos (Lit EmptyString)) s caps rest caps' -> rest = EmptyString.
Proof.
  intro H.
  inversion H as [ | | r1 r2 s0 s1 s2 c0 c1 c2 Heos Hnil | | | | | | | ]; subst.
  inversion Heos; subst.
  inversion Hnil as [p s' rest' c Hlit | | | | | | | | | ]; subst.
  simpl in Hlit. inversion Hlit. reflexivity.
Qed.

Lemma Matches_Seq_end (ci : bool) (r tail : regex) (s rest : string)
      (caps caps' : captures) :
  (forall s' c, Matches ci tail s' c rest caps' -> rest = EmptyString) ->
  Matches ci (Seq r tail) s caps rest caps' -> rest = EmptyString.
Proof.
  intros Htail H.
  inversion H as [ | | r1 r2 s0 s1 s2 c0 c1 c2 H1 H2 | | | | | | | ]; subst.
  exact (Htail _ _ H2).
Qed.

Lemma afterSeparator_to_the_end (s : string) (m : MatchResult) :
  match_first afterSeparator s = Some m -> after m = EmptyString.
Proof.
  unfold match_first. intro H. destruct (search_sound _ _ _ _ H) as [_ Hm].
  cbn [pattern afterSeparator Cat fold_right] in Hm.
  revert Hm. apply Matches_Seq_end. intros s1 c1.
  apply Matches_Seq_end. intros s2 c2.
  apply Matches_Seq_end. intros s3 c3.
  apply Matches_Seq_end. intros s4 c4.
  apply Matches_Eos_end.
Qed.

Lemma legalSuffix_to_the_end (s : string) (m : MatchResult) :
  match_first legalSuffix s = Some m -> after m = EmptyString.
Proof.
  unfold match_first. intro H. destruct (search_sound _ _ _ _ H) as [_ Hm].
  cbn [pattern legalSuffix Cat fold_right] in Hm.
  revert Hm. apply Matches_Seq_end. intros s1 c1.
  apply Matches_Seq_end. intros s2 c2.
  apply Matches_Seq_end. intros s3 c3.
  apply Matches_Eos_end.
Qed.

Lemma remove_first_prefix (re : RegExp) (s : string) :
  (forall m, match_first re s = Some m -> after m = EmptyString) ->
  prefixOf (remove_first re s) s.
Proof.
  intro Hend. unfold remove_first.
  destruct (match_first re s) as [m|] eqn:Hm.
  - rewrite (Hend m eq_refl), append_nil_r. unfold match_first in Hm.
    destruct (search_sound _ _ _ _ Hm) as [Hs _].
    exists (matched m ++ after m)%string. exact Hs.
  - exists EmptyString. rewrite append_nil_r. reflexivity.
Qed.

Lemma prefixOf_trans (a b c : string) : prefixOf a b -> prefixOf b c -> prefixOf a c.
Proof.
  intros [r1 ->] [r2 ->]. exists (r1 ++ r2)%string. rewrite append_assoc. reflexivity.
Qed.

Lemma occursIn_length (x s : string) :
  occursIn x s -> (String.length x <= String.length s)%nat.
Proof. intros [front [back ->]]. rewrite !append_length. lia. Qed.

(** A run of characters of the class is a repetition of the class. *)
Lemma RepMatches_whole (ci : bool) (c : cclass) (s : string) :
  allChars (in_class ci c) s = true -> RepMatches ci c 0 s EmptyString.
Proof.
  induction s as [|a s IH]; simpl; intro H.
  - constructor.
  - apply andb_true_iff in H. destruct H as [Ha Hs].
    apply RM_take; [exact Ha | exact (IH Hs)].
Qed.

(** Where a hyphen or a pipe stands and no line break follows, the
    separator pattern matches. *)
Lemma afterSeparator_matches_at (a : ascii) (rest : string) :
  isSeparator a = true ->
  allChars (fun b => negb (isTerminator b)) rest = true ->
  exists m, match_here false (pattern afterSeparator) (String a rest) = Some m.
Proof.
  intros Hsep Hline.
  apply (match_here_complete false _ _ EmptyString []).
  cbn [pattern afterSeparator Cat fold_right].
  apply (M_Seq false _ _ _ (String a rest) _ [] [] []); [apply M_Rep; constructor|].
  apply (M_Seq false _ _ _ rest _ [] [] []).
  { apply M_Cls. unfold isSeparator in Hsep. cbn [in_class one_of].
    destruct (Ascii.eqb "-" a); [reflexivity|]. cbn [orb andb] in Hsep |- *.
    rewrite Hsep. reflexivity. }
  apply (M_Seq false _ _ _ rest _ [] [] []); [apply M_Rep; constructor|].
  apply (M_Seq false _ _ _ EmptyString _ [] [] []).
  { apply M_Rep. apply RepMatches_whole. exact Hline. }
  apply (M_Seq false _ _ _ EmptyString _ [] [] []); [constructor|].
  apply M_Lit. reflexivity.
Qed.

Lemma search_afterSeparator_none (s : string) :
  allChars (fun b => negb (isTerminator b)) s = true ->
  search false (pattern afterSeparator) s = None ->
  allChars (fun a => negb (isSeparator a)) s = true.
Proof.
  induction s as [|a s IH]; intros Hline Hnone; [reflexivity|].
  simpl in Hline. apply andb_true_iff in Hline. destruct Hline as [_ Hline].
  cbn [search] in Hnone.
  destruct (match_here false (pattern afterSeparator) (String a s)) as [m|] eqn:Hhere;
    [discriminate|].
  destruct (search false (pattern afterSeparator) s) as [m|] eqn:Hrec; [discriminate|].
  simpl. rewrite (IH Hline eq_refl), andb_true_r.
  destruct (isSeparator a) eqn:Hsep; [|reflexivity].
  destruct (afterSeparator_matches_at a s Hsep Hline) as [m Hm]. congruence.
Qed.

Lemma search_afterSeparator_before (s : string) (m : MatchResult) :
  allChars (fun b => negb (isTerminator b)) s = true ->
  search false (pattern afterSeparator) s = Some m ->
  allChars (fun a => negb (isSeparator a)) (before m) = true.
Proof.
  revert m. induction s as [|a s IH]; intros m Hline Hsome.
  - cbn [search] in Hsome.
    destruct (match_here false (pattern afterSeparator) EmptyString) as [m0|] eqn:Hhere;
      [|discriminate].
    inversion Hsome; subst m0.
    destruct (match_here_sound _ _ _ _ Hhere) as [_ [-> _]]. reflexivity.
  - simpl in Hline. apply andb_true_iff in Hline. destruct Hline as [_ Hline].
    cbn [search] in Hsome.
    destruct (match_here false (pattern afterSeparator) (String a s)) as [m0|] eqn:Hhere.
    + inversion Hsome; subst m0.
      destruct (match_here_sound _ _ _ _ Hhere) as [_ [-> _]]. reflexivity.
    + destruct (search false (pattern afterSeparator) s) as [m1|] eqn:Hrec; [|discriminate].
      inversion Hsome; subst m. cbn [before allChars].
      rewrite (IH m1 Hline eq_refl), andb_true_r.
      destruct (isSeparator a) eqn:Hsep; [|reflexivity].
      destruct (afterSeparator_matches_at a s Hsep Hline) as [m Hm]. congruence.
Qed.

(** X13: on a name of ASCII characters [cleanCompanyName] only cuts: its
    result is a prefix of the name, trimmed; it has no white space at its
    ends and is never longer than the name; and when the name has no line
    break in it, the result holds no hyphen and no pipe: the name is cut at
    the first of them, also when it stands inside a word. *)
Theorem cleanCompanyName_cuts :
  forall name : string,
    isAscii name = true ->
    (exists kept, prefixOf kept name /\ cleanCompanyName name = trim kept)
    /\ trim (cleanCompanyName name) = cleanCompanyName name
    /\ (String.length (cleanCompanyName name) <= String.length name)%nat
    /\ (allChars (fun a => negb (isTerminator a)) name = true ->
        allChars (fun a => negb (isSeparator a)) (cleanCompanyName name) = true).
Proof.
  intros name _. unfold cleanCompanyName.
  set (first := remove_first afterSeparator name).
  set (second := remove_first legalSuffix first).
  assert (H1 : prefixOf first name).
  { apply remove_first_prefix. apply afterSeparator_to_the_end. }
  assert (H2 : prefixOf second first).
  { apply remove_first_prefix. apply legalSuffix_to_the_end. }
  split; [|split; [|split]].
  - exists second. split; [exact (prefixOf_trans _ _ _ H2 H1) | reflexivity].
  - apply trim_idempotent.
  - apply occursIn_length. apply (occursIn_trans _ second _ (trim_occursIn second)).
    apply prefixOf_occursIn. exact (prefixOf_trans _ _ _ H2 H1).
  - intro Hline.
    assert (Hfirst : allChars (fun a => negb (isSeparator a)) first = true).
    { unfold first, remove_first, match_first.
      destruct (search (ignoreCase afterSeparator) (pattern afterSeparator) name)
        as [m|] eqn:Hsearch.
      - rewrite (afterSeparator_to_the_end name m Hsearch), append_nil_r.
        exact (search_afterSeparator_before name m Hline Hsearch).
      - exact (search_afterSeparator_none name Hline Hsearch). }
    apply (occursIn_allChars _ _ second (trim_occursIn second)).
    exact (occursIn_allChars _ _ first (prefixOf_occursIn _ _ H2) Hfirst).
Qed.

Lemma cleanCompanyName_cuts_witness :
  cleanCompanyName "Coca-Cola Ltd" = "Coca"
  /\ allChars (fun a => negb (isSeparator a)) (cleanCompanyName "Coca-Cola Ltd") = true.
Proof.
  split; [vm_compute; reflexivity|].
  apply (proj2 (proj2 (proj2 (cleanCompanyName_cuts "Coca-Cola Ltd" eq_refl)))).
  reflexivity.
Defined.

(* ------------------------------------------------------------------ *)
(** ** extractFromMetaTags *)



Lemma firstTag_None (tags : list (string * string)) (keys : list string) :
  firstTag tags keys = None <-> forall k, In k keys -> tag tags k = None.
Proof.
  induction keys as [|key rest IH]; simpl.
  - split; [intros _ k [] | reflexivity].
  - destruct (tag tags key) as [v|] eqn:Htag.
    + split; [discriminate|]. intro H. rewrite (H key (or_introl eq_refl)) in Htag.
      discriminate.
    + rewrite IH. split.
      * intros H k [<- | Hk]; [exact Htag | exact (H k Hk)].
      * intros H k Hk. apply H. right. exact Hk.
Qed.




(* ------------------------------------------------------------------ *)
(** ** What the structured extractor leaves behind *)

Lemma forEachM_invariant {A S : Type} (P : S -> Prop) (body : S -> A -> Throws S)
      (l : list A) :
  (forall s x s', P s -> body s x = Ok s' -> P s') ->
  forall s s', P s -> forEachM body l s = Ok s' -> P s'.
Proof.
  intro Hbody. induction l as [|x rest IH]; simpl; intros s s' Hs H.
  - inversion H; subst. exact Hs.
  - apply bind_Ok_inv in H. destruct H as [mid [Hx H]].
    exact (IH mid s' (Hbody s x mid Hs Hx) H).
Qed.

Lemma assign_In {V : Type} (key : string) (x : V) (props : list (string * V))
      (k : string) (v : V) :
  In (k, v) (assign key x props) -> (k = key /\ v = x) \/ In (k, v) props.
Proof.
  induction props as [|[k0 old] rest IH]; simpl.
  - intros [H | []]. inversion H. left. split; reflexivity.
  - destruct (String.eqb_spec k0 key) as [-> | Hne]; simpl.
    + intros [H | H]; [inversion H; left; split; reflexivity | right; right; exact H].
    + intros [H | H]; [right; left; exact H|].
      destruct (IH H) as [Hnew | Hold]; [left; exact Hnew | right; right; exact Hold].
Qed.

Lemma assign_keys {V : Type} (key : string) (x : V) (props : list (string * V)) (k : string) :
  In k (map fst (assign key x props)) -> k = key \/ In k (map fst props).
Proof.
  induction props as [|[k0 old] rest IH]; simpl.
  - intros [H | []]. left. symmetry. exact H.
  - destruct (String.eqb_spec k0 key) as [-> | Hne]; simpl.
    + intros [H | H]; [right; left; exact H | right; right; exact H].
    + intros [H | H]; [right; left; exact H|].
      destruct (IH H) as [Hnew | Hold]; [left; exact Hnew | right; right; exact Hold].
Qed.

Lemma assign_NoDup {V : Type} (key : string) (x : V) (props : list (string * V)) :
  NoDup (map fst props) -> NoDup (map fst (assign key x props)).
Proof.
  induction props as [|[k0 old] rest IH]; simpl; intro H.
  - constructor; [intros [] | constructor].
  - inversion H as [|? ? Hnotin Hrest]; subst.
    destruct (String.eqb_spec k0 key) as [-> | Hne]; simpl.
    + constructor; assumption.
    + constructor; [|exact (IH Hrest)].
      intro Hin. apply assign_keys in Hin. destruct Hin as [-> | Hin]; contradiction.
Qed.

Lemma addSocial_filed (links : list (string * JsVal)) (url : JsVal)
      (links' : list (string * JsVal)) :
  filedLinks links -> addSocial links url = Ok links' -> filedLinks links'.
Proof.
  intros [Hnodup Hfiled] H. unfold addSocial in H.
  apply bind_Ok_inv in H. destruct H as [platform [Hplatform H]].
  destruct platform as [name|]; inversion H; subst; [|split; assumption].
  split; [apply assign_NoDup; exact Hnodup|].
  intros platform link Hin. apply assign_In in Hin.
  destruct Hin as [[-> ->] | Hin]; [exact Hplatform | exact (Hfiled _ _ Hin)].
Qed.

Lemma screened_push (entries : option (list string)) (s : string) :
  screened entries -> s <> EmptyString -> containsExcludedContent s = false ->
  screened (Partial.push entries s).
Proof.
  intros [items [-> Hitems]] Hne Hclean. exists (items ++ [s]). split; [reflexivity|].
  intros s' Hin. apply in_app_or in Hin. destruct Hin as [Hin | [<- | []]].
  - exact (Hitems s' Hin).
  - split; assumption.
Qed.

Lemma truthy_JStr (s : string) : truthy (JStr s) = true -> s <> EmptyString.
Proof.
  simpl. destruct (String.eqb_spec s EmptyString); [discriminate | intros _; assumption].
Qed.

Lemma addProduct_shape (p : Partial.t) (product : JsVal) (p' : Partial.t) :
  structuredShape p -> addProduct p product = Ok p' -> structuredShape p'.
Proof.
  intros Hshape H. unfold addProduct in H.
  destruct (truthy (optProp product "name")) eqn:Htruthy; [|inversion H; subst; exact Hshape].
  destruct (optProp product "name") as [| | | |s| |]; try discriminate.
  destruct (containsExcludedContent s) eqn:Hclean; inversion H; subst; [exact Hshape|].
  destruct p; unfold structuredShape in *; cbn in *.
  destruct Hshape as [Hs [Hp Hrest]]. split; [exact Hs|]. split; [|exact Hrest].
  apply screened_push; [exact Hp | apply truthy_JStr; exact Htruthy | exact Hclean].
Qed.

Lemma addService_shape (p : Partial.t) (service : JsVal) (p' : Partial.t) :
  structuredShape p -> addService p service = Ok p' -> structuredShape p'.
Proof.
  intros Hshape H. unfold addService in H.
  destruct (truthy (optProp service "name")) eqn:Htruthy; [|inversion H; subst; exact Hshape].
  destruct (optProp service "name") as [| | | |s| |]; try discriminate.
  destruct (containsExcludedContent s) eqn:Hclean; inversion H; subst; [exact Hshape|].
  destruct p; unfold structuredShape in *; cbn in *.
  destruct Hshape as [Hs Hrest]. split; [|exact Hrest].
  apply screened_push; [exact Hs | apply truthy_JStr; exact Htruthy | exact Hclean].
Qed.

Lemma addPerson_shape (p : Partial.t) (person : JsVal) (p' : Partial.t) :
  structuredShape p -> addPerson p person = Ok p' -> structuredShape p'.
Proof.
  intros Hshape H. unfold addPerson in H.
  destruct (truthy (optProp person "name")); [|inversion H; subst; exact Hshape].
  cbv zeta in H.
  destruct (Partial.teamInfo p) as [members|] eqn:Hteam; [|inversion H; subst; exact Hshape].
  apply bind_Ok_inv in H. destruct H as [nameText [_ H]].
  apply bind_Ok_inv in H. destruct H as [roleText [_ H]].
  inversion H; subst. clear H.
  destruct p; unfold structuredShape in *; cbn in *.
  destruct Hshape as [Hs [Hp [Hc [[members0 [Hm Hteam0]] Hrest]]]].
  split; [exact Hs|]. split; [exact Hp|]. split; [exact Hc|]. split; [|exact Hrest].
  exists (members ++ [(nameText ++ " - " ++ roleText)%string]). split; [reflexivity|].
  rewrite Hteam in Hm. inversion Hm; subst members0.
  intros m Hin. apply in_app_or in Hin. destruct Hin as [Hin | [<- | []]].
  - exact (Hteam0 m Hin).
  - exists nameText, roleText. reflexivity.
Qed.

Lemma contactShape_update (old : option ContactInfo) (e p a : option JsVal) :
  contactShape old ->
  contactShape
    (Some (mkContact e p a
             (socialMedia match old with Some c => c | None => emptyContact end))).
Proof.
  intros [c [-> Hlinks]]. eexists. split; [reflexivity|]. exact Hlinks.
Qed.

Lemma extractOrganization_shape (jsonLd : JsVal) (p p' : Partial.t) :
  structuredShape p -> extractOrganization jsonLd p = Ok p' -> structuredShape p'.
Proof.
  intros Hshape H. unfold extractOrganization in H.
  apply bind_Ok_inv in H. destruct H as [name [_ H]].
  apply bind_Ok_inv in H. destruct H as [descr [_ H]].
  apply bind_Ok_inv in H. destruct H as [slogan [_ H]].
  apply bind_Ok_inv in H. destruct H as [contactPoint [_ H]].
  apply bind_Ok_inv in H. destruct H as [p1 [H1 H]].
  apply bind_Ok_inv in H. destruct H as [addr [_ H]].
  apply bind_Ok_inv in H. destruct H as [p2 [H2 H]].
  apply bind_Ok_inv in H. destruct H as [sameAs [_ H]].
  assert (Hshape1 : structuredShape p1).
  { destruct p. unfold structuredShape in *. cbn in *.
    destruct Hshape as [Hs [Hp [Hc Hrest]]].
    destruct (truthy contactPoint).
    - apply bind_Ok_inv in H1. destruct H1 as [contactEmail [_ H1]].
      apply bind_Ok_inv in H1. destruct H1 as [contactTelephone [_ H1]].
      inversion H1; subst. cbn.
      split; [exact Hs|]. split; [exact Hp|]. split; [|exact Hrest].
      apply contactShape_update. exact Hc.
    - inversion H1; subst. cbn. tauto. }
  assert (Hshape2 : structuredShape p2).
  { clear H1 Hshape. destruct p1. unfold structuredShape in *. cbn in *.
    destruct Hshape1 as [Hs [Hp [Hc Hrest]]].
    destruct (truthy addr).
    - apply bind_Ok_inv in H2. destruct H2 as [formatted [_ H2]].
      inversion H2; subst. cbn.
      split; [exact Hs|]. split; [exact Hp|]. split; [|exact Hrest].
      apply contactShape_update. exact Hc.
    - inversion H2; subst. cbn. tauto. }
  destruct sameAs as [| | | | |urls|]; try (inversion H; subst; exact Hshape2).
  destruct (Partial.contactInfo p2) as [c|] eqn:Hcontact; [|discriminate].
  apply bind_Ok_inv in H. destruct H as [links [Hlinks H]].
  inversion H; subst. clear H.
  destruct p2. unfold structuredShape in *. cbn in *.
  destruct Hshape2 as [Hs [Hp [Hc Hrest]]].
  split; [exact Hs|]. split; [exact Hp|]. split; [|exact Hrest].
  eexists. split; [reflexivity|]. cbn.
  apply (forEachM_invariant filedLinks addSocial urls addSocial_filed [] links);
    [|exact Hlinks].
  split; [constructor | intros ? ? []].
Qed.

Lemma extractRecord_shape (p : Partial.t) (jsonLd : JsVal) (p' : Partial.t) :
  structuredShape p -> extractRecord p jsonLd = Ok p' -> structuredShape p'.
Proof.
  intros Hshape H. unfold extractRecord in H.
  apply bind_Ok_inv in H. destruct H as [type [_ H]].
  apply bind_Ok_inv in H. destruct H as [p1 [H1 H]].
  apply bind_Ok_inv in H. destruct H as [makesOffer [_ H]].
  apply bind_Ok_inv in H. destruct H as [p2 [H2 H]].
  apply bind_Ok_inv in H. destruct H as [hasOfferCatalog [_ H]].
  apply bind_Ok_inv in H. destruct H as [p3 [H3 H]].
  apply bind_Ok_inv in H. destruct H as [employee [_ H]].
  apply bind_Ok_inv in H. destruct H as [founder [_ H]].
  assert (Hshape1 : structuredShape p1).
  { destruct (_ || _) in H1; [exact (extractOrganization_shape _ _ _ Hshape H1)|].
    inversion H1; subst. exact Hshape. }
  assert (Hshape2 : structuredShape p2).
  { destruct (_ || _) in H2; [|inversion H2; subst; exact Hshape1].
    exact (forEachM_invariant structuredShape addProduct _ addProduct_shape _ _ Hshape1 H2). }
  assert (Hshape3 : structuredShape p3).
  { destruct (_ || _) in H3; [|inversion H3; subst; exact Hshape2].
    destruct (orElse _ _) in H3; try discriminate.
    exact (forEachM_invariant structuredShape addService _ addService_shape _ _ Hshape2 H3). }
  destruct (_ || _) in H; [|inversion H; subst; exact Hshape3].
  apply bind_Ok_inv in H. destruct H as [employees [_ H]].
  apply bind_Ok_inv in H. destruct H as [founders [_ H]].
  exact (forEachM_invariant structuredShape addPerson _ addPerson_shape _ _ Hshape3 H).
Qed.

(** X15: whatever the records are, a structured extraction that returns
    leaves services and products that are named and free of every excluded
    term, team entries of the form name, space, hyphen, space, role, at most
    one social link per platform, each filed under the platform it is
    recognised as, no mission, no documentation link and no business type;
    and it passes the records on unchanged. *)
Theorem extractFromStructuredData_shape :
  forall (records : list JsVal) (structured : Partial.t),
    extractFromStructuredData records = Ok structured ->
    structuredShape structured
    /\ Partial.schemaData structured = Some records.
Proof.
  intros records structured H.
  split; [|exact (extractFromStructuredData_schemaData records structured H)].
  unfold extractFromStructuredData in H.
  apply bind_Ok_inv in H. destruct H as [extracted [Hloop H]].
  inversion H; subst. clear H.
  assert (Hshape : structuredShape extracted).
  { apply (forEachM_invariant structuredShape extractRecord records extractRecord_shape
             emptyStructured extracted); [|exact Hloop].
    unfold structuredShape, emptyStructured. cbn.
    repeat split; try (eexists; split; [reflexivity|]); try (intros ? []); try exact I. }
  destruct extracted. unfold structuredShape in *. cbn in *. exact Hshape.
Qed.

Lemma extractFromStructuredData_shape_witness :
  structuredShape
    (match extractFromStructuredData [shopRecord] with
     | Ok structured => structured
     | Throw _ => emptyStructured
     end).
Proof.
  apply (extractFromStructuredData_shape [shopRecord]). vm_compute. reflexivity.
Defined.

(* ------------------------------------------------------------------ *)
(** ** The scalars of the structured extractor *)

Lemma getProp_value (v : JsVal) (key : string) (x : JsVal) :
  getProp v key = Ok x -> x = optProp v key.
Proof.
  destruct v; simpl; intro H; inversion H; reflexivity.
Qed.

Lemma addProduct_scalars (p : Partial.t) (product : JsVal) (p' : Partial.t) :
  addProduct p product = Ok p' -> scalars p' = scalars p.
Proof.
  unfold addProduct. intro H.
  destruct (truthy (optProp product "name")); [|inversion H; reflexivity].
  destruct (optProp product "name"); try discriminate.
  destruct (containsExcludedContent _); inversion H; reflexivity.
Qed.

Lemma addService_scalars (p : Partial.t) (service : JsVal) (p' : Partial.t) :
  addService p service = Ok p' -> scalars p' = scalars p.
Proof.
  unfold addService. intro H.
  destruct (truthy (optProp service "name")); [|inversion H; reflexivity].
  destruct (optProp service "name"); try discriminate.
  destruct (containsExcludedContent _); inversion H; reflexivity.
Qed.

Lemma addPerson_scalars (p : Partial.t) (person : JsVal) (p' : Partial.t) :
  addPerson p person = Ok p' -> scalars p' = scalars p.
Proof.
  unfold addPerson. intro H.
  destruct (truthy (optProp person "name")); [|inversion H; reflexivity].
  cbv zeta in H.
  destruct (Partial.teamInfo p); [|inversion H; reflexivity].
  apply bind_Ok_inv in H. destruct H as [nameText [_ H]].
  apply bind_Ok_inv in H. destruct H as [roleText [_ H]].
  inversion H. reflexivity.
Qed.

Lemma forEachM_keeps {A S T : Type} (view : S -> T) (body : S -> A -> Throws S)
      (l : list A) :
  (forall s x s', body s x = Ok s' -> view s' = view s) ->
  forall s s', forEachM body l s = Ok s' -> view s' = view s.
Proof.
  intros Hbody s s' H.
  apply (forEachM_invariant (fun t => view t = view s) body l) with (s := s);
    [|reflexivity|exact H].
  intros t x t' Ht Hx. rewrite (Hbody t x t' Hx). exact Ht.
Qed.

Lemma extractOrganization_scalars (jsonLd : JsVal) (p p' : Partial.t) :
  extractOrganization jsonLd p = Ok p' ->
  scalars p'
  = (orElse (optProp jsonLd "name") (Partial.companyName p),
     orElse (optProp jsonLd "description") (Partial.description p),
     orElse (optProp jsonLd "slogan") (Partial.tagline p)).
Proof.
  intro H. unfold extractOrganization in H.
  apply bind_Ok_inv in H. destruct H as [name [Hname H]].
  apply bind_Ok_inv in H. destruct H as [descr [Hdescr H]].
  apply bind_Ok_inv in H. destruct H as [slogan [Hslogan H]].
  apply bind_Ok_inv in H. destruct H as [contactPoint [_ H]].
  apply bind_Ok_inv in H. destruct H as [p1 [H1 H]].
  apply bind_Ok_inv in H. destruct H as [addr [_ H]].
  apply bind_Ok_inv in H. destruct H as [p2 [H2 H]].
  apply bind_Ok_inv in H. destruct H as [sameAs [_ H]].
  apply getProp_value in Hname, Hdescr, Hslogan. subst name descr slogan.
  assert (H01 : scalars p1
                = (orElse (optProp jsonLd "name") (Partial.companyName p),
                   orElse (optProp jsonLd "description") (Partial.description p),
                   orElse (optProp jsonLd "slogan") (Partial.tagline p))).
  { destruct (truthy contactPoint).
    - apply bind_Ok_inv in H1. destruct H1 as [contactEmail [_ H1]].
      apply bind_Ok_inv in H1. destruct H1 as [contactTelephone [_ H1]].
      inversion H1. reflexivity.
    - inversion H1. reflexivity. }
  assert (H12 : scalars p2 = scalars p1).
  { destruct (truthy addr).
    - apply bind_Ok_inv in H2. destruct H2 as [formatted [_ H2]].
      inversion H2. reflexivity.
    - inversion H2. reflexivity. }
  rewrite <- H01, <- H12.
  destruct sameAs; try (inversion H; reflexivity).
  destruct (Partial.contactInfo p2); [|discriminate].
  apply bind_Ok_inv in H. destruct H as [links [_ H]].
  inversion H. reflexivity.
Qed.

Lemma extractRecord_scalars (p : Partial.t) (jsonLd : JsVal) (p' : Partial.t) :
  extractRecord p jsonLd = Ok p' ->
  scalars p'
  = (keepLast "name" (Partial.companyName p) jsonLd,
     keepLast "description" (Partial.description p) jsonLd,
     keepLast "slogan" (Partial.tagline p) jsonLd).
Proof.
  intro H. unfold extractRecord in H.
  apply bind_Ok_inv in H. destruct H as [type [Htype H]].
  apply bind_Ok_inv in H. destruct H as [p1 [H1 H]].
  apply bind_Ok_inv in H. destruct H as [makesOffer [_ H]].
  apply bind_Ok_inv in H. destruct H as [p2 [H2 H]].
  apply bind_Ok_inv in H. destruct H as [hasOfferCatalog [_ H]].
  apply bind_Ok_inv in H. destruct H as [p3 [H3 H]].
  apply bind_Ok_inv in H. destruct H as [employee [_ H]].
  apply bind_Ok_inv in H. destruct H as [founder [_ H]].
  apply getProp_value in Htype. subst type.
  assert (H01 : scalars p1
                = (keepLast "name" (Partial.companyName p) jsonLd,
                   keepLast "description" (Partial.description p) jsonLd,
                   keepLast "slogan" (Partial.tagline p) jsonLd)).
  { unfold keepLast, isOrganization.
    destruct (_ || _) in *; [exact (extractOrganization_scalars _ _ _ H1)|].
    inversion H1. reflexivity. }
  assert (H12 : scalars p2 = scalars p1).
  { destruct (_ || _) in H2; [|inversion H2; reflexivity].
    exact (forEachM_keeps scalars addProduct _ addProduct_scalars _ _ H2). }
  assert (H23 : scalars p3 = scalars p2).
  { destruct (_ || _) in H3; [|inversion H3; reflexivity].
    destruct (orElse _ _) in H3; try discriminate.
    exact (forEachM_keeps scalars addService _ addService_scalars _ _ H3). }
  rewrite <- H01, <- H12, <- H23.
  destruct (_ || _) in H; [|inversion H; reflexivity].
  apply bind_Ok_inv in H. destruct H as [employees [_ H]].
  apply bind_Ok_inv in H. destruct H as [founders [_ H]].
  exact (forEachM_keeps scalars addPerson _ addPerson_scalars _ _ H).
Qed.

Lemma keepLast_fold (key : string) (records : list JsVal) (current : JsVal) :
  fold_left (keepLast key) records current
  = match find (fun record => isOrganization record && truthy (optProp record key))
               (rev records) with
    | Some record => optProp record key
    | None => current
    end.
Proof.
  induction records as [|record front IH] using rev_ind.
  - reflexivity.
  - rewrite fold_left_app, rev_unit. cbn [fold_left find]. rewrite IH.
    unfold keepLast, orElse.
    destruct (isOrganization record); [|reflexivity].
    destruct (truthy (optProp record key)); reflexivity.
Qed.

Lemma forEachM_extractRecord_scalars (records : list JsVal) (p p' : Partial.t) :
  forEachM extractRecord records p = Ok p' ->
  scalars p'
  = (fold_left (keepLast "name") records (Partial.companyName p),
     fold_left (keepLast "description") records (Partial.description p),
     fold_left (keepLast "slogan") records (Partial.tagline p)).
Proof.
  revert p. induction records as [|record rest IH]; intros p H.
  - inversion H. reflexivity.
  - cbn [forEachM] in H. apply bind_Ok_inv in H. destruct H as [mid [Hrecord H]].
    rewrite (IH mid H). apply extractRecord_scalars in Hrecord.
    unfold scalars in Hrecord. inversion Hrecord as [[Hn Hd Ht]].
    cbn [fold_left]. rewrite Hn, Hd, Ht. reflexivity.
Qed.

(** X16: in a structured extraction that returns, the company name is the
    [name] of the last record of type Organization, Corporation or
    LocalBusiness whose name is truthy, whatever comes after it; likewise the
    description from [description] and the tagline from [slogan].  A field
    that no such record sets stays undefined. *)
Theorem extractFromStructuredData_last_organization_wins :
  forall (records : list JsVal) (structured : Partial.t),
    extractFromStructuredData records = Ok structured ->
    Partial.companyName structured = lastSet "name" records
    /\ Partial.description structured = lastSet "description" records
    /\ Partial.tagline structured = lastSet "slogan" records.
Proof.
  intros records structured H. unfold extractFromStructuredData in H.
  apply bind_Ok_inv in H. destruct H as [extracted [Hloop H]].
  inversion H; subst. clear H.
  apply forEachM_extractRecord_scalars in Hloop.
  rewrite !keepLast_fold in Hloop. unfold scalars in Hloop.
  inversion Hloop as [[Hn Hd Ht]]. unfold lastSet.
  destruct extracted; cbn in *. repeat split; assumption.
Qed.

Lemma extractFromStructuredData_last_organization_wins_witness :
  Partial.companyName
    (match extractFromStructuredData
             [shopRecord; Examples.wellFormed; JObj [("@type", JStr "Product"); ("name", JStr "Widget")]]
     with
     | Ok structured => structured
     | Throw _ => emptyStructured
     end)
  = JStr "Later Ltd".
Proof.
  apply (extractFromStructuredData_last_organization_wins
           [shopRecord; Examples.wellFormed;
            JObj [("@type", JStr "Product"); ("name", JStr "Widget")]]).
  vm_compute. reflexivity.
Defined.

(* ------------------------------------------------------------------ *)
(** ** Records without nested parts *)

Lemma getProp_defined (v : JsVal) (key : string) :
  v <> JUndefined -> v <> JNull -> getProp v key = Ok (optProp v key).
Proof.
  destruct v; simpl; intros H1 H2; try reflexivity; congruence.
Qed.

Lemma falsy_no_property (v : JsVal) (key : string) :
  truthy v = false -> optProp v key = JUndefined.
Proof.
  destruct v; simpl; intro H; try reflexivity. discriminate.
Qed.

Lemma falsy_not_array (v : JsVal) :
  truthy v = false -> match v with JArr items => items | _ => [v] end = [v].
Proof.
  destruct v; simpl; intro H; try reflexivity. discriminate.
Qed.

Lemma forEachM_addSocial_texts (urls : list JsVal) (links : list (string * JsVal)) :
  forallb isText urls = true -> exists links', forEachM addSocial urls links = Ok links'.
Proof.
  revert links. induction urls as [|url rest IH]; intros links H.
  - exists links. reflexivity.
  - cbn [forallb] in H. apply andb_true_iff in H. destruct H as [Hurl Hrest].
    destruct url; try discriminate.
    cbn [forEachM]. unfold addSocial at 1, identifySocialPlatform.
    rewrite firstPlatform_string. cbn [bind].
    destruct (option_map snd _); cbn [bind]; apply IH; exact Hrest.
Qed.

Lemma plainRecord_facts (record : JsVal) :
  plainRecord record = true ->
  record <> JUndefined /\ record <> JNull
  /\ truthy (optProp record "contactPoint") = false
  /\ truthy (optProp record "address") = false
  /\ truthy (optProp record "makesOffer") = false
  /\ truthy (optProp record "hasOfferCatalog") = false
  /\ truthy (optProp record "employee") = false
  /\ truthy (optProp record "founder") = false
  /\ match optProp record "sameAs" with
     | JArr urls => forallb isText urls = true
     | _ => True
     end.
Proof.
  intro H.
  assert (Hdefined : record <> JUndefined /\ record <> JNull)
    by (destruct record; try discriminate; split; discriminate).
  assert (Hbody : forallb (fun key => negb (truthy (optProp record key))) nestedKeys
                  && match optProp record "sameAs" with
                     | JArr urls => forallb isText urls
                     | _ => true
                     end = true)
    by (destruct record; try discriminate; exact H).
  clear H. apply andb_true_iff in Hbody. destruct Hbody as [Hkeys Hlinks].
  cbn [forallb nestedKeys] in Hkeys.
  repeat (apply andb_true_iff in Hkeys; destruct Hkeys as [?H Hkeys]).
  repeat match goal with H : negb _ = true |- _ => apply negb_true_iff in H end.
  destruct Hdefined as [Hu Hn].
  repeat (split; [assumption|]).
  destruct (optProp record "sameAs"); try exact I. exact Hlinks.
Qed.

Lemma extractOrganization_plain (record : JsVal) (p : Partial.t) (c : ContactInfo) :
  plainRecord record = true ->
  Partial.contactInfo p = Some c ->
  exists p', extractOrganization record p = Ok p' /\ sameEntries p p'.
Proof.
  intros Hplain Hcontact. apply plainRecord_facts in Hplain.
  destruct Hplain as [Hu [Hn [Hcp [Haddr [_ [_ [_ [_ Hlinks]]]]]]]].
  unfold extractOrganization. rewrite !(getProp_defined record) by assumption.
  cbn [bind]. rewrite Hcp. cbn [bind]. rewrite Haddr. cbn [bind].
  destruct p as [? ? ? ? ? contact ? ? ? ? ?]. cbn in Hcontact. subst contact.
  unfold sameEntries.
  destruct (optProp record "sameAs") as [| | | | |urls|];
    try (eexists; split; [reflexivity|]; cbn;
         repeat split; exists c, c; repeat split; reflexivity).
  cbn.
  destruct (forEachM_addSocial_texts urls [] Hlinks) as [links Hrun].
  rewrite Hrun. cbn. eexists. split; [reflexivity|]. cbn.
  repeat split. eexists c, _. repeat split; reflexivity.
Qed.

Lemma sameEntries_refl (p : Partial.t) (c : ContactInfo) :
  Partial.contactInfo p = Some c -> sameEntries p p.
Proof.
  intro H. unfold sameEntries. repeat split. exists c, c. repeat split; assumption.
Qed.

Lemma sameEntries_trans (p q r : Partial.t) :
  sameEntries p q -> sameEntries q r -> sameEntries p r.
Proof.
  intros [Hs [Hp [Ht [c [c' [Hc [Hc' [He [Hph Ha]]]]]]]]]
         [Hs' [Hp' [Ht' [d [d' [Hd [Hd' [He' [Hph' Ha']]]]]]]]].
  rewrite Hc' in Hd. inversion Hd; subst d.
  unfold sameEntries. rewrite Hs', Hp', Ht'. repeat split; try assumption.
  exists c, d'. repeat split; try assumption; congruence.
Qed.

Lemma extractRecord_plain (record : JsVal) (p : Partial.t) (c : ContactInfo) :
  plainRecord record = true ->
  Partial.contactInfo p = Some c ->
  exists p', extractRecord p record = Ok p' /\ sameEntries p p'.
Proof.
  intros Hplain Hcontact. pose proof (plainRecord_facts record Hplain) as Hfacts.
  destruct Hfacts as [Hu [Hn [_ [_ [Hmo [Hcat [Hemp [Hfou _]]]]]]]].
  unfold extractRecord. rewrite !(getProp_defined record) by assumption.
  cbn [bind].
  assert (Horg : exists p1,
             (if is_str (optProp record "@type") "Organization"
                 || is_str (optProp record "@type") "Corporation"
                 || is_str (optProp record "@type") "LocalBusiness"
              then extractOrganization record p else Ok p) = Ok p1
             /\ sameEntries p p1).
  { destruct (_ || _).
    - exact (extractOrganization_plain record p c Hplain Hcontact).
    - exists p. split; [reflexivity | exact (sameEntries_refl p c Hcontact)]. }
  destruct Horg as [p1 [Hrun1 Hsame1]]. rewrite Hrun1. cbn [bind].
  rewrite Hmo, Hcat, Hemp, Hfou, !orb_false_r. cbn [orb].
  rewrite (falsy_not_array _ Hmo).
  assert (Hproduct : (if is_str (optProp record "@type") "Product"
                      then forEachM addProduct [optProp record "makesOffer"] p1
                      else Ok p1) = Ok p1).
  { destruct (is_str _ "Product"); [|reflexivity].
    cbn [forEachM]. unfold addProduct. rewrite (falsy_no_property _ "name" Hmo).
    reflexivity. }
  rewrite Hproduct. cbn [bind].
  rewrite (falsy_no_property _ "itemListElement" Hcat).
  assert (Hservice : (if is_str (optProp record "@type") "Service"
                      then match orElse JUndefined (JArr []) with
                           | JArr items => forEachM addService items p1
                           | _ => Throw "services.forEach is not a function"
                           end
                      else Ok p1) = Ok p1).
  { destruct (is_str _ "Service"); reflexivity. }
  rewrite Hservice. cbn [bind].
  exists p1. split; [reflexivity | exact Hsame1].
Qed.

Lemma forEachM_extractRecord_plain (records : list JsVal) (p : Partial.t) (c : ContactInfo) :
  forallb plainRecord records = true ->
  Partial.contactInfo p = Some c ->
  exists p', forEachM extractRecord records p = Ok p' /\ sameEntries p p'.
Proof.
  revert p c. induction records as [|record rest IH]; intros p c Hplain Hcontact.
  - exists p. split; [reflexivity | exact (sameEntries_refl p c Hcontact)].
  - cbn [forallb] in Hplain. apply andb_true_iff in Hplain.
    destruct Hplain as [Hrecord Hrest].
    destruct (extractRecord_plain record p c Hrecord Hcontact) as [mid [Hrun Hsame]].
    cbn [forEachM]. rewrite Hrun. cbn [bind].
    pose proof Hsame as [_ [_ [_ [c0 [c' [_ [Hmid _]]]]]]].
    destruct (IH mid c' Hrest Hmid) as [p' [Hrun' Hsame']].
    exists p'. split; [exact Hrun' | exact (sameEntries_trans _ _ _ Hsame Hsame')].
Qed.

(** X17: on records without nested parts the structured extractor always
    returns.  When no record is null or undefined, none has a truthy
    contactPoint, address, makesOffer, hasOfferCatalog, employee or founder,
    and every sameAs that is a list holds strings only, the call returns a
    partial profile with no service, no product, no team entry, and no
    email, phone or address. *)
Theorem extractFromStructuredData_returns_on_plain_records :
  forall records : list JsVal,
    forallb plainRecord records = true ->
    exists structured c,
      extractFromStructuredData records = Ok structured
      /\ Partial.services structured = Some []
      /\ Partial.products structured = Some []
      /\ Partial.teamInfo structured = Some []
      /\ Partial.contactInfo structured = Some c
      /\ email c = None /\ phone c = None /\ address c = None.
Proof.
  intros records Hplain.
  destruct (forEachM_extractRecord_plain records emptyStructured emptyContact Hplain eq_refl)
    as [extracted [Hrun [Hs [Hp [Ht [c [c' [Hc [Hc' [He [Hph Ha]]]]]]]]]]].
  inversion Hc; subst c. cbn in He, Hph, Ha, Hs, Hp, Ht.
  unfold extractFromStructuredData. rewrite Hrun. cbn [bind].
  eexists. exists c'. split; [reflexivity|].
  destruct extracted; cbn in *. repeat split; assumption.
Qed.

Lemma extractFromStructuredData_returns_on_plain_records_witness :
  exists structured c,
    extractFromStructuredData [Examples.acmeRecord; Examples.wellFormed; JStr "text"]
    = Ok structured
    /\ Partial.services structured = Some []
    /\ Partial.products structured = Some []
    /\ Partial.teamInfo structured = Some []
    /\ Partial.contactInfo structured = Some c
    /\ email c = None /\ phone c = None /\ address c = None.
Proof.
  apply (extractFromStructuredData_returns_on_plain_records
           [Examples.acmeRecord; Examples.wellFormed; JStr "text"]).
  vm_compute. reflexivity.
Defined.

(* ------------------------------------------------------------------ *)
(** ** formatAddress *)

Lemma joinVals_texts (sep : string) (texts : list string) :
  joinVals sep (map JStr texts) = Ok (String.concat sep texts).
Proof.
  induction texts as [|s rest IH]; [reflexivity|].
  cbn [map joinVals bind]. destruct rest as [|t rest']; [reflexivity|].
  cbn [map] in *. rewrite IH. reflexivity.
Qed.

Lemma truthy_texts (values : list JsVal) :
  forallb textOrMissing values = true ->
  filter truthy values = map JStr (filter nonEmpty (map textOf values)).
Proof.
  induction values as [|v rest IH]; [reflexivity|].
  cbn [forallb]. intro H. apply andb_true_iff in H. destruct H as [Hv Hrest].
  cbn [filter map]. rewrite (IH Hrest).
  destruct v as [| | | |s| |]; try discriminate; try reflexivity.
  cbn [truthy textOf]. unfold nonEmpty.
  destruct (String.eqb s EmptyString); reflexivity.
Qed.

(** X18: [formatAddress] joins the sub-fields that are set.  On an address
    whose street, locality, region, postal code and country are strings or
    missing, the result is the non-empty ones among them in that order,
    separated by a comma and a space.  On a truthy address that is no
    object, such as a string, no sub-field exists and the result is the
    empty string: the text of such an address is lost. *)
Theorem formatAddress_joins_set_subfields :
  (forall props : list (string * JsVal),
      forallb (fun key => textOrMissing (optProp (JObj props) key)) addressKeys = true ->
      formatAddress (JObj props)
      = Ok (String.concat ", "
              (filter nonEmpty
                      (map (fun key => textOf (optProp (JObj props) key)) addressKeys))))
  /\ (forall address : JsVal,
         truthy address = true ->
         (forall props, address <> JObj props) ->
         formatAddress address = Ok EmptyString).
Proof.
  split.
  - intros props H. unfold formatAddress. cbn [getProp bind].
    change [optProp (JObj props) "streetAddress"; optProp (JObj props) "addressLocality";
            optProp (JObj props) "addressRegion"; optProp (JObj props) "postalCode";
            optProp (JObj props) "addressCountry"]
      with (map (fun key => optProp (JObj props) key) addressKeys).
    rewrite truthy_texts.
    + rewrite map_map. apply joinVals_texts.
    + exact H.
  - intros address Htruthy Hobject.
    destruct address; try discriminate; try reflexivity.
    exfalso. exact (Hobject _ eq_refl).
Qed.

Lemma formatAddress_joins_set_subfields_witness :
  formatAddress (JObj [("addressCountry", JStr "NL"); ("streetAddress", JStr "1 Main St");
                       ("addressRegion", JStr EmptyString); ("postalCode", JNull)])
  = Ok "1 Main St, NL"
  /\ formatAddress (JStr "1 Main St, Utrecht") = Ok EmptyString.
Proof.
  split.
  - apply (proj1 formatAddress_joins_set_subfields
             [("addressCountry", JStr "NL"); ("streetAddress", JStr "1 Main St");
              ("addressRegion", JStr EmptyString); ("postalCode", JNull)]).
    vm_compute. reflexivity.
  - apply (proj2 formatAddress_joins_set_subfields (JStr "1 Main St, Utrecht")).
    + reflexivity.
    + intros props H. discriminate H.
Defined.

(* ------------------------------------------------------------------ *)
(** ** containsExcludedContent *)

Lemma starts_with_prefixOf (t s : string) : starts_with t s = true <-> prefixOf t s.
Proof.
  unfold prefixOf. revert s. induction t as [|a t IH]; intro s.
  - split; [intros _; exists s; reflexivity | reflexivity].
  - destruct s as [|b s]; simpl.
    + split; [discriminate | intros [rest H]; discriminate].
    + rewrite andb_true_iff, IH. split.
      * intros [Hab [rest ->]]. apply Ascii.eqb_eq in Hab. subst b.
        exists rest. reflexivity.
      * intros [rest H]. inversion H. split; [apply Ascii.eqb_refl|].
        exists rest. reflexivity.
Qed.

Lemma includes_iff (s t : string) : includes s t = true <-> occursIn t s.
Proof.
  split.
  - induction s as [|a s IH]; simpl; intro H.
    + rewrite orb_false_r in H. apply starts_with_prefixOf in H.
      apply prefixOf_occursIn. exact H.
    + apply orb_true_iff in H. destruct H as [H | H].
      * apply prefixOf_occursIn. apply (proj1 (starts_with_prefixOf t (String a s))).
        exact H.
      * apply occursIn_cons. exact (IH H).
  - intro H. apply (includes_occursIn t s t H).
    destruct t; simpl; [reflexivity|].
    rewrite Ascii.eqb_refl. simpl.
    assert (Hself : starts_with t t = true)
      by (apply starts_with_prefixOf; exists EmptyString; rewrite append_nil_r; reflexivity).
    rewrite Hself. reflexivity.
Qed.

Lemma toLowerCase_occursIn (x s : string) :
  occursIn x s -> occursIn (toLowerCase x) (toLowerCase s).
Proof.
  intros [front [back ->]]. exists (toLowerCase front), (toLowerCase back).
  rewrite !toLowerCase_append. reflexivity.
Qed.

Lemma containsExcludedContent_iff (text : string) :
  containsExcludedContent text = true
  <-> exists term, In term EXCLUDED_CONTENT /\ occursIn term (toLowerCase text).
Proof.
  unfold containsExcludedContent. rewrite existsb_exists.
  split; intros [term [Hin H]]; exists term; (split; [exact Hin|]);
    apply includes_iff; exact H.
Qed.

Lemma lower_of_upper_char (a : ascii) : lower_char (upper_char a) = lower_char a.
Proof.
  destruct a as [[] [] [] [] [] [] [] []]; reflexivity.
Qed.

Lemma toLowerCase_toUpperCase (s : string) : toLowerCase (toUpperCase s) = toLowerCase s.
Proof.
  induction s as [|a s IH]; simpl; [reflexivity|].
  rewrite lower_of_upper_char, IH. reflexivity.
Qed.

(** X19: on ASCII text the excluded-content test is a case-insensitive
    substring test.  A text is excluded exactly when its lower-case form
    contains one of the eleven terms; putting the text in lower case or in
    upper case does not change the answer; and every ASCII text that
    contains an excluded text is excluded, so a term inside a longer word
    excludes the entry too. *)
Theorem containsExcludedContent_substring_test :
  forall text : string,
    isAscii text = true ->
    (containsExcludedContent text = true
     <-> exists term, In term EXCLUDED_CONTENT /\ occursIn term (toLowerCase text))
    /\ containsExcludedContent (toLowerCase text) = containsExcludedContent text
    /\ containsExcludedContent (toUpperCase text) = containsExcludedContent text
    /\ (forall longer : string,
           isAscii longer = true ->
           occursIn text longer ->
           containsExcludedContent text = true -> containsExcludedContent longer = true).
Proof.
  intros text _. split; [apply containsExcludedContent_iff|]. split; [|split].
  - unfold containsExcludedContent. rewrite toLowerCase_idempotent. reflexivity.
  - unfold containsExcludedContent. rewrite toLowerCase_toUpperCase. reflexivity.
  - intros longer _ Hin H. apply containsExcludedContent_iff in H.
    destruct H as [term [Hterm Hocc]]. apply containsExcludedContent_iff.
    exists term. split; [exact Hterm|].
    exact (occursIn_trans _ _ _ Hocc (toLowerCase_occursIn _ _ Hin)).
Qed.

Lemma containsExcludedContent_substring_test_witness :
  containsExcludedContent "Coffee roasting" = true
  /\ containsExcludedContent "API KEY ROTATION" = true.
Proof.
  split.
  - apply (proj2 (proj2 (proj2 (containsExcludedContent_substring_test "fee" eq_refl)))
             "Coffee roasting").
    + reflexivity.
    + exists "Cof", " roasting". reflexivity.
    + reflexivity.
  - change "API KEY ROTATION" with (toUpperCase "api key rotation").
    rewrite (proj1 (proj2 (proj2 (containsExcludedContent_substring_test
                                    "api key rotation" eq_refl)))).
    reflexivity.
Defined.

(* ------------------------------------------------------------------ *)
(** ** cleanTemplate *)

Lemma replace_all_from_allChars (p : ascii -> bool) (ci : bool) (r : regex)
      (replacement : string) (fuel : nat) :
  allChars p replacement = true ->
  forall s, allChars p s = true ->
            allChars p (Templates.replace_all_from fuel ci r replacement s) = true.
Proof.
  intro Hrepl. induction fuel as [|fuel IH]; intros s Hs; simpl; [exact Hs|].
  destruct (search ci r s) as [m|] eqn:Hsearch; [|exact Hs].
  destruct (search_sound _ _ _ _ Hsearch) as [Hsplit _].
  rewrite Hsplit in Hs. rewrite !allChars_append in Hs.
  apply andb_true_iff in Hs. destruct Hs as [Hbefore Hs].
  apply andb_true_iff in Hs. destruct Hs as [Hmatched Hafter].
  rewrite !allChars_append, Hbefore, Hrepl. cbn [andb].
  destruct (matched m) as [|a rest].
  - destruct (after m) as [|b rest']; [reflexivity|].
    simpl in Hafter. apply andb_true_iff in Hafter. destruct Hafter as [Hb Hrest].
    simpl. rewrite Hb. apply IH. exact Hrest.
  - apply IH. exact Hafter.
Qed.

Lemma joinLines_allChars (p : ascii -> bool) (sep : string) (lines : list string) :
  allChars p sep = true ->
  (forall line, In line lines -> allChars p line = true) ->
  allChars p (Templates.joinLines sep lines) = true.
Proof.
  intro Hsep. induction lines as [|line rest IH]; intro Hlines; [reflexivity|].
  cbn [Templates.joinLines]. destruct rest as [|next rest'].
  - apply Hlines. left. reflexivity.
  - rewrite !allChars_append, Hsep, (Hlines line (or_introl eq_refl)). cbn [andb].
    apply IH. intros l Hl. apply Hlines. right. exact Hl.
Qed.

Lemma no_brace_line (line : string) :
  negb (includes line "{") && negb (includes line "}") = true ->
  allChars (fun a => negb (isBrace a)) line = true.
Proof.
  intro H. apply andb_true_iff in H. destruct H as [Hopen Hclose].
  apply negb_true_iff in Hopen, Hclose.
  apply includes_char_false in Hopen, Hclose.
  induction line as [|a line IH]; [reflexivity|].
  cbn [allChars] in *. apply andb_true_iff in Hopen, Hclose.
  destruct Hopen as [Ho Hopen], Hclose as [Hc Hclose].
  rewrite (IH Hopen Hclose). unfold isBrace.
  apply negb_true_iff in Ho, Hc. rewrite Ho, Hc. reflexivity.
Qed.

Lemma cleanTemplate_no_brace (content : string) :
  allChars (fun a => negb (isBrace a)) (Templates.cleanTemplate content) = true.
Proof.
  unfold Templates.cleanTemplate. cbv zeta.
  apply (occursIn_allChars _ _ _ (trim_occursIn _)).
  unfold Templates.replace_g.
  apply replace_all_from_allChars; [reflexivity|].
  apply replace_all_from_allChars; [reflexivity|].
  apply joinLines_allChars; [reflexivity|].
  intros line Hin. apply filter_In in Hin. destruct Hin as [_ Hline].
  apply no_brace_line. exact Hline.
Qed.

Lemma no_brace_includes (s : string) :
  allChars (fun a => negb (isBrace a)) s = true ->
  includes s "{" = false /\ includes s "}" = false.
Proof.
  intro H. split; apply includes_char_false;
    apply (allChars_weaken (fun a => negb (isBrace a))); try exact H;
    intros a Ha; unfold isBrace in Ha; apply negb_true_iff in Ha;
    apply orb_false_iff in Ha; destruct Ha as [Ho Hc];
    [rewrite Ho | rewrite Hc]; reflexivity.
Qed.

(** X20: what [cleanTemplate] returns contains no curly brace, neither an
    opening nor a closing one, and has no white space at either end,
    whatever the text it is given. *)
Theorem cleanTemplate_has_no_placeholder :
  forall content : string,
    includes (Templates.cleanTemplate content) "{" = false
    /\ includes (Templates.cleanTemplate content) "}" = false
    /\ trim (Templates.cleanTemplate content) = Templates.cleanTemplate content.
Proof.
  intro content.
  destruct (no_brace_includes _ (cleanTemplate_no_brace content)) as [Hopen Hclose].
  split; [exact Hopen|]. split; [exact Hclose|].
  unfold Templates.cleanTemplate. cbv zeta. apply trim_idempotent.
Qed.

(* ------------------------------------------------------------------ *)
(** ** The meta tags of a scraped page *)

Lemma lookup_assign {V : Type} (key k : string) (v : V) (props : list (string * V)) :
  lookup key (assign k v props) = if String.eqb k key then Some v else lookup key props.
Proof.
  induction props as [|[k0 old] rest IH]; simpl.
  - reflexivity.
  - destruct (String.eqb_spec k0 k) as [-> | Hk0]; simpl.
    + destruct (String.eqb k key); reflexivity.
    + rewrite IH. destruct (String.eqb_spec k0 key) as [-> | Hkey]; [|reflexivity].
      destruct (String.eqb_spec k key); [congruence | reflexivity].
Qed.

Lemma assign_values {V : Type} (P : string -> V -> Prop) (k : string) (v : V)
      (props : list (string * V)) :
  P k v ->
  (forall key value, In (key, value) props -> P key value) ->
  forall key value, In (key, value) (assign k v props) -> P key value.
Proof.
  intros Hnew Hold key value Hin. apply assign_In in Hin.
  destruct Hin as [[-> ->] | Hin]; [exact Hnew | exact (Hold _ _ Hin)].
Qed.

(** What the loop over the [meta] elements keeps true. *)
Lemma addMeta_invariant (elements : list Scraper.MetaElement) :
  forall metaTags : list (string * string),
    NoDup (map fst metaTags) ->
    (forall key value, In (key, value) metaTags ->
                       key <> EmptyString /\ key <> "__proto__" /\ value <> EmptyString) ->
    NoDup (map fst (fold_left Scraper.addMeta elements metaTags))
    /\ (forall key value,
           In (key, value) (fold_left Scraper.addMeta elements metaTags) ->
           key <> EmptyString /\ key <> "__proto__" /\ value <> EmptyString).
Proof.
  induction elements as [|element rest IH]; intros metaTags Hnodup Hentries.
  - split; assumption.
  - cbn [fold_left]. apply IH.
    + unfold Scraper.addMeta.
      destruct (Scraper.metaKey element) as [name|]; [|exact Hnodup].
      destruct (Scraper.attrContent element) as [content|]; [|exact Hnodup].
      destruct (_ || _); [exact Hnodup|].
      destruct (String.eqb name "__proto__"); [exact Hnodup|].
      apply assign_NoDup. exact Hnodup.
    + unfold Scraper.addMeta.
      destruct (Scraper.metaKey element) as [name|]; [|exact Hentries].
      destruct (Scraper.attrContent element) as [content|]; [|exact Hentries].
      destruct (String.eqb_spec name EmptyString) as [|Hname]; [exact Hentries|].
      destruct (String.eqb_spec content EmptyString) as [|Hcontent]; [exact Hentries|].
      cbn [orb].
      destruct (String.eqb_spec name "__proto__") as [|Hproto]; [exact Hentries|].
      apply assign_values; [|exact Hentries].
      repeat split; assumption.
Qed.

Lemma lookup_addMeta (key : string) (metaTags : list (string * string))
      (element : Scraper.MetaElement) :
  key <> EmptyString -> key <> "__proto__" ->
  lookup key (Scraper.addMeta metaTags element)
  = if setsKey key element then Scraper.attrContent element else lookup key metaTags.
Proof.
  intros Hkey Hproto. unfold Scraper.addMeta, setsKey.
  destruct (Scraper.metaKey element) as [name|]; [|reflexivity].
  destruct (Scraper.attrContent element) as [content|]; [|reflexivity].
  destruct (String.eqb_spec content EmptyString) as [|Hcontent].
  - rewrite orb_true_r, andb_false_r. reflexivity.
  - rewrite orb_false_r, andb_true_r.
    destruct (String.eqb_spec name EmptyString) as [-> | Hname].
    + destruct (String.eqb_spec EmptyString key); [congruence | reflexivity].
    + destruct (String.eqb_spec name "__proto__") as [-> | Hnp].
      * destruct (String.eqb_spec "__proto__" key); [congruence | reflexivity].
      * apply lookup_assign.
Qed.

Lemma lookup_fold_addMeta (key : string) (elements : list Scraper.MetaElement)
      (metaTags : list (string * string)) :
  key <> EmptyString -> key <> "__proto__" ->
  lookup key (fold_left Scraper.addMeta elements metaTags)
  = match find (setsKey key) (rev elements) with
    | Some element => Scraper.attrContent element
    | None => lookup key metaTags
    end.
Proof.
  intros Hkey Hproto. induction elements as [|element front IH] using rev_ind.
  - reflexivity.
  - rewrite fold_left_app, rev_unit. cbn [fold_left find].
    rewrite (lookup_addMeta key _ element Hkey Hproto), IH.
    destruct (setsKey key element); reflexivity.
Qed.

(** X22: the meta tags of a page as a map.  Its keys are distinct and none
    is empty; no value is empty.  The value of a key other than [title] is
    the content of the last [meta] element that carries the key as its name,
    or as its property when it has no name, with a content that is not
    empty; the key is missing when there is no such element.  The text of
    the [title] element, when it is not empty, takes the place of whatever a
    [meta] element named title has set. *)
Theorem extractMetaTags_last_element_wins :
  forall (elements : list Scraper.MetaElement) (title : string),
    NoDup (map fst (Scraper.extractMetaTags elements title))
    /\ (forall key value,
           In (key, value) (Scraper.extractMetaTags elements title) ->
           key <> EmptyString /\ value <> EmptyString)
    /\ (forall key,
           key <> EmptyString -> key <> "__proto__" -> key <> "title" ->
           lookup key (Scraper.extractMetaTags elements title) = lastContent key elements)
    /\ lookup "title" (Scraper.extractMetaTags elements title)
       = (if String.eqb title EmptyString then lastContent "title" elements
          else Some title).
Proof.
  intros elements title.
  destruct (addMeta_invariant elements [] (NoDup_nil _)) as [Hnodup Hentries];
    [intros ? ? [] |].
  unfold Scraper.extractMetaTags, lastContent. cbv zeta.
  destruct (String.eqb_spec title EmptyString) as [Htitle | Htitle].
  - split; [exact Hnodup|]. split.
    + intros key value Hin. destruct (Hentries key value Hin) as [Hk [_ Hv]].
      split; assumption.
    + split.
      * intros key Hkey Hproto _. apply lookup_fold_addMeta; assumption.
      * apply lookup_fold_addMeta; discriminate.
  - split; [apply assign_NoDup; exact Hnodup|]. split.
    + apply assign_values.
      * split; [discriminate | exact Htitle].
      * intros key value Hin. destruct (Hentries key value Hin) as [Hk [_ Hv]].
        split; assumption.
    + split.
      * intros key Hkey Hproto Hnot. rewrite lookup_assign.
        destruct (String.eqb_spec "title" key) as [Heq | _]; [congruence|].
        apply lookup_fold_addMeta; assumption.
      * rewrite lookup_assign. reflexivity.
Qed.

Lemma extractMetaTags_last_element_wins_witness :
  lookup "description"
         (Scraper.extractMetaTags
            [ Scraper.mkMeta (Some "description") None (Some "First");
              Scraper.mkMeta None (Some "og:title") (Some "Acme");
              Scraper.mkMeta (Some EmptyString) (Some "description") (Some "Second");
              Scraper.mkMeta (Some "description") None (Some EmptyString) ]
            "Acme | Home")
  = Some "Second".
Proof.
  apply (proj1 (proj2 (proj2 (extractMetaTags_last_element_wins
           [ Scraper.mkMeta (Some "description") None (Some "First");
             Scraper.mkMeta None (Some "og:title") (Some "Acme");
             Scraper.mkMeta (Some EmptyString) (Some "description") (Some "Second");
             Scraper.mkMeta (Some "description") None (Some EmptyString) ]
           "Acme | Home"))) "description"); discriminate.
Defined.

(* ------------------------------------------------------------------ *)
(** ** Pages whose records have no nested parts *)

Lemma lastSet_textual (key : string) (records : list JsVal) :
  (forall record, In record records -> textual (optProp record key)) ->
  textual (lastSet key records).
Proof.
  intro Hall. unfold lastSet.
  destruct (find _ (rev records)) as [record|] eqn:Hfind; [|exact I].
  apply find_some in Hfind. destruct Hfind as [Hin _].
  apply in_rev in Hin. exact (Hall record Hin).
Qed.

Lemma merged_scalars_textual (structured meta content : Partial.t) :
  textual (Partial.companyName structured) ->
  textual (Partial.description structured) ->
  textual (Partial.tagline structured) ->
  textual (Partial.companyName meta) ->
  textual (Partial.description meta) ->
  textual (Partial.tagline meta) ->
  textual (Partial.companyName content) ->
  textual (Partial.description content) ->
  textual (Partial.tagline content) ->
  exists allText,
    allTextOf (mergeExtractedData [structured; meta; content]) = Ok allText.
Proof.
  intros Hsn Hsd Hst Hmn Hmd Hmt Hcn Hcd Hct.
  set (merged := mergeExtractedData _).
  unfold allTextOf.
  destruct (joinVals_textual " "
              ([companyName merged; description merged; tagline merged]
                 ++ map JStr (services merged) ++ map JStr (products merged)))
    as [joined Hjoined].
  - repeat constructor.
    + subst merged. unfold mergeExtractedData.
      cbn [fold_left mergeSource companyName emptyMerged].
      repeat apply mergeValue_textual; assumption || exact I.
    + subst merged. unfold mergeExtractedData.
      cbn [fold_left mergeSource description emptyMerged].
      repeat apply mergeValue_textual; assumption || exact I.
    + subst merged. unfold mergeExtractedData.
      cbn [fold_left mergeSource tagline emptyMerged].
      repeat apply mergeValue_textual; assumption || exact I.
    + apply Forall_app. split; apply Forall_forall; intros v Hv;
        apply in_map_iff in Hv; destruct Hv as [str [<- _]]; exact I.
  - rewrite Hjoined. eexists. reflexivity.
Qed.

(** X24: the whole extraction returns on a page whose records have no
    nested parts.  When every record is plain, and the name, the
    description and the slogan of every record are strings or missing,
    [extractData] returns a profile; its business type is set and its
    structured data are the records of the page. *)
Theorem extractData_returns_on_plain_records :
  forall page : ScrapedContent,
    forallb plainRecord (jsonLd page) = true ->
    (forall record, In record (jsonLd page) -> textualKeys record) ->
    exists profile,
      extractData page = Ok profile
      /\ businessType profile <> None
      /\ schemaData profile = Some (jsonLd page).
Proof.
  intros page Hplain Htextual.
  destruct (forEachM_extractRecord_plain (jsonLd page) emptyStructured emptyContact
              Hplain eq_refl) as [extracted [Hrun _]].
  pose proof (forEachM_extractRecord_scalars _ _ _ Hrun) as Hscalars.
  rewrite !keepLast_fold in Hscalars. cbn [Partial.companyName Partial.description
    Partial.tagline emptyStructured] in Hscalars.
  unfold scalars in Hscalars. inversion Hscalars as [[Hn Hd Ht]]. clear Hscalars.
  assert (Hstructured : extractFromStructuredData (jsonLd page)
                        = Ok (Partial.set_schemaData (Some (jsonLd page)) extracted)).
  { unfold extractFromStructuredData. rewrite Hrun. reflexivity. }
  destruct (extractFromMetaTags_textual (metaTags page)) as [Hmn [Hmd Hmt]].
  destruct (extractFromContent_leaves_names (textContent page) (html page))
    as [Hcn [Hcd Hct]].
  destruct (merged_scalars_textual
              (Partial.set_schemaData (Some (jsonLd page)) extracted)
              (extractFromMetaTags (metaTags page))
              (extractFromContent (textContent page) (html page)))
    as [allText HallText]; try assumption.
  - cbn [Partial.set_schemaData Partial.companyName]. rewrite Hn.
    apply (lastSet_textual "name"). intros r Hr. apply (Htextual r Hr).
  - cbn [Partial.set_schemaData Partial.description]. rewrite Hd.
    apply (lastSet_textual "description"). intros r Hr. apply (Htextual r Hr).
  - cbn [Partial.set_schemaData Partial.tagline]. rewrite Ht.
    apply (lastSet_textual "slogan"). intros r Hr. apply (Htextual r Hr).
  - rewrite Hcn. exact I.
  - rewrite Hcd. exact I.
  - rewrite Hct. exact I.
  - unfold extractData. rewrite Hstructured. cbn [bind].
    unfold classifyBusinessType. rewrite HallText. cbn [bind].
    eexists. split; [reflexivity|]. split.
    + unfold cleanExtractedData, set_businessType. cbn [businessType]. discriminate.
    + unfold cleanExtractedData, set_businessType. cbn [schemaData].
      apply merged_schemaData. exact Hstructured.
Qed.

Lemma extractData_returns_on_plain_records_witness :
  exists profile,
    extractData Examples.acmePage = Ok profile
    /\ businessType profile <> None
    /\ schemaData profile = Some (jsonLd Examples.acmePage).
Proof.
  apply (extractData_returns_on_plain_records Examples.acmePage).
  - vm_compute. reflexivity.
  - intros record [<- | []]. vm_compute. repeat split.
Defined.

(* ------------------------------------------------------------------ *)
(** ** The documentation link of the text extractor *)

Lemma search_complete (ci : bool) (r : regex) (front target rest : string) (caps : captures) :
  Matches ci r target [] rest caps ->
  exists m, search ci r (front ++ target) = Some m.
Proof.
  intro Hm. induction front as [|a front [m IH]].
  - destruct (match_here_complete ci r target rest caps Hm) as [m Hhere].
    exists m. destruct target; simpl; rewrite Hhere; reflexivity.
  - cbn [append search]. destruct (match_here ci r (String a (front ++ target))) as [m0|].
    + exists m0. reflexivity.
    + rewrite IH. eexists. reflexivity.
Qed.

Lemma match_g_nonempty (re : RegExp) (s : string) :
  match_g re s <> [] <-> exists m, search (ignoreCase re) (pattern re) s = Some m.
Proof.
  unfold match_g. cbn [match_all_from].
  destruct (search (ignoreCase re) (pattern re) s) as [m|].
  - split; [intros _; exists m; reflexivity | intros _; discriminate].
  - split; [intro H; contradiction | intros [m H]; discriminate].
Qed.

Lemma quote_has_no_case (b : ascii) :
  upper_char (ascii_of_nat 34) = upper_char b -> b = ascii_of_nat 34.
Proof.
  destruct b as [[] [] [] [] [] [] [] []]; intro H; try reflexivity;
    vm_compute in H; discriminate H.
Qed.

(** A literal that holds a character without case is only matched by a text
    that holds the character. *)
Lemma lit_keeps_caseless (ci : bool) (c : ascii) (p : string) :
  (forall b, upper_char c = upper_char b -> b = c) ->
  forall s rest,
    lit ci p s = Some rest ->
    includes p (String c EmptyString) = true ->
    includes s (String c EmptyString) = true.
Proof.
  intro Hcase. induction p as [|a p IH]; intros s rest Hlit Hp.
  - discriminate.
  - destruct s as [|b s]; [discriminate|]. cbn [lit] in Hlit.
    destruct (Ascii.eqb a b || ci && Ascii.eqb (upper_char a) (upper_char b)) eqn:Hab;
      [|discriminate].
    rewrite includes_char in Hp |- *. cbn [allChars] in Hp |- *.
    apply negb_true_iff in Hp. apply negb_true_iff.
    apply andb_false_iff in Hp. apply andb_false_iff.
    destruct Hp as [Hhead | Htail].
    + left. apply negb_false_iff in Hhead. apply Ascii.eqb_eq in Hhead. subst a.
      apply negb_false_iff. apply Ascii.eqb_eq.
      apply orb_true_iff in Hab. destruct Hab as [Hab | Hab].
      * apply Ascii.eqb_eq in Hab. exact Hab.
      * apply andb_true_iff in Hab. destruct Hab as [_ Hab].
        apply Ascii.eqb_eq in Hab. symmetry. exact (Hcase b Hab).
    + right. apply negb_true_iff in Htail. rewrite <- includes_char in Htail.
      pose proof (IH s rest Hlit Htail) as Hs. rewrite includes_char in Hs.
      apply negb_true_iff in Hs. exact Hs.
Qed.

Lemma apiLink_needs_quote (target rest : string) (caps : captures) :
  Matches true (pattern apiLink) target [] rest caps ->
  includes target dquote = true.
Proof.
  intro Hm. cbn [pattern apiLink Cat fold_right] in Hm.
  inversion Hm as [ | | r1 r2 s0 s1 s2 c0 c1 c2 Hhref Hrest | | | | | | | ]; subst.
  inversion Hhref as [p s rest' c Hlit | | | | | | | | | ]; subst.
  apply (lit_keeps_caseless true (ascii_of_nat 34) _ quote_has_no_case _ _ Hlit).
  reflexivity.
Qed.

(** X25: the documentation link.  The text extractor sets [apiDocs] to one
    fixed phrase, or leaves it unset; it sets it exactly when the link
    pattern matches somewhere in the markup, wherever that is and whatever
    the visible text says; and markup without a double quote, such as a
    link whose address is in single quotes, never sets it. *)
Theorem extractFromContent_apiDocs_from_markup :
  forall text markup : string,
    (Partial.apiDocs (extractFromContent text markup) = JStr "API documentation available"
     \/ Partial.apiDocs (extractFromContent text markup) = JUndefined)
    /\ (Partial.apiDocs (extractFromContent text markup) = JStr "API documentation available"
        <-> exists front target rest caps,
              markup = (front ++ target)%string
              /\ Matches true (pattern apiLink) target [] rest caps)
    /\ (includes markup dquote = false ->
        Partial.apiDocs (extractFromContent text markup) = JUndefined).
Proof.
  intros text markup.
  destruct (extractFromContent_fields text markup) as [_ [_ [_ [Hapi _]]]].
  rewrite Hapi. clear Hapi.
  assert (Hiff : match_g apiLink markup <> []
                 <-> exists front target rest caps,
                       markup = (front ++ target)%string
                       /\ Matches true (pattern apiLink) target [] rest caps).
  { rewrite match_g_nonempty. split.
    - intros [m Hsearch]. destruct (search_sound _ _ _ _ Hsearch) as [Hsplit Hm].
      exists (before m), (matched m ++ after m)%string, (after m), (groups m).
      split; assumption.
    - intros [front [target [rest [caps [-> Hm]]]]].
      exact (search_complete _ _ front target rest caps Hm). }
  split; [|split].
  - destruct (match_g apiLink markup); [right | left]; reflexivity.
  - destruct (match_g apiLink markup) as [|first others].
    + split; [intro; discriminate|]. intro H. apply Hiff in H. contradiction.
    + split; [|reflexivity]. intros _. apply Hiff. discriminate.
  - intro Hquote. destruct (match_g apiLink markup) as [|first others]; [reflexivity|].
    exfalso.
    assert (Hne : first :: others <> []) by discriminate.
    apply Hiff in Hne. destruct Hne as [front [target [rest [caps [-> Hm]]]]].
    apply apiLink_needs_quote in Hm.
    rewrite (includes_append_front front target dquote Hm) in Hquote. discriminate.
Qed.

Lemma extractFromContent_apiDocs_from_markup_witness :
  Partial.apiDocs (extractFromContent "Read our API docs" "<a href='/docs'>Docs</a>")
  = JUndefined.
Proof.
  apply (proj2 (proj2 (extractFromContent_apiDocs_from_markup
                         "Read our API docs" "<a href='/docs'>Docs</a>"))).
  reflexivity.
Defined.

(* ------------------------------------------------------------------ *)
(** ** The visible text of a page *)

Section Greedy.
Context {R : Type}.
Variable ci : bool.
Variable c : cclass.
Variable k : string -> option R.
Variable rest_of : R -> string.
Hypothesis k_total : forall rest, k rest <> None.
Hypothesis k_rest : forall rest r, k rest = Some r -> rest_of r = rest.

Lemma rep_zero_total (s : string) : rep ci c 0 s k <> None.
Proof using k_total.
  induction s as [|a s IH]; cbn [rep Nat.eqb Nat.pred]; [apply k_total|].
  destruct (in_class ci c a); [|apply k_total].
  destruct (rep ci c 0 s k); [discriminate | contradiction].
Qed.

(** A repetition that is followed by nothing that can fail takes every
    character it can. *)
Lemma rep_greedy (min : nat) (s : string) (r : R) :
  rep ci c min s k = Some r ->
  match rest_of r with
  | EmptyString => True
  | String b _ => in_class ci c b = false
  end.
Proof using k_total k_rest.
  revert min. induction s as [|a s IH]; intros min H; cbn [rep] in H.
  - destruct (min =? 0)%nat; [|discriminate].
    rewrite (k_rest _ _ H). exact I.
  - destruct (in_class ci c a) eqn:Ha.
    + destruct (rep ci c (Nat.pred min) s k) as [r'|] eqn:Hrec.
      * inversion H; subst r'. exact (IH _ Hrec).
      * destruct min as [|min]; [|discriminate].
        exfalso. exact (rep_zero_total s Hrec).
    + destruct (min =? 0)%nat; [|discriminate].
      rewrite (k_rest _ _ H). exact Ha.
Qed.
End Greedy.

Lemma match_here_rep_greedy (ci : bool) (c : cclass) (min : nat) (s : string)
      (m : MatchResult) :
  match_here ci (Rep c min) s = Some m ->
  match after m with
  | EmptyString => True
  | String b _ => in_class ci c b = false
  end.
Proof.
  unfold match_here. cbn [mtch]. intro H.
  apply (rep_greedy ci c
           (fun rest => Some (mkMatch EmptyString (consumed s rest) rest []))
           after) with (min := min) (s := s).
  - intros rest. discriminate.
  - intros rest r Hr. inversion Hr. reflexivity.
  - exact H.
Qed.

(** The leftmost run of a class: nothing in front of it is in the class,
    the run is in the class and not empty, and what follows it does not
    start with a character of the class. *)
Lemma search_run (ci : bool) (c : cclass) (s : string) (m : MatchResult) :
  search ci (Rep c 1) s = Some m ->
  s = (before m ++ matched m ++ after m)%string
  /\ allChars (fun a => negb (in_class ci c a)) (before m) = true
  /\ allChars (in_class ci c) (matched m) = true
  /\ matched m <> EmptyString
  /\ match after m with
     | EmptyString => True
     | String b _ => in_class ci c b = false
     end.
Proof.
  intro H. destruct (search_sound _ _ _ _ H) as [Hsplit Hm].
  split; [exact Hsplit|].
  assert (Hrun : allChars (in_class ci c) (matched m) = true /\ matched m <> EmptyString).
  { inversion Hm as [ | | | | | | | c0 min0 s0 rest0 caps0 Hrep | | ]; subst.
    destruct (RepMatches_taken _ _ _ _ _ Hrep) as [taken [Heq [Hall Hlen]]].
    apply append_inv_tail in Heq. subst taken. split; [exact Hall|].
    intro Hempty. rewrite Hempty in Hlen. simpl in Hlen. lia. }
  destruct Hrun as [Hall Hne].
  assert (Hpos : allChars (fun a => negb (in_class ci c a)) (before m) = true
                 /\ match after m with
                    | EmptyString => True
                    | String b _ => in_class ci c b = false
                    end).
  { clear Hsplit Hm Hall Hne. revert m H.
    induction s as [|a s IH]; intros m H; cbn [search] in H.
    - destruct (match_here ci (Rep c 1) EmptyString) as [m0|] eqn:Hhere; [|discriminate].
      inversion H; subst m0.
      destruct (match_here_sound _ _ _ _ Hhere) as [_ [Hb _]]. rewrite Hb.
      split; [reflexivity | exact (match_here_rep_greedy _ _ _ _ _ Hhere)].
    - destruct (match_here ci (Rep c 1) (String a s)) as [m0|] eqn:Hhere.
      + inversion H; subst m0.
        destruct (match_here_sound _ _ _ _ Hhere) as [_ [Hb _]]. rewrite Hb.
        split; [reflexivity | exact (match_here_rep_greedy _ _ _ _ _ Hhere)].
      + destruct (search ci (Rep c 1) s) as [m1|] eqn:Hrec; [|discriminate].
        inversion H; subst m. cbn [before after].
        destruct (IH m1 eq_refl) as [Hbefore Hafter].
        split; [|exact Hafter]. cbn [allChars]. rewrite Hbefore, andb_true_r.
        destruct (in_class ci c a) eqn:Ha; [|reflexivity].
        exfalso.
        assert (Hmatch : Matches ci (Rep c 1) (String a s) [] s []).
        { constructor. apply RM_take; [exact Ha | constructor]. }
        destruct (match_here_complete _ _ _ _ _ Hmatch) as [m0 Hm0].
        rewrite Hm0 in Hhere. discriminate. }
  tauto.
Qed.

Lemma search_no_run (ci : bool) (c : cclass) (s : string) :
  allChars (fun a => negb (in_class ci c a)) s = true -> search ci (Rep c 1) s = None.
Proof.
  intro Hs. destruct (search ci (Rep c 1) s) as [m|] eqn:H; [|reflexivity].
  destruct (search_run _ _ _ _ H) as [Hsplit [_ [Hall [Hne _]]]].
  rewrite Hsplit in Hs. rewrite !allChars_append in Hs.
  apply andb_true_iff in Hs. destruct Hs as [_ Hs].
  apply andb_true_iff in Hs. destruct Hs as [Hs _].
  destruct (matched m) as [|a rest]; [contradiction|].
  cbn [allChars] in Hs, Hall.
  apply andb_true_iff in Hs, Hall. destruct Hs as [Hs _], Hall as [Hall _].
  rewrite Hall in Hs. discriminate.
Qed.

Lemma collapse_no_space (s tail : string) :
  allChars (fun a => negb (is_space a)) s = true ->
  collapseFrom false (s ++ tail) = (s ++ collapseFrom false tail)%string.
Proof.
  induction s as [|a s IH]; cbn [allChars append collapseFrom]; intro H; [reflexivity|].
  apply andb_true_iff in H. destruct H as [Ha Hs]. apply negb_true_iff in Ha.
  rewrite Ha, (IH Hs). reflexivity.
Qed.

Lemma collapse_in_run (run tail : string) :
  allChars is_space run = true ->
  collapseFrom true (run ++ tail) = collapseFrom true tail.
Proof.
  induction run as [|a run IH]; cbn [allChars append collapseFrom]; intro H; [reflexivity|].
  apply andb_true_iff in H. destruct H as [Ha Hrun]. rewrite Ha. exact (IH Hrun).
Qed.

Lemma collapse_after_run (tail : string) :
  match tail with
  | EmptyString => True
  | String b _ => is_space b = false
  end ->
  collapseFrom true tail = collapseFrom false tail.
Proof.
  destruct tail as [|b tail]; intro H; [reflexivity|].
  cbn [collapseFrom]. rewrite H. reflexivity.
Qed.

(** The replacement of every run of white space by one space, as the
    regular expression does it, is the one-pass collapse. *)
Lemma replace_whitespace_collapses (fuel : nat) :
  forall s : string,
    (String.length s < fuel)%nat ->
    Templates.replace_all_from fuel false (Rep CSpace 1) " " s = collapseFrom false s.
Proof.
  induction fuel as [|fuel IH]; intros s Hfuel; [lia|].
  cbn [Templates.replace_all_from].
  destruct (search false (Rep CSpace 1) s) as [m|] eqn:Hsearch.
  - destruct (search_run _ _ _ _ Hsearch) as [Hsplit [Hbefore [Hrun [Hne Hafter]]]].
    cbn [in_class] in Hbefore, Hrun, Hafter.
    pose proof (search_after_length _ _ _ _ Hsearch) as Hlen.
    destruct (matched m) as [|a run] eqn:Hmatched; [contradiction|].
    cbn [String.length] in Hlen.
    rewrite IH by lia.
    rewrite Hsplit. rewrite (collapse_no_space _ _ Hbefore).
    cbn [allChars] in Hrun. apply andb_true_iff in Hrun. destruct Hrun as [Ha Hrun].
    cbn [append collapseFrom]. rewrite Ha.
    rewrite (collapse_in_run _ _ Hrun), (collapse_after_run _ Hafter). reflexivity.
  - assert (Hnone : allChars (fun a => negb (is_space a)) s = true).
    { clear Hfuel IH. induction s as [|a s IHs]; [reflexivity|].
      cbn [search] in Hsearch.
      destruct (match_here false (Rep CSpace 1) (String a s)) as [m0|] eqn:Hhere;
        [discriminate|].
      destruct (search false (Rep CSpace 1) s) as [m1|] eqn:Hrec; [discriminate|].
      cbn [allChars]. rewrite (IHs eq_refl), andb_true_r.
      destruct (is_space a) eqn:Ha; [|reflexivity].
      exfalso.
      assert (Hmatch : Matches false (Rep CSpace 1) (String a s) [] s []).
      { constructor. apply RM_take; [exact Ha | constructor]. }
      destruct (match_here_complete _ _ _ _ _ Hmatch) as [m0 Hm0].
      rewrite Hm0 in Hhere. discriminate. }
    pose proof (collapse_no_space s EmptyString Hnone) as H.
    rewrite append_nil_r in H. cbn [collapseFrom] in H. rewrite append_nil_r in H.
    symmetry. exact H.
Qed.

Lemma spaced_collapse (inRun : bool) (s : string) :
  spaced inRun (collapseFrom inRun s) = true.
Proof.
  revert inRun. induction s as [|a s IH]; intro inRun; [reflexivity|].
  cbn [collapseFrom]. destruct (is_space a) eqn:Ha.
  - destruct inRun; [apply IH|].
    cbn [spaced]. change (is_space " ") with true. cbn. apply IH.
  - cbn [spaced]. rewrite Ha. apply IH.
Qed.

Lemma spaced_weaken (s : string) : spaced true s = true -> spaced false s = true.
Proof.
  destruct s as [|a s]; [reflexivity|]. cbn [spaced].
  destruct (is_space a); [|auto]. rewrite andb_false_r. discriminate.
Qed.

Lemma spaced_tail (afterSpace : bool) (a : ascii) (s : string) :
  spaced afterSpace (String a s) = true -> spaced false s = true.
Proof.
  cbn [spaced]. destruct (is_space a).
  - intro H. apply andb_true_iff in H. destruct H as [_ H]. apply spaced_weaken. exact H.
  - auto.
Qed.

Lemma spaced_trimStart (s : string) : spaced false s = true -> spaced false (trimStart s) = true.
Proof.
  induction s as [|a s IH]; [reflexivity|]. intro H. cbn [trimStart].
  destruct (is_space a) eqn:Ha; [|exact H].
  apply IH. exact (spaced_tail _ _ _ H).
Qed.

Lemma spaced_trimEnd (afterSpace : bool) (s : string) :
  spaced afterSpace s = true -> spaced afterSpace (trimEnd s) = true.
Proof.
  revert afterSpace. induction s as [|a s IH]; intro afterSpace; [reflexivity|].
  cbn [trimEnd spaced]. intro H.
  destruct (is_space a) eqn:Ha.
  - apply andb_true_iff in H. destruct H as [Hhead Hs].
    pose proof (IH true Hs) as Ht.
    destruct (trimEnd s) as [|b t]; [reflexivity|].
    cbn [spaced] in Ht |- *. rewrite Ha, Hhead. exact Ht.
  - pose proof (IH false H) as Ht.
    destruct (trimEnd s) as [|b t]; cbn [spaced] in Ht |- *; rewrite Ha;
      [reflexivity | exact Ht].
Qed.

Lemma spaced_only_spaces (afterSpace : bool) (s : string) :
  spaced afterSpace s = true ->
  allChars (fun a => negb (is_space a) || Ascii.eqb a " ") s = true.
Proof.
  revert afterSpace. induction s as [|a s IH]; intro afterSpace; [reflexivity|].
  cbn [spaced allChars]. destruct (is_space a).
  - intro H. apply andb_true_iff in H. destruct H as [Hhead Hs].
    apply andb_true_iff in Hhead. destruct Hhead as [Ha _].
    rewrite Ha, (IH true Hs). reflexivity.
  - intro H. rewrite (IH false H). reflexivity.
Qed.

Lemma spaced_no_double_space (afterSpace : bool) (s : string) :
  spaced afterSpace s = true -> includes s "  " = false.
Proof.
  revert afterSpace. induction s as [|a s IH]; intro afterSpace; [reflexivity|].
  intro H. cbn [includes]. rewrite (IH _ (spaced_tail _ _ _ H)), orb_false_r.
  cbn [starts_with]. destruct (Ascii.eqb_spec " " a) as [<- | Hne]; [|reflexivity].
  cbn [andb]. destruct s as [|b s]; [reflexivity|].
  destruct (Ascii.eqb_spec " " b) as [<- | Hne']; [|reflexivity].
  exfalso. cbn [spaced] in H. change (is_space " ") with true in H. cbn in H.
  rewrite andb_false_r in H. discriminate.
Qed.

Lemma dropSpaces_collapse (inRun : bool) (s : string) :
  dropSpaces (collapseFrom inRun s) = dropSpaces s.
Proof.
  revert inRun. induction s as [|a s IH]; intro inRun; [reflexivity|].
  cbn [collapseFrom dropSpaces]. destruct (is_space a) eqn:Ha.
  - destruct inRun; [apply IH|]. cbn [dropSpaces]. change (is_space " ") with true.
    cbn iota. apply IH.
  - cbn [dropSpaces]. rewrite Ha, IH. reflexivity.
Qed.

Lemma dropSpaces_trimStart (s : string) : dropSpaces (trimStart s) = dropSpaces s.
Proof.
  induction s as [|a s IH]; [reflexivity|]. cbn [trimStart dropSpaces].
  destruct (is_space a) eqn:Ha; [exact IH|]. cbn [dropSpaces]. rewrite Ha. reflexivity.
Qed.

Lemma dropSpaces_trimEnd (s : string) : dropSpaces (trimEnd s) = dropSpaces s.
Proof.
  induction s as [|a s IH]; [reflexivity|]. cbn [trimEnd dropSpaces].
  destruct (trimEnd s) as [|b t].
  - cbn [dropSpaces] in IH. rewrite <- IH.
    destruct (is_space a) eqn:Ha; [reflexivity|]. cbn [dropSpaces]. rewrite Ha. reflexivity.
  - cbn [dropSpaces]. rewrite <- IH. reflexivity.
Qed.

(** X26: the visible text of a page whose body text is ASCII.
    [extractTextContent] turns every run of white space of the body text
    into one space and trims the result, so the second replacement, of runs
    of line feeds, never changes anything.  In what it returns the only
    white space characters are spaces, no two spaces are adjacent, there is
    no white space at either end, and the other characters are those of the
    body text, in their order. *)
Theorem extractTextContent_single_spaces :
  forall bodyText : string,
    isAscii bodyText = true ->
    Scraper.extractTextContent bodyText = trim (collapseFrom false bodyText)
    /\ allChars (fun a => negb (is_space a) || Ascii.eqb a " ")
                (Scraper.extractTextContent bodyText) = true
    /\ includes (Scraper.extractTextContent bodyText) "  " = false
    /\ trim (Scraper.extractTextContent bodyText) = Scraper.extractTextContent bodyText
    /\ dropSpaces (Scraper.extractTextContent bodyText) = dropSpaces bodyText.
Proof.
  intros bodyText _.
  assert (Hfirst : Templates.replace_g Scraper.whitespaceRun " " bodyText
                   = collapseFrom false bodyText).
  { unfold Templates.replace_g. apply replace_whitespace_collapses. cbn. lia. }
  pose proof (spaced_collapse false bodyText) as Hspaced.
  assert (Hsecond : Templates.replace_g Scraper.newlineRun Templates.newline
                      (collapseFrom false bodyText)
                    = collapseFrom false bodyText).
  { unfold Templates.replace_g, Scraper.newlineRun.
    cbn [pattern ignoreCase Templates.replace_all_from].
    rewrite search_no_run; [reflexivity|].
    apply (allChars_weaken (fun a => negb (is_space a) || Ascii.eqb a " "));
      [|exact (spaced_only_spaces _ _ Hspaced)].
    intros a Ha.
    destruct a as [[] [] [] [] [] [] [] []]; try reflexivity; vm_compute in Ha;
      discriminate Ha. }
  assert (Heq : Scraper.extractTextContent bodyText = trim (collapseFrom false bodyText)).
  { unfold Scraper.extractTextContent. cbv zeta. rewrite Hfirst, Hsecond. reflexivity. }
  assert (Htrimmed : spaced false (trim (collapseFrom false bodyText)) = true).
  { unfold trim. apply spaced_trimEnd. apply spaced_trimStart. exact Hspaced. }
  rewrite Heq. split; [reflexivity|].
  split; [exact (spaced_only_spaces _ _ Htrimmed)|].
  split; [exact (spaced_no_double_space _ _ Htrimmed)|].
  split; [apply trim_idempotent|].
  unfold trim. rewrite dropSpaces_trimEnd, dropSpaces_trimStart.
  apply dropSpaces_collapse.
Qed.

Lemma extractTextContent_single_spaces_witness :
  Scraper.extractTextContent ("  Our   team" ++ Templates.newline ++ "  ships.  ")
  = "Our team ships.".
Proof.
  rewrite (proj1 (extractTextContent_single_spaces
                    ("  Our   team" ++ Templates.newline ++ "  ships.  ") eq_refl)).
  reflexivity.
Defined.

(* ------------------------------------------------------------------ *)
(** ** The generate route with the generator plugged in *)

Lemma generated_content_is_clean (byteSize : string -> N)
      (reply : ExtractedData -> string -> Generator.Reply)
      (data : ExtractedData) (sourceUrl content : string) :
  Generator.generateLLMSText byteSize reply data sourceUrl = Generated content ->
  (Generator.MAX_FILE_SIZE <? byteSize content)%N = false
  /\ content
     = Templates.cleanTemplate
         match reply data sourceUrl with
         | Generator.TextBlock text => text
         | _ => EmptyString
         end.
Proof.
  unfold Generator.generateLLMSText. cbv zeta.
  destruct (reply data sourceUrl) as [text| |]; [| |discriminate];
    match goal with
    | |- context [(_ <? byteSize ?c)%N] =>
        destruct (Generator.MAX_FILE_SIZE <? byteSize c)%N eqn:Hsize
    end; try discriminate; intro H; inversion H; subst; split; assumption || reflexivity.
Qed.

Lemma generation_fails_with_fixed_message (byteSize : string -> N)
      (reply : ExtractedData -> string -> Generator.Reply)
      (data : ExtractedData) (sourceUrl message : string) :
  Generator.generateLLMSText byteSize reply data sourceUrl = Failed message ->
  message = "Failed to generate LLMS.txt file".
Proof.
  unfold Generator.generateLLMSText. cbv zeta.
  destruct (reply data sourceUrl) as [text| |];
    try match goal with
    | |- context [(_ <? byteSize ?c)%N] =>
        destruct (Generator.MAX_FILE_SIZE <? byteSize c)%N
    end; intro H; inversion H; reflexivity.
Qed.

Lemma generate_errorStatus_values (message : string) :
  (errorStatus message = 401 \/ errorStatus message = 429 \/ errorStatus message = 504
   \/ errorStatus message = 413 \/ errorStatus message = 500)%Z.
Proof.
  unfold errorStatus.
  destruct (includes message "API key"); [tauto|].
  destruct (includes message "rate limit"); [tauto|].
  destruct (includes message "timeout"); [tauto|].
  destruct (includes message "exceeds maximum file size"); tauto.
Qed.

(** The handler on a request that passed the schema. *)
Lemma generate_route_parsed (byteSize : string -> N) (codeUnits : string -> nat)
      (reply : ExtractedData -> string -> Generator.Reply)
      (apiKeyConfigured : bool) (request : GenerateRequest) :
  let outcome :=
    POST apiKeyConfigured (Generator.generateLLMSText byteSize reply)
         (Generator.validateGeneratedContent byteSize codeUnits) request in
  (status outcome = 200 \/ status outcome = 400 \/ status outcome = 500)%Z
  /\ (success outcome = true <-> status outcome = 200%Z)
  /\ (status outcome = 200%Z
      <-> tooSparse (qualityScore request) = false
          /\ apiKeyConfigured = true
          /\ exists text,
               reply (extractedData request) (sourceUrl request) = Generator.TextBlock text
               /\ (100 <= codeUnits (Templates.cleanTemplate text))%nat
               /\ (byteSize (Templates.cleanTemplate text) <= Generator.MAX_FILE_SIZE)%N
               /\ (2 <= Generator.sectionCount (Templates.cleanTemplate text))%nat)
  /\ (status outcome = 400%Z <-> tooSparse (qualityScore request) = true).
Proof.
  intro outcome. subst outcome. rename apiKeyConfigured into key.
  unfold POST.
  destruct (tooSparse (qualityScore request)) eqn:Hsparse.
  { cbn [status success].
    split; [right; left; reflexivity|].
    split; [split; intro; discriminate|].
    split; [|split; reflexivity].
    split; [intro; discriminate | intros [H _]; discriminate]. }
  destruct key; cbn [negb].
  2:{ cbn [status success].
      split; [right; right; reflexivity|].
      split; [split; intro; discriminate|].
      split; [|split; intro; discriminate].
      split; [intro; discriminate | intros [_ [H _]]; discriminate]. }
  assert (Hfailing : forall calls,
             ((exists text,
                 reply (extractedData request) (sourceUrl request) = Generator.TextBlock text
                 /\ (100 <= codeUnits (Templates.cleanTemplate text))%nat
                 /\ (byteSize (Templates.cleanTemplate text) <= Generator.MAX_FILE_SIZE)%N
                 /\ (2 <= Generator.sectionCount (Templates.cleanTemplate text))%nat)
             -> False) ->
             let outcome := mkOutcome calls 500 false in
             (status outcome = 200 \/ status outcome = 400 \/ status outcome = 500)%Z
             /\ (success outcome = true <-> status outcome = 200%Z)
             /\ (status outcome = 200%Z
                 <-> false = false /\ true = true
                     /\ exists text,
                          reply (extractedData request) (sourceUrl request)
                          = Generator.TextBlock text
                          /\ (100 <= codeUnits (Templates.cleanTemplate text))%nat
                          /\ (byteSize (Templates.cleanTemplate text)
                               <= Generator.MAX_FILE_SIZE)%N
                          /\ (2 <= Generator.sectionCount (Templates.cleanTemplate text))%nat)
             /\ (status outcome = 400%Z <-> false = true)).
  { intros calls Hnone outcome. subst outcome. cbn [status success].
    split; [right; right; reflexivity|].
    split; [split; intro; discriminate|].
    split; [|split; intro; discriminate].
    split; [intro; discriminate | intros [_ [_ H]]; destruct (Hnone H)]. }
  destruct (Generator.generateLLMSText byteSize reply (extractedData request)
                                       (sourceUrl request)) as [content|message] eqn:Hgen.
  - destruct (generated_content_is_clean _ _ _ _ _ Hgen) as [Hsize Hcontent].
    unfold Generator.validateGeneratedContent.
    assert (Hbrace : includes content "{" && includes content "}" = false).
    { rewrite Hcontent.
      destruct (no_brace_includes _ (cleanTemplate_no_brace
                  match reply (extractedData request) (sourceUrl request) with
                  | Generator.TextBlock text => text
                  | _ => EmptyString
                  end)) as [Hopen _].
      rewrite Hopen. reflexivity. }
    rewrite Hbrace, Hsize.
    destruct (reply (extractedData request) (sourceUrl request)) as [text| |] eqn:Hreply.
    + destruct (codeUnits content <? 100)%nat eqn:Hlen.
      * apply Nat.ltb_lt in Hlen. apply Hfailing.
        intros [text' [Htext [Hlong _]]]. inversion Htext; subst text'.
        rewrite <- Hcontent in Hlong. lia.
      * apply Nat.ltb_ge in Hlen.
        destruct (Generator.sectionCount content <? 2)%nat eqn:Hsections.
        -- apply Nat.ltb_lt in Hsections. apply Hfailing.
           intros [text' [Htext [_ [_ Hcount]]]]. inversion Htext; subst text'.
           rewrite <- Hcontent in Hcount. lia.
        -- apply Nat.ltb_ge in Hsections. apply N.ltb_ge in Hsize.
           cbn [status success].
           split; [left; reflexivity|].
           split; [split; reflexivity|].
           split; [|split; intro; discriminate].
           split; [|reflexivity].
           intros _. split; [reflexivity|]. split; [reflexivity|].
           exists text. rewrite <- Hcontent. repeat split; assumption.
    + destruct (codeUnits content <? 100)%nat;
        [|destruct (Generator.sectionCount content <? 2)%nat eqn:Hsections].
      * apply Hfailing. intros [text' [Htext _]]. discriminate.
      * apply Hfailing. intros [text' [Htext _]]. discriminate.
      * exfalso. rewrite Hcontent in Hsections. vm_compute in Hsections. discriminate.
    + unfold Generator.generateLLMSText in Hgen. rewrite Hreply in Hgen. discriminate.
  - rewrite (generation_fails_with_fixed_message _ _ _ _ _ Hgen).
    change (errorStatus "Failed to generate LLMS.txt file") with 500%Z.
    apply Hfailing.
    intros [text [Hreply [_ [Hsize _]]]]. unfold Generator.generateLLMSText in Hgen.
    rewrite Hreply in Hgen. cbv zeta in Hgen.
    apply N.ltb_ge in Hsize. rewrite Hsize in Hgen. discriminate.
Qed.

(** X21: the generate route with the generator plugged in, from the request
    body on.  Every error of the generator reaches the handler with one
    fixed message, which none of the handler's tests for an API key, a rate
    limit, a timeout or an oversized file matches: to a body that passes the
    schema the handler answers 200, 400 or 500, and 400 exactly when the
    score blocks the request.  The answers 401, 429, 504 and 413 are given
    only to a body that is no JSON, through the message of its error.  When
    the text of the reply is ASCII, the handler answers 200 exactly when the
    score does not block the request, the API key is configured, the first
    block of the reply is text, and the cleaned text has at least 100 code
    units, at least two section headings and a size within the limit; the
    check for placeholders never rejects anything.  Success is reported
    exactly with 200. *)
Theorem generate_route_answers :
  forall (byteSize : string -> N) (codeUnits : string -> nat)
         (reply : ExtractedData -> string -> Generator.Reply)
         (apiKeyConfigured : bool) (body : Body GenerateRequest),
    let outcome := Generator.handle byteSize codeUnits reply apiKeyConfigured body in
    (success outcome = true <-> status outcome = 200%Z)
    /\ (forall request,
           body = Parsed request ->
           (status outcome = 200 \/ status outcome = 400 \/ status outcome = 500)%Z
           /\ (status outcome = 400%Z <-> tooSparse (qualityScore request) = true)
           /\ (asciiReply (reply (extractedData request) (sourceUrl request)) = true ->
               (status outcome = 200%Z
                <-> tooSparse (qualityScore request) = false
                    /\ apiKeyConfigured = true
                    /\ exists text,
                         reply (extractedData request) (sourceUrl request)
                         = Generator.TextBlock text
                         /\ (100 <= codeUnits (Templates.cleanTemplate text))%nat
                         /\ (byteSize (Templates.cleanTemplate text)
                             <= Generator.MAX_FILE_SIZE)%N
                         /\ (2 <= Generator.sectionCount (Templates.cleanTemplate text))%nat)))
    /\ (body = Invalid -> status outcome = 400%Z /\ generatorCalls outcome = [])
    /\ (forall message,
           body = Malformed message ->
           status outcome = errorStatus message /\ generatorCalls outcome = [])
    /\ ((status outcome = 401 \/ status outcome = 429 \/ status outcome = 504
         \/ status outcome = 413)%Z ->
        exists message, body = Malformed message).
Proof.
  intros byteSize codeUnits reply key body outcome. subst outcome.
  destruct body as [request| |message]; cbn [Generator.handle].
  - destruct (generate_route_parsed byteSize codeUnits reply key request)
      as [Hset [Hsuccess [Hok Hsparse]]].
    cbv zeta in Hset, Hsuccess, Hok, Hsparse.
    split; [exact Hsuccess|].
    split; [intros request' Heq; inversion Heq; subst request'; tauto|].
    split; [discriminate|]. split; [discriminate|].
    intro H. exfalso. lia.
  - cbn [status success generatorCalls].
    split; [split; intro; discriminate|].
    split; [discriminate|]. split; [intros _; split; reflexivity|].
    split; [discriminate|]. intro H. exfalso. lia.
  - cbn [status success generatorCalls].
    pose proof (generate_errorStatus_values message) as Hvalues.
    split; [split; [discriminate | intro H; exfalso; lia]|].
    split; [discriminate|]. split; [discriminate|].
    split; [intros message' Heq; inversion Heq; split; reflexivity|].
    intros _. exists message. reflexivity.
Qed.

Lemma generate_route_answers_witness :
  status (Generator.handle (fun s => N.of_nat (String.length s)) String.length
                           (fun _ _ => Generator.NoReply) true
                           (Malformed "Unexpected token t in JSON: timeout"))
  = 504%Z.
Proof.
  exact (proj1 (proj1 (proj2 (proj2 (proj2
           (generate_route_answers (fun s => N.of_nat (String.length s)) String.length
                                   (fun _ _ => Generator.NoReply) true
                                   (Malformed "Unexpected token t in JSON: timeout")))))
                      "Unexpected token t in JSON: timeout" eq_refl)).
Defined.

(* ------------------------------------------------------------------ *)
(** ** The scrape route handler *)

Lemma errorStatus_values (message : string) :
  (ScrapeRoute.errorStatus message = 408 \/ ScrapeRoute.errorStatus message = 400
   \/ ScrapeRoute.errorStatus message = 403 \/ ScrapeRoute.errorStatus message = 500)%Z.
Proof.
  unfold ScrapeRoute.errorStatus.
  destruct (includes message "timeout"); [tauto|].
  destruct (_ || _); [tauto|].
  destruct (_ || _); tauto.
Qed.

(** The handler on a request that passed the schema. *)
Lemma scrape_route_parsed (scrapeWebsite : string -> option bool -> ScrapeRoute.Scrape)
      (trimmedLength : string -> nat) (url : string) (usePlaywright : option bool) :
  let outcome :=
    ScrapeRoute.POST scrapeWebsite trimmedLength
                     (Parsed (ScrapeRoute.mkScrapeRequest url usePlaywright)) in
  (ScrapeRoute.scrapeCalls outcome = [usePlaywright]
   \/ (ScrapeRoute.scrapeCalls outcome = [usePlaywright; Some true]
       /\ usePlaywright <> Some true
       /\ exists first,
            scrapeWebsite url usePlaywright = ScrapeRoute.Scraped first
            /\ ScrapeRoute.tooShort trimmedLength (textContent first) = true))
  /\ (ScrapeRoute.scrapeStatus outcome = 200%Z <-> ScrapeRoute.returned outcome <> None)
  /\ (ScrapeRoute.scrapeStatus outcome = 200 \/ ScrapeRoute.scrapeStatus outcome = 400
      \/ ScrapeRoute.scrapeStatus outcome = 403 \/ ScrapeRoute.scrapeStatus outcome = 408
      \/ ScrapeRoute.scrapeStatus outcome = 500)%Z
  /\ (forall content,
         ScrapeRoute.returned outcome = Some content ->
         (exists option, In option (ScrapeRoute.scrapeCalls outcome)
                         /\ scrapeWebsite url option = ScrapeRoute.Scraped content)
         /\ (ScrapeRoute.tooShort trimmedLength (textContent content) = true ->
             In (Some true) (ScrapeRoute.scrapeCalls outcome)))
  /\ (forall message,
         In (Some true) (ScrapeRoute.scrapeCalls outcome) ->
         scrapeWebsite url (Some true) = ScrapeRoute.ScrapeFailed message ->
         ScrapeRoute.returned outcome = None
         /\ ScrapeRoute.scrapeStatus outcome = ScrapeRoute.errorStatus message).
Proof.
  intro outcome. subst outcome.
  unfold ScrapeRoute.POST. cbn [ScrapeRoute.url ScrapeRoute.usePlaywright].
  destruct (scrapeWebsite url usePlaywright) as [first|message] eqn:Hfirst.
  2:{ cbn [ScrapeRoute.scrapeCalls ScrapeRoute.scrapeStatus ScrapeRoute.returned].
      pose proof (errorStatus_values message) as Hstatus.
      split; [left; reflexivity|].
      split; [split; [intro H; exfalso; lia | intro H; congruence]|].
      split; [tauto|].
      split; [intros content H; discriminate|].
      intros message' [Hin | []] Hfail. subst usePlaywright.
      rewrite Hfail in Hfirst. inversion Hfirst. split; reflexivity. }
  cbv zeta.
  destruct (ScrapeRoute.tooShort trimmedLength (textContent first)) eqn:Hshort.
  - destruct usePlaywright as [[|]|] eqn:Hoption; cbn [negb andb].
    + cbn [ScrapeRoute.scrapeCalls ScrapeRoute.scrapeStatus ScrapeRoute.returned].
      split; [left; reflexivity|].
      split; [split; [discriminate | reflexivity]|].
      split; [tauto|].
      split.
      * intros content H. inversion H; subst content. split.
        -- exists (Some true). split; [left; reflexivity | exact Hfirst].
        -- intros _. left. reflexivity.
      * intros message _ Hfail. rewrite Hfail in Hfirst. discriminate.
    + destruct (scrapeWebsite url (Some true)) as [retry|message] eqn:Hretry.
      * destruct (ScrapeRoute.longEnough trimmedLength (textContent retry)) eqn:Hlong;
          cbn [ScrapeRoute.scrapeCalls ScrapeRoute.scrapeStatus ScrapeRoute.returned].
        -- split; [right; split; [reflexivity|]; split; [discriminate|];
                   exists first; split; [reflexivity | exact Hshort]|].
           split; [split; [discriminate | reflexivity]|].
           split; [tauto|].
           split.
           ++ intros content H. inversion H; subst content. split.
              ** exists (Some true). split; [right; left; reflexivity | exact Hretry].
              ** intros _. right. left. reflexivity.
           ++ intros message _ Hfail. discriminate.
        -- split; [right; split; [reflexivity|]; split; [discriminate|];
                   exists first; split; [reflexivity | exact Hshort]|].
           split; [split; [discriminate | reflexivity]|].
           split; [tauto|].
           split.
           ++ intros content H. inversion H; subst content. split.
              ** exists (Some false). split; [left; reflexivity | exact Hfirst].
              ** intros _. right. left. reflexivity.
           ++ intros message _ Hfail. discriminate.
      * cbn [ScrapeRoute.scrapeCalls ScrapeRoute.scrapeStatus ScrapeRoute.returned].
        pose proof (errorStatus_values message) as Hstatus.
        split; [right; split; [reflexivity|]; split; [discriminate|];
                exists first; split; [reflexivity | exact Hshort]|].
        split; [split; [intro H; exfalso; lia | intro H; congruence]|].
        split; [tauto|].
        split; [intros content H; discriminate|].
        intros message' _ Hfail. inversion Hfail. split; reflexivity.
    + destruct (scrapeWebsite url (Some true)) as [retry|message] eqn:Hretry.
      * destruct (ScrapeRoute.longEnough trimmedLength (textContent retry)) eqn:Hlong;
          cbn [ScrapeRoute.scrapeCalls ScrapeRoute.scrapeStatus ScrapeRoute.returned].
        -- split; [right; split; [reflexivity|]; split; [discriminate|];
                   exists first; split; [reflexivity | exact Hshort]|].
           split; [split; [discriminate | reflexivity]|].
           split; [tauto|].
           split.
           ++ intros content H. inversion H; subst content. split.
              ** exists (Some true). split; [right; left; reflexivity | exact Hretry].
              ** intros _. right. left. reflexivity.
           ++ intros message _ Hfail. discriminate.
        -- split; [right; split; [reflexivity|]; split; [discriminate|];
                   exists first; split; [reflexivity | exact Hshort]|].
           split; [split; [discriminate | reflexivity]|].
           split; [tauto|].
           split.
           ++ intros content H. inversion H; subst content. split.
              ** exists None. split; [left; reflexivity | exact Hfirst].
              ** intros _. right. left. reflexivity.
           ++ intros message _ Hfail. discriminate.
      * cbn [ScrapeRoute.scrapeCalls ScrapeRoute.scrapeStatus ScrapeRoute.returned].
        pose proof (errorStatus_values message) as Hstatus.
        split; [right; split; [reflexivity|]; split; [discriminate|];
                exists first; split; [reflexivity | exact Hshort]|].
        split; [split; [intro H; exfalso; lia | intro H; congruence]|].
        split; [tauto|].
        split; [intros content H; discriminate|].
        intros message' _ Hfail. inversion Hfail. split; reflexivity.
  - cbn [andb].
    cbn [ScrapeRoute.scrapeCalls ScrapeRoute.scrapeStatus ScrapeRoute.returned].
    split; [left; reflexivity|].
    split; [split; [discriminate | reflexivity]|].
    split; [tauto|].
    split.
    + intros content H. inversion H; subst content. split.
      * exists usePlaywright. split; [left; reflexivity | exact Hfirst].
      * intro H'. rewrite H' in Hshort. discriminate.
    + intros message [Hin | []] Hfail. subst usePlaywright.
      rewrite Hfail in Hfirst. discriminate.
Qed.

(** X23: the scrape route, from the request body on, whatever the scraper
    returns and however the length of a trimmed text is measured.  It
    answers 200 exactly when it returns content, and otherwise 400, 403, 408
    or 500.  For a body that does not pass the schema or is no JSON the
    scraper is not called.  For a body that passes, the scraper is called
    once or twice, and a second call always asks for the browser and only
    follows a first result whose text is too short; the content returned is
    what one of the calls produced; content whose text is too short is
    returned only after the browser has been tried; and when the second call
    fails the handler answers with that error, although the first call had
    succeeded. *)
Theorem scrape_route_answers :
  forall (scrapeWebsite : string -> option bool -> ScrapeRoute.Scrape)
         (trimmedLength : string -> nat) (body : Body ScrapeRoute.ScrapeRequest),
    let outcome := ScrapeRoute.POST scrapeWebsite trimmedLength body in
    (ScrapeRoute.scrapeStatus outcome = 200%Z <-> ScrapeRoute.returned outcome <> None)
    /\ (ScrapeRoute.scrapeStatus outcome = 200 \/ ScrapeRoute.scrapeStatus outcome = 400
        \/ ScrapeRoute.scrapeStatus outcome = 403 \/ ScrapeRoute.scrapeStatus outcome = 408
        \/ ScrapeRoute.scrapeStatus outcome = 500)%Z
    /\ ((forall request, body <> Parsed request) ->
        ScrapeRoute.scrapeCalls outcome = [] /\ ScrapeRoute.returned outcome = None)
    /\ (forall request,
           body = Parsed request ->
           (ScrapeRoute.scrapeCalls outcome = [ScrapeRoute.usePlaywright request]
            \/ (ScrapeRoute.scrapeCalls outcome
                = [ScrapeRoute.usePlaywright request; Some true]
                /\ ScrapeRoute.usePlaywright request <> Some true
                /\ exists first,
                     scrapeWebsite (ScrapeRoute.url request)
                                   (ScrapeRoute.usePlaywright request)
                     = ScrapeRoute.Scraped first
                     /\ ScrapeRoute.tooShort trimmedLength (textContent first) = true))
           /\ (forall content,
                  ScrapeRoute.returned outcome = Some content ->
                  (exists option,
                      In option (ScrapeRoute.scrapeCalls outcome)
                      /\ scrapeWebsite (ScrapeRoute.url request) option
                         = ScrapeRoute.Scraped content)
                  /\ (ScrapeRoute.tooShort trimmedLength (textContent content) = true ->
                      In (Some true) (ScrapeRoute.scrapeCalls outcome)))
           /\ (forall message,
                  In (Some true) (ScrapeRoute.scrapeCalls outcome) ->
                  scrapeWebsite (ScrapeRoute.url request) (Some true)
                  = ScrapeRoute.ScrapeFailed message ->
                  ScrapeRoute.returned outcome = None
                  /\ ScrapeRoute.scrapeStatus outcome = ScrapeRoute.errorStatus message)).
Proof.
  intros scrapeWebsite trimmedLength body outcome. subst outcome.
  destruct body as [[url usePlaywright]| |message].
  - destruct (scrape_route_parsed scrapeWebsite trimmedLength url usePlaywright)
      as [Hcalls [Hok [Hset [Hcontent Hretry]]]].
    cbv zeta in Hcalls, Hok, Hset, Hcontent, Hretry.
    split; [exact Hok|]. split; [exact Hset|].
    split; [intro H; exfalso; exact (H _ eq_refl)|].
    intros request Heq. inversion Heq; subst request.
    cbn [ScrapeRoute.url ScrapeRoute.usePlaywright].
    split; [exact Hcalls|]. split; [exact Hcontent | exact Hretry].
  - cbn [ScrapeRoute.POST ScrapeRoute.scrapeCalls ScrapeRoute.scrapeStatus
         ScrapeRoute.returned].
    split; [split; [discriminate | intro H; congruence]|].
    split; [tauto|]. split; [intros _; split; reflexivity|].
    intros request Heq. discriminate.
  - cbn [ScrapeRoute.POST ScrapeRoute.scrapeCalls ScrapeRoute.scrapeStatus
         ScrapeRoute.returned].
    pose proof (errorStatus_values message) as Hstatus.
    split; [split; [intro H; exfalso; lia | intro H; congruence]|].
    split; [tauto|]. split; [intros _; split; reflexivity|].
    intros request Heq. discriminate.
Qed.

(* ------------------------------------------------------------------ *)
(** ** The extract route handler, from the request body on *)




(** An email that cannot be printed: [extractData] returns a profile, and
    the handler answers 500, because the line it logs converts the email to
    a string. *)
Lemma extract_route_unprintable_email :
  (exists profile, extractData unprintableEmailPage = Ok profile)
  /\ ExtractHandler.responseStatus (ExtractHandler.POST (Parsed unprintableEmailPage))
     = 500%Z.
Proof.
  split; [eexists; vm_compute; reflexivity | vm_compute; reflexivity].
Qed.


